(** * tpidump: the MPT digit-stream reader

    A shallow embedding of [tpidump.c] (the reader of the binary TPI
    number format) and the properties of its digit stream.

    Conventions of the embedding.
    - C integers are [Z]; every place where the C arithmetic is carried
      out at a fixed width has its wrap-around written out with [u64]
      (unsigned 64 bit) and [s64] (two's complement 64 bit, the
      conversion gcc performs).  C's [/] and [%] on signed operands are
      [Z.quot] and [Z.rem] (truncation toward zero).
    - Two operations of the source are signed and can overflow, which C
      leaves undefined: the scaling [start_pos *= s->base2_exp] of line
      129 and the [pos - 1] of line 218.  The embedding writes the
      wrap-around that the compiled code performs.  The results that
      speak of the absence of undefined behaviour, or of the digits at a
      start position, carry the hypothesis that these do not overflow
      ([scaling_fits], [start_in_range]).
    - A file is the list of its bytes.  [fread] into a [uint64_t] or into
      the header struct decodes little-endian (the program is compiled
      for x86, see the note at the top of the source).
    - The process state that the reader touches (live heap blocks, open
      [FILE] handles, the reads that were issued) is the record [World];
      the functions of the source live in the state-and-failure monad
      [M].  [abort()] is the outcome [Abort]; behaviour that C leaves
      undefined (use of a freed block, double free, an out-of-bounds
      array index, an oversized shift) is the outcome [Fault].
    - [fseeko] accepts the offsets from 0 to the largest offset of the
      file system ([w_maxoff], a parameter of the process state); on any
      other offset it fails and leaves the position where it was, and
      the source ignores its result.
    - [malloc] is taken to succeed: the NULL that line 106 returns for
      a failing [malloc] is not among the outcomes of the open.

    The file has three parts: the embedding of the source, function by
    function; the vocabulary in which the properties are stated; the
    lemmas and the results.  The results, under the identifiers of the
    properties of the specification:
    - C1  [position_consistency]: a stream opened [j] digits later
          delivers the same digits, [j] digits later;
    - C2  [open_base_validation]: the bases that the open accepts are
          10, 2 and 16 ([open_base_4_rejected]: not 4, not 8);
    - C3  [base10_limb_digits]: the 19 decimal digits of a limb denote
          the limb modulo [10^19] ([base10_limb_of_20_digits]);
    - C4  [open_position_out_of_range]: the open fails exactly when the
          limb offset that line 135 computes is not positive
          ([open_offset_wraps]: in 64 bits, not as the formula reads);
    - C5  [pi_first_five_digits]: the digits "31415" of a one-limb file;
    - C6  [short_read_aborts]: a short read ends in [abort()]
          ([short_read_not_returned]: nothing is returned);
    - C7  [close_releases_once]: one close releases everything, a second
          one is undefined ([close_twice_faults]);
    - C8  [get_digit_range]: digits lie between 0 and [base - 1];
    - C9  [buffer_invariant]: the bounds of the buffer cursor and the
          order of the limbs and of the refills ([refills_read_upward]:
          the refills go down the file only while their offsets fit);
    - C10 [finite_stream_stable_eof]: finitely many digits, and -1 for
          ever after the first -1.

    Further results, on the reader and on [dump_digits]:
    - X1  [open_outcomes]: the four failures of the open and their
          order;
    - X2  [open_reads_header_only]: an open reads the header at most;
    - X3  [header_parses_bytes]: the bytes of an accepted header;
    - X4  [digits_by_index]: which digit of which limb a stream
          delivers, how many, and where -1 comes;
    - X5  [limb_from_digits]: the digits of a whole limb denote it;
    - X6  [getc_characters]: the characters of [mpt_reader_getc];
    - X7  [negative_start_undefined]: start positions just below 0;
    - X8  [dump_digits_ends]: when [dump_digits] exits, what it may
          print, what it releases;
    - X9  [dump_digits_output]: the text that [dump_digits] prints;
    - X10 [streams_independent]: a second stream does not disturb the
          first;
    - X11 [integer_part_digits]: the digits of the integer limbs;
    - X12 [hex_digit_of_bits]: the bases 2 and 16 agree;
    - X13 [dump_truncated_aborts]: [dump_digits] on a file that ends
          before the start limb. *)

From Stdlib Require Import String Ascii Bool ZArith List Lia.
From coqutil Require Import Byte Word.LittleEndianList.
Import ListNotations.
Local Open Scope Z_scope.

(* ================================================================== *)
(** ** Machine integers *)

Definition u64 (z : Z) : Z := z mod 2 ^ 64.
Definition s64 (z : Z) : Z := (z + 2 ^ 63) mod 2 ^ 64 - 2 ^ 63.

(** [min_int64], lines 42-48. *)
Definition min_int64 (a b : Z) : Z := if a <? b then a else b.

(* ================================================================== *)
(** ** Constants and the on-disk header *)

Definition BASE10_EXP : Z := 19.
Definition MPT_TYPE_MPZ : Z := 1.
Definition MPT_TYPE_MPF : Z := 2.
Definition MPT_DISK_HEADER_SIZE : Z := 4096.
Definition MPT_MAX_BUF_LEN : Z := 1024 * 1024.

(** [sizeof(uint64_t)] and [sizeof(mpt_disk_header_t)] (seven 8-byte
    fields, no padding). *)
Definition sizeof_uint64 : Z := 8.
Definition sizeof_header : Z := 56.

(** [mpt_disk_header_t]; the field [x] of the source is [h_x] here, so
    that [s->h.len] reads [h_len (h s)]. *)
Record mpt_disk_header_t : Type := mkHeader {
  h_magic : list byte;
  h_len : Z;
  h_allocated_len : Z;
  h_type : Z;
  h_negative : Z;
  h_base : Z;
  h_expn : Z
}.

(** ["MPT\1FILE"] *)
Definition mpt_magic : list byte :=
  [Byte.x4d; Byte.x50; Byte.x54; Byte.x01; Byte.x46; Byte.x49; Byte.x4c; Byte.x45].

Fixpoint bytes_eqb (a b : list byte) : bool :=
  match a, b with
  | [], [] => true
  | x :: a', y :: b' => Byte.eqb x y && bytes_eqb a' b'
  | _, _ => false
  end.

(** The bytes [off .. off+n) of a byte sequence. *)
Definition slice (off n : nat) (bs : list byte) : list byte :=
  firstn n (skipn off bs).

(** The struct as [fread] leaves it: [bs] are the bytes that were read,
    the remainder of the struct keeps the zeros of [memset]. *)
Definition decode_header (bs : list byte) : mpt_disk_header_t :=
  let raw := firstn 56 (bs ++ repeat Byte.x00 56) in
  {| h_magic := slice 0 8 raw;
     h_len := le_combine (slice 8 8 raw);
     h_allocated_len := le_combine (slice 16 8 raw);
     h_type := le_combine (slice 24 8 raw);
     h_negative := le_combine (slice 32 8 raw);
     h_base := le_combine (slice 40 8 raw);
     h_expn := s64 (le_combine (slice 48 8 raw)) |}.

(** An array of [n] limbs as [fread] stores it from raw bytes. *)
Fixpoint limbs_of_bytes (n : nat) (bs : list byte) : list Z :=
  match n with
  | O => []
  | S n' => le_combine (firstn 8 bs) :: limbs_of_bytes n' (skipn 8 bs)
  end.

(* ================================================================== *)
(** ** The process state and the monad of the reader *)

Record FILE : Type := mkFILE {
  fd : nat;              (* identity of the stream *)
  fdata : list byte;     (* contents of the file it was opened on *)
  fpos : Z;              (* file position indicator *)
  fmax : Z               (* largest offset its file system accepts *)
}.

(** One [fread]: the stream, the offset it started at and the number of
    bytes it delivered. *)
Inductive io_event : Type :=
| EvRead (handle : nat) (offset : Z) (count : Z).

Record World : Type := mkWorld {
  w_fs : string -> option (list byte);   (* the files that exist *)
  w_next : nat;                          (* next fresh identity *)
  w_blocks : list nat;                   (* live malloc blocks *)
  w_files : list nat;                    (* open FILE handles *)
  w_reads : list io_event;               (* reads issued, latest first *)
  w_maxoff : Z                           (* largest file offset of the file system *)
}.

Inductive result (A : Type) : Type :=
| Ok (a : A)
| Abort
| Fault.
Arguments Ok {A} a.
Arguments Abort {A}.
Arguments Fault {A}.

Definition M (A : Type) : Type := World -> result (A * World).

Definition ret {A} (a : A) : M A := fun w => Ok (a, w).

Definition bind {A B} (m : M A) (k : A -> M B) : M B :=
  fun w => match m w with
           | Ok (a, w') => k a w'
           | Abort => Abort
           | Fault => Fault
           end.

Definition abort {A} : M A := fun _ => Abort.
Definition fault {A} : M A := fun _ => Fault.

Declare Scope reader_scope.
Delimit Scope reader_scope with reader.
Notation "x <- m ;; k" := (bind m (fun x => k))
  (at level 61, m at next level, right associativity) : reader_scope.
Notation "' p <- m ;; k" := (bind m (fun x => match x with p => k end))
  (at level 61, p pattern, m at next level, right associativity) : reader_scope.
Notation "m ;;; k" := (bind m (fun _ => k))
  (at level 61, right associativity) : reader_scope.
Local Open Scope reader_scope.

Definition mem_nat (x : nat) (l : list nat) : bool := existsb (Nat.eqb x) l.
Definition remove_nat (x : nat) (l : list nat) : list nat :=
  filter (fun y => negb (Nat.eqb x y)) l.

(** [malloc]: a fresh live block. *)
Definition malloc : M nat := fun w =>
  Ok (w_next w,
      mkWorld (w_fs w) (S (w_next w)) (w_next w :: w_blocks w) (w_files w) (w_reads w)
              (w_maxoff w)).

(** [free(p)]: nothing for a null pointer, undefined for a block that is
    not live. *)
Definition free (p : option nat) : M unit := fun w =>
  match p with
  | None => Ok (tt, w)
  | Some b =>
      if mem_nat b (w_blocks w)
      then Ok (tt, mkWorld (w_fs w) (w_next w) (remove_nat b (w_blocks w))
                           (w_files w) (w_reads w) (w_maxoff w))
      else Fault
  end.

(** Access through a pointer to a block: undefined once the block is
    freed. *)
Definition deref (b : nat) : M unit := fun w =>
  if mem_nat b (w_blocks w) then Ok (tt, w) else Fault.

(** [fopen(filename, "rb")]: NULL when the file does not exist. *)
Definition fopen (filename : string) : M (option FILE) := fun w =>
  match w_fs w filename with
  | None => Ok (None, w)
  | Some d =>
      Ok (Some (mkFILE (w_next w) d 0 (w_maxoff w)),
          mkWorld (w_fs w) (S (w_next w)) (w_blocks w) (w_next w :: w_files w) (w_reads w)
                  (w_maxoff w))
  end.

Definition fclose (F : FILE) : M unit := fun w =>
  if mem_nat (fd F) (w_files w)
  then Ok (tt, mkWorld (w_fs w) (w_next w) (w_blocks w)
                       (remove_nat (fd F) (w_files w)) (w_reads w) (w_maxoff w))
  else Fault.

(** The offsets that [fseeko(F, off, SEEK_SET)] accepts: those from 0
    up to the largest offset of the file system.  A file system holds no
    file beyond its largest offset, so every offset within the file is
    accepted whatever [fmax] says. *)
Definition seek_ok (F : FILE) (off : Z) : bool :=
  (0 <=? off) && (off <=? Z.max (fmax F) (Z.of_nat (length (fdata F)))).

(** [fseeko(F, off, SEEK_SET)]: on an offset that is not accepted it
    fails (EINVAL) and leaves the position where it was; the source
    ignores its return value. *)
Definition fseeko (F : FILE) (off : Z) : M FILE := fun w =>
  if mem_nat (fd F) (w_files w)
  then Ok (if seek_ok F off then mkFILE (fd F) (fdata F) off (fmax F) else F, w)
  else Fault.

(** [fread(dst, 1, n, F)]: the bytes delivered (fewer than [n] at the end
    of the file) and the advanced stream. *)
Definition fread (F : FILE) (n : Z) : M (list byte * FILE) := fun w =>
  if mem_nat (fd F) (w_files w)
  then
    let bs := slice (Z.to_nat (fpos F)) (Z.to_nat n) (fdata F) in
    let k := Z.of_nat (length bs) in
    Ok ((bs, mkFILE (fd F) (fdata F) (fpos F + k) (fmax F)),
        mkWorld (w_fs w) (w_next w) (w_blocks w) (w_files w)
                (EvRead (fd F) (fpos F) k :: w_reads w) (w_maxoff w))
  else Fault.

(* ================================================================== *)
(** ** The reader *)

(** The limb buffer: the block [malloc] returned and the limbs that have
    been stored in it (nothing can be read from it before the first
    fill). *)
Record buffer : Type := mkBuf {
  b_addr : nat;
  b_data : list Z
}.

(** [MPTReader]; [self] is the address of the struct, that is the
    pointer [s] of the source. *)
Record MPTReader : Type := mkReader {
  self : nat;
  f : option FILE;
  h : mpt_disk_header_t;
  base : Z;
  buf : option buffer;
  buf_pos : Z;
  buf_len : Z;
  pos : Z;
  start_digit : Z;
  base2_exp : Z;
  base2_mask : Z;
  cur_digit : Z;
  cur_limb2 : Z;
  cur_limb10 : list Z
}.

Definition set_f v s := mkReader (self s) v (h s) (base s) (buf s) (buf_pos s)
  (buf_len s) (pos s) (start_digit s) (base2_exp s) (base2_mask s) (cur_digit s)
  (cur_limb2 s) (cur_limb10 s).
Definition set_h v s := mkReader (self s) (f s) v (base s) (buf s) (buf_pos s)
  (buf_len s) (pos s) (start_digit s) (base2_exp s) (base2_mask s) (cur_digit s)
  (cur_limb2 s) (cur_limb10 s).
Definition set_base v s := mkReader (self s) (f s) (h s) v (buf s) (buf_pos s)
  (buf_len s) (pos s) (start_digit s) (base2_exp s) (base2_mask s) (cur_digit s)
  (cur_limb2 s) (cur_limb10 s).
Definition set_buf v s := mkReader (self s) (f s) (h s) (base s) v (buf_pos s)
  (buf_len s) (pos s) (start_digit s) (base2_exp s) (base2_mask s) (cur_digit s)
  (cur_limb2 s) (cur_limb10 s).
Definition set_buf_pos v s := mkReader (self s) (f s) (h s) (base s) (buf s) v
  (buf_len s) (pos s) (start_digit s) (base2_exp s) (base2_mask s) (cur_digit s)
  (cur_limb2 s) (cur_limb10 s).
Definition set_buf_len v s := mkReader (self s) (f s) (h s) (base s) (buf s) (buf_pos s)
  v (pos s) (start_digit s) (base2_exp s) (base2_mask s) (cur_digit s)
  (cur_limb2 s) (cur_limb10 s).
Definition set_pos v s := mkReader (self s) (f s) (h s) (base s) (buf s) (buf_pos s)
  (buf_len s) v (start_digit s) (base2_exp s) (base2_mask s) (cur_digit s)
  (cur_limb2 s) (cur_limb10 s).
Definition set_start_digit v s := mkReader (self s) (f s) (h s) (base s) (buf s) (buf_pos s)
  (buf_len s) (pos s) v (base2_exp s) (base2_mask s) (cur_digit s)
  (cur_limb2 s) (cur_limb10 s).
Definition set_base2_exp v s := mkReader (self s) (f s) (h s) (base s) (buf s) (buf_pos s)
  (buf_len s) (pos s) (start_digit s) v (base2_mask s) (cur_digit s)
  (cur_limb2 s) (cur_limb10 s).
Definition set_base2_mask v s := mkReader (self s) (f s) (h s) (base s) (buf s) (buf_pos s)
  (buf_len s) (pos s) (start_digit s) (base2_exp s) v (cur_digit s)
  (cur_limb2 s) (cur_limb10 s).
Definition set_cur_digit v s := mkReader (self s) (f s) (h s) (base s) (buf s) (buf_pos s)
  (buf_len s) (pos s) (start_digit s) (base2_exp s) (base2_mask s) v
  (cur_limb2 s) (cur_limb10 s).
Definition set_cur_limb2 v s := mkReader (self s) (f s) (h s) (base s) (buf s) (buf_pos s)
  (buf_len s) (pos s) (start_digit s) (base2_exp s) (base2_mask s) (cur_digit s)
  v (cur_limb10 s).
Definition set_cur_limb10 v s := mkReader (self s) (f s) (h s) (base s) (buf s) (buf_pos s)
  (buf_len s) (pos s) (start_digit s) (base2_exp s) (base2_mask s) (cur_digit s)
  (cur_limb2 s) v.

(** The struct after [memset(s, 0, sizeof( *s))]. *)
Definition zero_reader (p : nat) : MPTReader :=
  mkReader p None (decode_header []) 0 None 0 0 0 0 0 0 0 0
           (repeat 0 (Z.to_nat BASE10_EXP)).

(** [mpt_reader_close], lines 89-95. *)
Definition mpt_reader_close (s : MPTReader) : M unit :=
  deref (self s) ;;;
  (match f s with
   | Some F => fclose F
   | None => ret tt
   end) ;;;
  free (option_map b_addr (buf s)) ;;;
  free (Some (self s)).

(* ------------------------------------------------------------------ *)
(** *** Opening a stream *)

(** [mpt_reader_open] returns NULL on every failure.  The embedding
    keeps the NULL and records next to it which check produced it, under
    the names of the error taxonomy of the specification. *)
Inductive open_error : Type :=
| UnsupportedBaseError       (* line 102 *)
| IoError                    (* line 111 *)
| FormatError                (* lines 113-120 *)
| PositionOutOfRangeError.   (* line 136 *)

Inductive opened : Type :=
| Stream (s : MPTReader)
| Null (why : open_error).

(** The [fail:] label, lines 140-142. *)
Definition open_fail (s : MPTReader) (why : open_error) : M opened :=
  mpt_reader_close s ;;; ret (Null why).

(** The loop of lines 125-126, [while ((1 << e) != base) e++]; it runs
    out of defined behaviour when [1 << e] leaves the range of [int]. *)
Fixpoint base2_exp_loop (fuel : nat) (e base : Z) : option Z :=
  match fuel with
  | O => None
  | S fuel' =>
      if Z.shiftl 1 e =? base then Some e else base2_exp_loop fuel' (e + 1) base
  end.

(** The right-hand side of line 135, with the conversions of C: the
    subtractions are carried out on [uint64_t], the result is stored in
    the [int64_t] field [pos]. *)
Definition start_limb_offset (hd : mpt_disk_header_t) (start_pos digits_per_limb : Z) : Z :=
  s64 (u64 (u64 (h_len hd - u64 (h_expn hd)) - u64 (Z.quot start_pos digits_per_limb))).

(** [mpt_reader_open], lines 97-143.  The scaling of line 129 is a
    signed multiplication: it is written with the wrap-around of the
    compiled code ([s64]), where C leaves the overflow undefined.  Both
    calls of [malloc] are taken to succeed, so the [return NULL] of line
    107 has no counterpart here. *)
Definition mpt_reader_open (filename : string) (base : Z) (start_pos : Z) : M opened :=
  if negb (base =? 10) && negb (base =? 2) && negb (base =? 16)
  then ret (Null UnsupportedBaseError)
  else
    p <- malloc ;;
    let s := zero_reader p in
    F <- fopen filename ;;
    let s := set_f F s in
    match F with
    | None => open_fail s IoError
    | Some F =>
        ' (bs, F) <- fread F sizeof_header ;;
        let s := set_h (decode_header bs) (set_f (Some F) s) in
        if negb (Z.of_nat (length bs) =? sizeof_header) then open_fail s FormatError
        else if negb (bytes_eqb (h_magic (h s)) mpt_magic) then open_fail s FormatError
        else if negb (h_type (h s) =? MPT_TYPE_MPF) then open_fail s FormatError
        else if h_expn (h s) <? 0 then open_fail s FormatError
        else
          ' (s, digits_per_limb, start_pos) <-
            (if base =? 10 then ret (s, BASE10_EXP, start_pos)
             else
               match base2_exp_loop 30 1 base with
               | None => fault
               | Some e =>
                   let s := set_base2_exp e s in
                   let s := set_base2_mask (Z.shiftl 1 e - 1) s in
                   ret (s, 64, s64 (start_pos * e))
               end) ;;
          let s := set_base base s in
          b <- malloc ;;
          let s := set_buf (Some (mkBuf b [])) s in
          let s := set_buf_len 0 s in
          let s := set_buf_pos 0 s in
          let s := set_pos (start_limb_offset (h s) start_pos digits_per_limb) s in
          if pos s <=? 0 then open_fail s PositionOutOfRangeError
          else ret (Stream (set_start_digit (Z.rem start_pos digits_per_limb) s))
    end.

(* ------------------------------------------------------------------ *)
(** *** Refilling the buffer *)

(** [mpt_reader_fill], lines 145-159.  The result is the return value
    of the C function together with the updated reader. *)
Definition mpt_reader_fill (s : MPTReader) : M (Z * MPTReader) :=
  deref (self s) ;;;
  let len := min_int64 (pos s) MPT_MAX_BUF_LEN in
  if len =? 0 then ret (-1, s)
  else
    let s := set_pos (s64 (pos s - len)) s in
    match f s, buf s with
    | Some F, Some b =>
        F <- fseeko F (s64 (u64 (MPT_DISK_HEADER_SIZE + u64 (pos s * sizeof_uint64)))) ;;
        ' (bs, F) <- fread F (u64 (len * sizeof_uint64)) ;;
        let s := set_f (Some F) s in
        if MPT_MAX_BUF_LEN * sizeof_uint64 <? Z.of_nat (length bs) then fault
        else if negb (Z.of_nat (length bs) =? u64 (len * sizeof_uint64)) then abort
        else
          let n := Z.to_nat len in
          let s := set_buf (Some (mkBuf (b_addr b)
                     (limbs_of_bytes n bs ++ skipn n (b_data b)))) s in
          let s := set_buf_len len s in
          let s := set_buf_pos len s in
          ret (0, s)
    | _, _ => fault
    end.

(* ------------------------------------------------------------------ *)
(** *** Extracting digits *)

(** [s->buf[i]] *)
Definition buf_get (s : MPTReader) (i : Z) : M Z :=
  match buf s with
  | None => fault
  | Some b =>
      if i <? 0 then fault
      else match nth_error (b_data b) (Z.to_nat i) with
           | Some a => ret a
           | None => fault
           end
  end.

(** [s->cur_limb10[i]] *)
Definition limb10_get (s : MPTReader) (i : Z) : M Z :=
  if (0 <=? i) && (i <? BASE10_EXP)
  then ret (nth (Z.to_nat i) (cur_limb10 s) 0)
  else fault.

(** [a >> n] on [uint64_t] *)
Definition shr64 (a n : Z) : M Z :=
  if (0 <=? n) && (n <? 64) then ret (Z.shiftr a n) else fault.

(** The loop of lines 174-177: [n] times, store [a % 10] and divide [a]
    by 10. *)
Fixpoint extract_base10 (n : nat) (a : Z) : list Z :=
  match n with
  | O => []
  | S n' => a mod 10 :: extract_base10 n' (a / 10)
  end.

(** [mpt_reader_get_digit], lines 161-197. *)
Definition mpt_reader_get_digit (s : MPTReader) : M (Z * MPTReader) :=
  deref (self s) ;;;
  if base s =? 10 then
    let emit (s : MPTReader) : M (Z * MPTReader) :=
      let s := set_cur_digit (cur_digit s - 1) s in
      d <- limb10_get s (cur_digit s) ;;
      ret (d, s) in
    if cur_digit s =? 0 then
      ' (rc, s) <- (if buf_pos s =? 0 then mpt_reader_fill s else ret (0, s)) ;;
      if negb (rc =? 0) then ret (-1, s)
      else
        let s := set_buf_pos (buf_pos s - 1) s in
        a <- buf_get s (buf_pos s) ;;
        let s := set_cur_limb10 (extract_base10 (Z.to_nat BASE10_EXP) a) s in
        let s := set_cur_digit (BASE10_EXP - start_digit s) s in
        let s := set_start_digit 0 s in
        emit s
    else emit s
  else
    let emit (s : MPTReader) : M (Z * MPTReader) :=
      let s := set_cur_digit (cur_digit s - base2_exp s) s in
      d <- shr64 (cur_limb2 s) (cur_digit s) ;;
      ret (Z.land d (base2_mask s), s) in
    if cur_digit s =? 0 then
      ' (rc, s) <- (if buf_pos s =? 0 then mpt_reader_fill s else ret (0, s)) ;;
      if negb (rc =? 0) then ret (-1, s)
      else
        let s := set_buf_pos (buf_pos s - 1) s in
        a <- buf_get s (buf_pos s) ;;
        let s := set_cur_limb2 a s in
        let s := set_cur_digit (64 - start_digit s) s in
        let s := set_start_digit 0 s in
        emit s
    else emit s.

(** [mpt_reader_getc], lines 199-210; ['0'] is 48 and ['A'] is 65. *)
Definition mpt_reader_getc (s : MPTReader) : M (Z * MPTReader) :=
  ' (c, s) <- mpt_reader_get_digit s ;;
  if c <? 0 then ret (c, s)
  else if c <? 10 then ret (c + 48, s)
  else ret (c + (65 - 10), s).

(** The pulling loop of [dump_digits] (lines 223-227) without its
    output formatting: call the reader up to [n] times and stop at the
    first negative result. *)
Fixpoint pull (get : MPTReader -> M (Z * MPTReader)) (n : nat) (s : MPTReader)
  : M (list Z * MPTReader) :=
  match n with
  | O => ret ([], s)
  | S n' =>
      ' (c, s) <- get s ;;
      if c <? 0 then ret ([], s)
      else ' (cs, s) <- pull get n' s ;; ret (c :: cs, s)
  end.

Definition read_digits := pull mpt_reader_get_digit.
Definition read_chars := pull mpt_reader_getc.

(** The text that a list of character codes prints. *)
Definition text_of (cs : list Z) : string :=
  string_of_list_ascii (map (fun c => ascii_of_N (Z.to_N c)) cs).

(* ------------------------------------------------------------------ *)
(** *** Dumping digits *)

(** The two output streams of the process: the characters put on
    [stdout], in order, and the text printed on [stderr]. *)
Record Console : Type := mkConsole {
  stdout : list Z;
  stderr : string
}.

Definition putchar (c : Z) (con : Console) : Console :=
  mkConsole (stdout con ++ [c]) (stderr con).

Definition eprint (msg : string) (con : Console) : Console :=
  mkConsole (stdout con) (stderr con ++ msg).

(** How [dump_digits] ends: it returns, or it calls [exit]. *)
Inductive dump_end : Type :=
| Returned
| Exited (status : Z).

(** The loop of lines 223-230, from the index [i] on.  [fuel] bounds the
    number of iterations; [dump_digits] passes [n], which is enough
    since [i] starts at 0 and the loop ends when [i] reaches [n].  The
    space is 32. *)
Fixpoint dump_loop (fuel : nat) (i n : Z) (s : MPTReader) (con : Console)
  : M (MPTReader * Console) :=
  match fuel with
  | O => ret (s, con)
  | S fuel' =>
      if i <? n then
        ' (c, s) <- mpt_reader_getc s ;;
        if c <? 0 then ret (s, con)
        else
          let con := putchar c con in
          let con := if (Z.rem i 10 =? 9) && negb (i =? s64 (n - 1))
                     then putchar 32 con else con in
          dump_loop fuel' (i + 1) n s con
      else ret (s, con)
  end.

(** The message of line 220. *)
Definition cannot_display (filename : string) : string :=
  filename ++ ": cannot display at this position" ++ String (ascii_of_nat 10) EmptyString.

(** [dump_digits], lines 212-232.  The [pos - 1] of line 218 and the
    [n - 1] of line 228 are signed subtractions, written with the
    wrap-around of the compiled code where C leaves the overflow (at
    the least [int64_t]) undefined. *)
Definition dump_digits (filename : string) (base pos n : Z) (con : Console)
  : M (dump_end * Console) :=
  r <- mpt_reader_open filename base (s64 (pos - 1)) ;;
  match r with
  | Null _ => ret (Exited 1, eprint (cannot_display filename) con)
  | Stream s =>
      ' (s, con) <- dump_loop (Z.to_nat n) 0 n s con ;;
      mpt_reader_close s ;;;
      ret (Returned, con)
  end.

(* ------------------------------------------------------------------ *)
(** *** Building files and worlds for the examples *)

(** A file with the given header fields and limbs: the 56 bytes of the
    header, zero padding up to [MPT_DISK_HEADER_SIZE], then the limbs. *)
Definition make_file (magic : list byte) (len type expn : Z) (limbs : list Z) : list byte :=
  magic ++ le_split 8 len ++ le_split 8 len ++ le_split 8 type
        ++ le_split 8 0 ++ le_split 8 10 ++ le_split 8 expn
        ++ repeat Byte.x00 (Z.to_nat (MPT_DISK_HEADER_SIZE - sizeof_header))
        ++ flat_map (le_split 8) limbs.

(** The largest value of [off_t]. *)
Definition max_off_t : Z := 2 ^ 63 - 1.

(** A process with nothing allocated, in a file system that holds the
    one file [d] under the name [name] and sets no limit of its own on
    file offsets. *)
Definition world_with (name : string) (d : list byte) : World :=
  mkWorld (fun n => if String.eqb n name then Some d else None) 0 [] [] [] max_off_t.

Definition pi_file : list byte :=
  make_file mpt_magic 1 MPT_TYPE_MPF 0 [3141592653589793238].

(* ================================================================== *)
(** * Vocabulary of the properties *)

(** ** Opening *)

(** Every identity in use is below the next fresh one. *)
Definition world_ok (w : World) : Prop :=
  forall x, In x (w_blocks w) \/ In x (w_files w) -> (x < w_next w)%nat.

(** The bases that pass the check of line 102. *)
Definition supported_base (b : Z) : bool :=
  (b =? 10) || (b =? 2) || (b =? 16).

(** The checks of lines 113-120 on the bytes of a file. *)
Definition header_parses (d : list byte) : bool :=
  let hd := decode_header (slice 0 56 d) in
  (56 <=? Z.of_nat (length d)) && bytes_eqb (h_magic hd) mpt_magic
  && (h_type hd =? MPT_TYPE_MPF) && negb (h_expn hd <? 0).

(** What lines 121-130 leave in [digits_per_limb], [base2_exp] and
    [start_pos], for a supported base ([bits_per_digit] is the result of
    the loop of lines 125-126 for the bases 2 and 16). *)
Definition digits_per_limb (b : Z) : Z := if b =? 10 then BASE10_EXP else 64.
Definition bits_per_digit (b : Z) : Z := if b =? 2 then 1 else 4.
Definition scaled_start (b sp : Z) : Z :=
  if b =? 10 then sp else s64 (sp * bits_per_digit b).

(** The value that line 135 stores in [s->pos]. *)
Definition open_pos (d : list byte) (b sp : Z) : Z :=
  start_limb_offset (decode_header (slice 0 56 d)) (scaled_start b sp) (digits_per_limb b).

(** The reader and the process state that a successful open leaves. *)
Definition opened_reader (w : World) (d : list byte) (b sp : Z) : MPTReader :=
  mkReader (w_next w) (Some (mkFILE (S (w_next w)) d 56 (w_maxoff w)))
           (decode_header (slice 0 56 d)) b
           (Some (mkBuf (S (S (w_next w))) [])) 0 0
           (open_pos d b sp)
           (Z.rem (scaled_start b sp) (digits_per_limb b))
           (if b =? 10 then 0 else bits_per_digit b)
           (if b =? 10 then 0 else Z.shiftl 1 (bits_per_digit b) - 1)
           0 0 (repeat 0 19).

Definition opened_world (w : World) : World :=
  mkWorld (w_fs w) (S (S (S (w_next w))))
          (S (S (w_next w)) :: w_next w :: w_blocks w)
          (S (w_next w) :: w_files w)
          (EvRead (S (w_next w)) 0 56 :: w_reads w)
          (w_maxoff w).

(** The process state after an open that failed once [n] identities
    were handed out: the struct (and the handle, and the buffer) are
    released again, [reads] are the reads it issued. *)
Definition failed_world (w : World) (n : nat) (reads : list io_event) : World :=
  mkWorld (w_fs w) (n + w_next w)
          (remove_nat (w_next w) (remove_nat (S (S (w_next w))) (w_blocks w)))
          (remove_nat (S (w_next w)) (w_files w))
          (reads ++ w_reads w)
          (w_maxoff w).


(** Positions are counted in units of [cur_digit]: decimal digits in
    base 10, bits otherwise.  A digit takes [unit_step] units. *)
Definition unit_step (b : Z) : Z := if b =? 10 then 1 else bits_per_digit b.

(** A start position that is a digit index, and whose scaling at line
    129 stays within [int64_t]. *)
Definition start_in_range (b sp : Z) : Prop :=
  0 <= sp /\ sp * unit_step b < 2 ^ 63.

(** The limb offset of a start position as the specification writes it:
    [storedLength - exponent - floor(startPosition / digitsPerLimb)],
    with 19 digits per limb in base 10 and [64 / log2 base] otherwise. *)
Definition spec_digits_per_limb (b : Z) : Z :=
  if b =? 10 then 19 else 64 / bits_per_digit b.

Definition spec_limb_offset (hd : mpt_disk_header_t) (b sp : Z) : Z :=
  h_len hd - h_expn hd - sp / spec_digits_per_limb b.

(** ** Refilling *)

(** The stream after the [fseeko] of line 152. *)
Definition fill_seek (s : MPTReader) (F : FILE) : FILE :=
  let len := min_int64 (pos s) MPT_MAX_BUF_LEN in
  let off := s64 (u64 (MPT_DISK_HEADER_SIZE + u64 (s64 (pos s - len) * sizeof_uint64))) in
  if seek_ok F off then mkFILE (fd F) (fdata F) off (fmax F) else F.

(** The bytes that the [fread] of line 153 delivers. *)
Definition fill_bytes (s : MPTReader) (F : FILE) : list byte :=
  let len := min_int64 (pos s) MPT_MAX_BUF_LEN in
  let F1 := fill_seek s F in
  slice (Z.to_nat (fpos F1)) (Z.to_nat (u64 (len * sizeof_uint64))) (fdata F1).

(** The reader after a refill that read all it asked for. *)
Definition fill_result (s : MPTReader) (F : FILE) (b : buffer) : MPTReader :=
  let len := min_int64 (pos s) MPT_MAX_BUF_LEN in
  let F1 := fill_seek s F in
  let bs := fill_bytes s F in
  mkReader (self s)
           (Some (mkFILE (fd F1) (fdata F1) (fpos F1 + Z.of_nat (length bs)) (fmax F1)))
           (h s) (base s)
           (Some (mkBuf (b_addr b)
                        (limbs_of_bytes (Z.to_nat len) bs ++ skipn (Z.to_nat len) (b_data b))))
           len len (s64 (pos s - len))
           (start_digit s) (base2_exp s) (base2_mask s)
           (cur_digit s) (cur_limb2 s) (cur_limb10 s).

(** The process state with one more read in its log. *)
Definition log_read (w : World) (e : io_event) : World :=
  mkWorld (w_fs w) (w_next w) (w_blocks w) (w_files w) (e :: w_reads w) (w_maxoff w).


(** ** Extracting digits *)

(** Width of a limb and of a digit in the unit in which [cur_digit] and
    [start_digit] count: decimal digits in base 10, bits otherwise. *)
Definition limb_width (s : MPTReader) : Z := if base s =? 10 then BASE10_EXP else 64.
Definition digit_step (s : MPTReader) : Z := if base s =? 10 then 1 else base2_exp s.

(** Lines 171-179 and 189-192: take the next limb [a] of the buffer. *)
Definition load_limb (s : MPTReader) (a : Z) : MPTReader :=
  let s := set_buf_pos (buf_pos s - 1) s in
  let s := if base s =? 10
           then set_cur_limb10 (extract_base10 (Z.to_nat BASE10_EXP) a) s
           else set_cur_limb2 a s in
  let s := set_cur_digit (limb_width s - start_digit s) s in
  set_start_digit 0 s.

(** Lines 181 and 194: step down to the next digit of the limb. *)
Definition take_digit (s : MPTReader) : MPTReader :=
  set_cur_digit (cur_digit s - digit_step s) s.

(** The digit that lines 182 and 195 return. *)
Definition emitted (s : MPTReader) : Z :=
  if base s =? 10
  then nth (Z.to_nat (cur_digit s)) (cur_limb10 s) 0
  else Z.land (Z.shiftr (cur_limb2 s) (cur_digit s)) (base2_mask s).

(** Lines 181-182 and 194-195. *)
Definition emit (s : MPTReader) : M (Z * MPTReader) :=
  let s := set_cur_digit (cur_digit s - digit_step s) s in
  if (0 <=? cur_digit s) && (cur_digit s <? limb_width s)
  then ret (emitted s, s)
  else fault.

(** [mpt_reader_get_digit] with its two branches, which differ in the
    width of a limb and of a digit only, written as one;
    [get_digit_merged_eq] below proves it equal to the function of the
    source. *)
Definition get_digit_merged (s : MPTReader) : M (Z * MPTReader) :=
  deref (self s) ;;;
  if cur_digit s =? 0 then
    ' (rc, s) <- (if buf_pos s =? 0 then mpt_reader_fill s else ret (0, s)) ;;
    if negb (rc =? 0) then ret (-1, s)
    else
      a <- buf_get (set_buf_pos (buf_pos s - 1) s) (buf_pos s - 1) ;;
      emit (load_limb s a)
  else emit s.

(** The limb [s->buf[i]], when the buffer holds one there. *)
Definition buf_limb (s : MPTReader) (i : Z) : option Z :=
  match buf s with
  | Some b => if i <? 0 then None else nth_error (b_data b) (Z.to_nat i)
  | None => None
  end.

(** The limb that the digit cursor is decomposing. *)
Definition current_limb (s : MPTReader) (a : Z) : Prop :=
  if base s =? 10
  then cur_limb10 s = extract_base10 (Z.to_nat BASE10_EXP) a
  else cur_limb2 s = a.

(** The number that a little-endian array of decimal digits denotes:
    the sum of [ds[i] * 10^i]. *)
Fixpoint digits_value (ds : list Z) : Z :=
  match ds with
  | [] => 0
  | d :: ds' => d + 10 * digits_value ds'
  end.

(** The last [n] elements of a sequence. *)
Definition last_digits (n : nat) (ds : list Z) : list Z :=
  skipn (length ds - n) ds.

(** ** Invariants of an opened reader *)

(** The base and what lines 124-128 derive from it. *)
Definition base_config (s : MPTReader) : Prop :=
  base s = 10 \/
  (base s = 2 /\ base2_exp s = 1 /\ base2_mask s = 1) \/
  (base s = 16 /\ base2_exp s = 4 /\ base2_mask s = 15).

(** [0 <= cursor <= length <= capacity] *)
Definition buffer_inv (s : MPTReader) : Prop :=
  0 <= buf_pos s /\ buf_pos s <= buf_len s /\ buf_len s <= MPT_MAX_BUF_LEN.

Definition reader_ok (s : MPTReader) : Prop :=
  base_config s /\ buffer_inv s /\ 0 <= pos s < 2 ^ 63 /\ 0 <= cur_digit s /\
  Forall (fun d => 0 <= d <= 9) (cur_limb10 s).

(** What the reader can go through after the open: any sequence of calls
    of [mpt_reader_fill], [mpt_reader_get_digit] and [mpt_reader_getc]
    that return. *)
Inductive run : MPTReader -> World -> MPTReader -> World -> Prop :=
| run_here s w : run s w s w
| run_fill s w s1 w1 rc s2 w2 :
    run s w s1 w1 -> mpt_reader_fill s1 w1 = Ok (rc, s2, w2) -> run s w s2 w2
| run_get_digit s w s1 w1 c s2 w2 :
    run s w s1 w1 -> mpt_reader_get_digit s1 w1 = Ok (c, s2, w2) -> run s w s2 w2
| run_getc s w s1 w1 c s2 w2 :
    run s w s1 w1 -> mpt_reader_getc s1 w1 = Ok (c, s2, w2) -> run s w s2 w2.

(** The struct, the stream and the buffer block stay the same, and so
    do the live blocks and open handles of the process. *)
Definition same_resources (s0 s : MPTReader) (w0 w : World) : Prop :=
  self s = self s0 /\ h s = h s0 /\
  option_map fd (f s) = option_map fd (f s0) /\
  option_map fdata (f s) = option_map fdata (f s0) /\
  option_map b_addr (buf s) = option_map b_addr (buf s0) /\
  w_fs w = w_fs w0 /\ w_next w = w_next w0 /\
  w_blocks w = w_blocks w0 /\ w_files w = w_files w0.


(** Nothing is left: no digit of a limb, no limb in the buffer, no limb
    in the file. *)
Definition at_eof (s : MPTReader) : Prop :=
  cur_digit s = 0 /\ buf_pos s = 0 /\ pos s = 0.

(** An upper bound of the digits that the reader can still deliver. *)
Definition digits_left_bound (s : MPTReader) : Z :=
  64 * (pos s + buf_pos s) + cur_digit s.

(** ** The digits of a file, position by position *)

(** A file that holds what its header declares: the header parses, the
    integer part lies within the stored limbs, the body holds all
    [len] limbs, and the size of the file fits [off_t]. *)
Definition valid_file (d : list byte) : Prop :=
  let hd := decode_header (slice 0 56 d) in
  header_parses d = true /\
  h_expn hd <= h_len hd /\
  MPT_DISK_HEADER_SIZE + 8 * h_len hd <= Z.of_nat (length d) /\
  Z.of_nat (length d) < 2 ^ 63.

(** Limb [i] of the body. *)
Definition file_limb (d : list byte) (i : Z) : Z :=
  le_combine (slice (Z.to_nat (MPT_DISK_HEADER_SIZE + 8 * i)) 8 d).

(** The limb index just above the first fractional limb:
    [storedLength - exponent]. *)
Definition frac_limbs (d : list byte) : Z :=
  let hd := decode_header (slice 0 56 d) in h_len hd - h_expn hd.

(** The units of the whole fraction: [digits_per_limb] for each limb. *)
Definition total_units (d : list byte) (b : Z) : Z := digits_per_limb b * frac_limbs d.

(** The digit that starts at unit [q], counted from the most significant
    end of limb [frac_limbs - 1] downward through the file. *)
Definition unit_digit (d : list byte) (b q : Z) : Z :=
  let a := file_limb d (frac_limbs d - 1 - q / digits_per_limb b) in
  let r := q mod digits_per_limb b in
  if b =? 10
  then (a / 10 ^ (BASE10_EXP - 1 - r)) mod 10
  else Z.land (Z.shiftr a (64 - r - bits_per_digit b)) (Z.shiftl 1 (bits_per_digit b) - 1).

(** The first [n] digits from unit [q] on, fewer when the data ends. *)
Fixpoint stream_spec (d : list byte) (b : Z) (n : nat) (q : Z) : list Z :=
  match n with
  | O => []
  | S n' =>
      if q <? total_units d b
      then unit_digit d b q :: stream_spec d b n' (q + unit_step b)
      else []
  end.

(** The reader [s], in the process state [w], stands at unit [q] of the
    file [d] read in base [b]. *)
Record stream_at (d : list byte) (b : Z) (s : MPTReader) (w : World) (q : Z) : Prop :=
  mkStreamAt {
    at_base : base s = b /\ supported_base b = true /\
              (b <> 10 -> base2_exp s = bits_per_digit b /\
                          base2_mask s = Z.shiftl 1 (bits_per_digit b) - 1);
    at_header : h s = decode_header (slice 0 56 d);
    at_live : mem_nat (self s) (w_blocks w) = true;
    at_file : exists F, f s = Some F /\ fdata F = d /\ mem_nat (fd F) (w_files w) = true;
    at_buf : exists bf, buf s = Some bf;
    at_bounds : 0 <= buf_pos s <= buf_len s /\ buf_len s <= MPT_MAX_BUF_LEN /\
                0 <= pos s /\ pos s + buf_len s <= h_len (h s);
    at_limbs : forall i, 0 <= i < buf_len s ->
                         buf_limb s i = Some (file_limb d (pos s + i));
    at_start : 0 <= start_digit s < digits_per_limb b /\
               (unit_step b | start_digit s);
    at_cur : 0 <= cur_digit s <= digits_per_limb b /\ (unit_step b | cur_digit s);
    at_limb : 0 < cur_digit s ->
              start_digit s = 0 /\ current_limb s (file_limb d (pos s + buf_pos s));
    at_q : q = digits_per_limb b * (frac_limbs d - (pos s + buf_pos s))
               + start_digit s - cur_digit s
  }.

(** ** Files and states of the examples *)



Definition pi_world : World := world_with "pi" pi_file.
Definition pi_reader : MPTReader := opened_reader pi_world pi_file 10 0.

(** A file of two limbs; the limb stored last holds the leading
    digits. *)
Definition two_limb_file : list byte :=
  make_file mpt_magic 2 MPT_TYPE_MPF 0 [2643383279502884197; 3141592653589793238].
Definition two_limb_world : World := world_with "pi2" two_limb_file.
Definition two_limb_reader : MPTReader := opened_reader two_limb_world two_limb_file 10 0.

(** What [n] pulls return (nothing, and the arguments, when they do not
    return). *)
Definition pull_result (n : nat) (s : MPTReader) (w : World) : list Z * MPTReader * World :=
  match read_digits n s w with
  | Ok r => r
  | _ => ([], s, w)
  end.

(** The process after a stream over the one-limb file, opened at
    position 3, delivered 9 digits. *)
Definition pi_world_after_9 : World :=
  snd (pull_result 9 (opened_reader pi_world pi_file 10 3) (opened_world pi_world)).

(** The two-limb stream after 20 digits: one digit into its second
    limb. *)
Definition after_20 : MPTReader := snd (fst (pull_result 20 two_limb_reader
                                              (opened_world two_limb_world))).
Definition world_after_20 : World := snd (pull_result 20 two_limb_reader
                                            (opened_world two_limb_world)).

(** A file whose header declares two limbs and whose body holds one. *)
Definition truncated_file : list byte :=
  make_file mpt_magic 2 MPT_TYPE_MPF 0 [3141592653589793238].
Definition truncated_world : World := world_with "t" truncated_file.
Definition truncated_reader : MPTReader := opened_reader truncated_world truncated_file 10 0.
Definition truncated_stream : FILE := mkFILE 1 truncated_file 56 max_off_t.

(** The reader and the process state that a call leaves (the arguments
    themselves when the call does not return). *)
Definition state_after (r : result (Z * MPTReader * World)) (s : MPTReader) (w : World)
  : MPTReader * World :=
  match r with
  | Ok (_, s', w') => (s', w')
  | _ => (s, w)
  end.

(** ** Digits by their index, characters, grouping *)

(** The digits of the fraction that a file holds in base [b]:
    [spec_digits_per_limb b] for each fractional limb. *)
Definition avail_digits (d : list byte) (b : Z) : Z :=
  spec_digits_per_limb b * frac_limbs d.

(** Digit [P] of the number, counted from the most significant digit of
    the fraction: place [P mod D] (from the top) of limb
    [frac_limbs - 1 - P / D], where [D] is the number of digits of a
    limb, each limb being read as a number of [D] digits in base [b]. *)
Definition number_digit (d : list byte) (b P : Z) : Z :=
  let D := spec_digits_per_limb b in
  (file_limb d (frac_limbs d - 1 - P / D) / b ^ (D - 1 - P mod D)) mod b.

(** The digits [P], [P + 1], ..., [P + m - 1]. *)
Definition digits_from (d : list byte) (b P : Z) (m : nat) : list Z :=
  map (fun i => number_digit d b (P + Z.of_nat i)) (seq 0 m).

(** How many of [n] requested digits a stream at digit [P] delivers. *)
Definition delivered (d : list byte) (b P : Z) (n : nat) : nat :=
  Z.to_nat (Z.min (Z.of_nat n) (avail_digits d b - P)).

(** The number that digits denote in base [b], most significant digit
    first. *)
Definition digits_number (b : Z) (ds : list Z) : Z :=
  fold_left (fun acc x => acc * b + x) ds 0.

(** The characters that the loop of [dump_digits] can print: the blank,
    '0'..'9', 'A'..'F'. *)
Definition dump_char (c : Z) : Prop := c = 32 \/ 48 <= c <= 57 \/ 65 <= c <= 70.

(** The character of a digit (lines 205-208), and the digit of a
    character of ['0'..'9'] or ['A'..'F'] (-1 for any other). *)
Definition digit_char (x : Z) : Z := if x <? 10 then x + 48 else x + 55.

Definition hex_value (c : Z) : Z :=
  if (48 <=? c) && (c <=? 57) then c - 48
  else if (65 <=? c) && (c <=? 70) then c - 55
  else -1.

(** The output for the characters [cs] of a request of [n] digits,
    written from the index [i] on: each character, and a space after
    every tenth index except the last one of the request. *)
Fixpoint grouped (n i : Z) (cs : list Z) : list Z :=
  match cs with
  | [] => []
  | c :: cs' =>
      c :: (if (i mod 10 =? 9) && negb (i =? n - 1) then [32] else [])
        ++ grouped n (i + 1) cs'
  end.

(** The bytes of the [type] field of a header that is accepted:
    [MPT_TYPE_MPF] as a little-endian [uint64_t]. *)
Definition mpf_type_bytes : list byte :=
  [Byte.x02; Byte.x00; Byte.x00; Byte.x00; Byte.x00; Byte.x00; Byte.x00; Byte.x00].

(** A file of two fractional limbs and one limb of integer part. *)
Definition mixed_file : list byte :=
  make_file mpt_magic 3 MPT_TYPE_MPF 1
            [2643383279502884197; 3141592653589793238; 3].
Definition mixed_world : World := world_with "m" mixed_file.

(** The start positions whose scaling at line 129, [start_pos *=
    s->base2_exp], stays within [int64_t] (in base 10, where nothing is
    scaled: the values of [int64_t]).  C leaves the overflow of this
    signed multiplication undefined; the embedding writes the wrap-around
    of the compiled code, and the results that speak of the absence of
    undefined behaviour are stated for the start positions that fit. *)
Definition scaling_fits (b sp : Z) : Prop :=
  - 2 ^ 63 <= sp * unit_step b < 2 ^ 63.

(** The offset of the seek of a refill at the limb offset [p] (line
    152, when it fits [off_t]), and the offsets that [fseeko] accepts on
    a stream over the file [d]. *)
Definition refill_offset (p : Z) : Z :=
  MPT_DISK_HEADER_SIZE + 8 * (p - Z.min p MPT_MAX_BUF_LEN).

Definition seek_accepted (w : World) (d : list byte) (off : Z) : Prop :=
  0 <= off <= Z.max (w_maxoff w) (Z.of_nat (length d)).

(** The process after a second stream over the two-limb file, in base
    16, was opened and closed while the first one stood after its 20th
    digit. *)
Definition world_after_other : World :=
  match mpt_reader_close (opened_reader world_after_20 two_limb_file 16 0)
                         (opened_world world_after_20) with
  | Ok (_, w) => w
  | _ => world_after_20
  end.

(* ================================================================== *)
(** * Properties *)

Arguments slice : simpl never.
Arguments decode_header : simpl never.
Arguments start_limb_offset : simpl never.
Arguments u64 : simpl never.
Arguments s64 : simpl never.
Arguments limbs_of_bytes : simpl never.
Arguments extract_base10 : simpl never.

(** ** Machine integers *)

Lemma u64_id (z : Z) : 0 <= z < 2 ^ 64 -> u64 z = z.
Proof. intros Hz. unfold u64. apply Z.mod_small. exact Hz. Qed.

Lemma s64_id (z : Z) : - 2 ^ 63 <= z < 2 ^ 63 -> s64 z = z.
Proof. intros Hz. unfold s64. rewrite Z.mod_small; lia. Qed.

Lemma s64_range (z : Z) : - 2 ^ 63 <= s64 z < 2 ^ 63.
Proof.
  unfold s64. pose proof (Z.mod_pos_bound (z + 2 ^ 63) (2 ^ 64) ltac:(lia)). lia.
Qed.

Lemma s64_u64 (z : Z) : s64 (u64 z) = s64 z.
Proof. unfold s64, u64. now rewrite Zplus_mod_idemp_l. Qed.

Lemma u64_sub_l (a b : Z) : u64 (u64 a - b) = u64 (a - b).
Proof. unfold u64. now rewrite Zminus_mod_idemp_l. Qed.

Lemma u64_sub_r (a b : Z) : u64 (a - u64 b) = u64 (a - b).
Proof. unfold u64. now rewrite Zminus_mod_idemp_r. Qed.

(** Line 135 computes [len - expn - start_pos / digits_per_limb] up to its
    reduction to 64 bits. *)
Lemma start_limb_offset_s64 (hd : mpt_disk_header_t) (sp dpl : Z) :
  start_limb_offset hd sp dpl = s64 (h_len hd - h_expn hd - Z.quot sp dpl).
Proof.
  unfold start_limb_offset.
  rewrite u64_sub_r, u64_sub_l.
  replace (h_len hd - u64 (h_expn hd) - Z.quot sp dpl)
    with (h_len hd - Z.quot sp dpl - u64 (h_expn hd)) by ring.
  rewrite u64_sub_r, s64_u64. f_equal. ring.
Qed.

Lemma min_int64_min (a b : Z) : min_int64 a b = Z.min a b.
Proof. unfold min_int64. destruct (Z.ltb_spec a b); lia. Qed.

(** ** Live blocks and handles *)

Lemma mem_nat_In (x : nat) (l : list nat) : mem_nat x l = true <-> In x l.
Proof.
  unfold mem_nat. rewrite existsb_exists. split.
  - intros [y [Hy Heq]]. apply Nat.eqb_eq in Heq. now subst.
  - intros Hx. exists x. split; [exact Hx | apply Nat.eqb_refl].
Qed.

Lemma mem_nat_head (x : nat) (l : list nat) : mem_nat x (x :: l) = true.
Proof. apply mem_nat_In. now left. Qed.

Lemma mem_nat_tail (x y : nat) (l : list nat) :
  mem_nat x l = true -> mem_nat x (y :: l) = true.
Proof. rewrite !mem_nat_In. now right. Qed.

Lemma remove_nat_head (x : nat) (l : list nat) :
  remove_nat x (x :: l) = remove_nat x l.
Proof. unfold remove_nat. simpl. now rewrite Nat.eqb_refl. Qed.

Lemma remove_nat_other (x y : nat) (l : list nat) :
  x <> y -> remove_nat x (y :: l) = y :: remove_nat x l.
Proof.
  intros Hxy. unfold remove_nat. simpl.
  destruct (Nat.eqb_spec x y); [contradiction | reflexivity].
Qed.

Lemma remove_nat_absent (x : nat) (l : list nat) :
  ~ In x l -> remove_nat x l = l.
Proof.
  induction l as [|y l IH]; intros Hx; [reflexivity|].
  rewrite remove_nat_other.
  - f_equal. apply IH. intros Hin. apply Hx. now right.
  - intros ->. apply Hx. now left.
Qed.

(** ** Opening *)

Lemma base_check (b : Z) :
  negb (b =? 10) && negb (b =? 2) && negb (b =? 16) = negb (supported_base b).
Proof. unfold supported_base. now rewrite !negb_orb. Qed.

Lemma length_slice_full (off n : nat) (bs : list byte) :
  (off + n <= length bs)%nat -> length (slice off n bs) = n.
Proof. intros Hl. unfold slice. rewrite length_firstn, length_skipn. lia. Qed.

Lemma length_slice_le (off n : nat) (bs : list byte) :
  (length (slice off n bs) <= n)%nat.
Proof. unfold slice. rewrite length_firstn. lia. Qed.

Lemma length_slice_short (off n : nat) (bs : list byte) :
  (0 < n)%nat -> (length bs < off + n)%nat -> (length (slice off n bs) < n)%nat.
Proof. intros Hn Hl. unfold slice. rewrite length_firstn, length_skipn. lia. Qed.

Lemma header_read_length (d : list byte) :
  (Z.of_nat (length (slice 0 56 d)) =? sizeof_header) = (56 <=? Z.of_nat (length d)).
Proof.
  unfold sizeof_header.
  destruct (Z.leb_spec 56 (Z.of_nat (length d))) as [Hl | Hl].
  - rewrite length_slice_full by lia. reflexivity.
  - pose proof (length_slice_short 0 56 d ltac:(lia) ltac:(lia)). apply Z.eqb_neq. lia.
Qed.

Lemma base2_exp_of_supported (b : Z) :
  supported_base b = true -> (b =? 10) = false ->
  base2_exp_loop 30 1 b = Some (bits_per_digit b).
Proof.
  unfold supported_base, bits_per_digit. intros Hs H10. rewrite H10 in Hs. simpl in Hs.
  apply orb_true_iff in Hs as [H | H]; apply Z.eqb_eq in H; subst b; reflexivity.
Qed.

(** A successful open. *)
Lemma open_stream (w : World) (name : string) (d : list byte) (b sp : Z) :
  supported_base b = true ->
  w_fs w name = Some d ->
  header_parses d = true ->
  0 < open_pos d b sp ->
  mpt_reader_open name b sp w = Ok (Stream (opened_reader w d b sp), opened_world w).
Proof.
  intros Hb Hfs Hh Hpos.
  unfold header_parses in Hh.
  apply andb_true_iff in Hh as [Hh Hexpn].
  apply andb_true_iff in Hh as [Hh Htype].
  apply andb_true_iff in Hh as [Hlen Hmagic].
  apply negb_true_iff in Hexpn.
  unfold mpt_reader_open. rewrite base_check, Hb. cbn [negb].
  unfold bind at 1. cbn [malloc].
  unfold bind at 1. unfold fopen. cbn [w_fs w_next w_blocks w_files w_reads]. rewrite Hfs.
  unfold bind at 1. unfold fread.
  cbn [fd fdata fpos w_fs w_next w_blocks w_files w_reads].
  rewrite mem_nat_head. change (Z.to_nat 0) with 0%nat.
  change (Z.to_nat sizeof_header) with 56%nat.
  rewrite header_read_length, Hlen. cbn [negb].
  cbn [h set_h set_f zero_reader].
  rewrite Hmagic, Htype, Hexpn. cbn [negb].
  assert (Hlen56 : Z.of_nat (length (slice 0 56 d)) = 56).
  { apply Z.leb_le in Hlen. rewrite length_slice_full by lia. reflexivity. }
  rewrite Hlen56.
  unfold open_pos, opened_reader, open_pos, scaled_start, digits_per_limb in *.
  destruct (b =? 10) eqn:H10.
  - unfold bind, ret, malloc.
    cbn -[Z.rem].
    destruct (Z.leb_spec (start_limb_offset (decode_header (slice 0 56 d)) sp BASE10_EXP) 0);
      [lia | reflexivity].
  - rewrite (base2_exp_of_supported b Hb H10).
    unfold bind, ret, malloc.
    cbn -[Z.rem Z.shiftl].
    destruct (Z.leb_spec (start_limb_offset (decode_header (slice 0 56 d))
                            (s64 (sp * bits_per_digit b)) 64) 0);
      [lia | reflexivity].
Qed.

(** Symbolic evaluation of the resource bookkeeping. *)
Ltac world_simpl :=
  repeat (progress (
    cbn [self f h base buf buf_pos buf_len pos start_digit base2_exp base2_mask
         cur_digit cur_limb2 cur_limb10
         set_f set_h set_base set_buf set_buf_pos set_buf_len set_pos set_start_digit
         set_base2_exp set_base2_mask set_cur_digit set_cur_limb2 set_cur_limb10
         zero_reader fd fdata fpos fmax b_addr b_data option_map
         w_fs w_next w_blocks w_files w_reads w_maxoff];
    rewrite ?mem_nat_head, ?remove_nat_head)).

Lemma failed_world_resources (w : World) (n : nat) (reads : list io_event) :
  world_ok w ->
  w_blocks (failed_world w n reads) = w_blocks w /\
  w_files (failed_world w n reads) = w_files w.
Proof.
  intros Hok. unfold failed_world. cbn [w_blocks w_files].
  assert (Hfresh : forall k x, In x (w_blocks w) \/ In x (w_files w) -> x <> (k + w_next w)%nat).
  { intros k x Hx. specialize (Hok x Hx). lia. }
  split.
  - rewrite (remove_nat_absent (S (S (w_next w)))).
    + apply remove_nat_absent. intros Hin. now apply (Hfresh 0%nat (w_next w) (or_introl Hin)).
    + intros Hin. now apply (Hfresh 2%nat _ (or_introl Hin)).
  - apply remove_nat_absent. intros Hin. now apply (Hfresh 1%nat _ (or_intror Hin)).
Qed.

Lemma open_unsupported (w : World) (name : string) (b sp : Z) :
  supported_base b = false ->
  mpt_reader_open name b sp w = Ok (Null UnsupportedBaseError, w).
Proof.
  intros Hb. unfold mpt_reader_open. rewrite base_check, Hb. reflexivity.
Qed.

Lemma remove_nat_comm (x y : nat) (l : list nat) :
  remove_nat x (remove_nat y l) = remove_nat y (remove_nat x l).
Proof.
  induction l as [|z l IH]; [reflexivity|].
  unfold remove_nat in *. simpl.
  destruct (Nat.eqb y z) eqn:Hy, (Nat.eqb x z) eqn:Hx; simpl;
    rewrite ?Hx, ?Hy; simpl; rewrite ?IH; reflexivity.
Qed.

Lemma open_missing (w : World) (name : string) (b sp : Z) :
  supported_base b = true ->
  w_fs w name = None ->
  exists w', mpt_reader_open name b sp w = Ok (Null IoError, w') /\
             w_fs w' = w_fs w /\ w_reads w' = w_reads w /\
             (world_ok w -> w_blocks w' = w_blocks w /\ w_files w' = w_files w).
Proof.
  intros Hb Hfs.
  unfold mpt_reader_open. rewrite base_check, Hb. cbn [negb].
  unfold bind at 1. cbn [malloc].
  unfold bind at 1. unfold fopen. cbn [w_fs w_next w_blocks w_files w_reads]. rewrite Hfs.
  unfold open_fail, mpt_reader_close, bind, deref, free, ret.
  cbn [set_f zero_reader]. world_simpl.
  eexists. split; [reflexivity|].
  world_simpl.
  repeat split; try reflexivity.
  apply remove_nat_absent.
  intros Hin. specialize (H _ (or_introl Hin)). lia.
Qed.

(** Closing the struct of an open that fails after the header was read
    (no buffer yet). *)
Lemma close_after_header (w : World) (s0 : MPTReader) (F : FILE) (why : open_error)
      (reads : list io_event) :
  self s0 = w_next w -> f s0 = Some F -> fd F = S (w_next w) -> buf s0 = None ->
  open_fail s0 why
            (mkWorld (w_fs w) (S (S (w_next w))) (w_next w :: w_blocks w)
                     (S (w_next w) :: w_files w) reads (w_maxoff w))
  = Ok (Null why,
        mkWorld (w_fs w) (S (S (w_next w))) (remove_nat (w_next w) (w_blocks w))
                (remove_nat (S (w_next w)) (w_files w)) reads (w_maxoff w)).
Proof.
  intros Hself Hf Hfd Hbuf.
  unfold open_fail, mpt_reader_close, bind, deref, fclose, free, ret.
  rewrite Hself, Hf, Hfd, Hbuf. world_simpl. reflexivity.
Qed.

Lemma open_bad_header (w : World) (name : string) (d : list byte) (b sp : Z) :
  supported_base b = true ->
  w_fs w name = Some d ->
  header_parses d = false ->
  exists w', mpt_reader_open name b sp w = Ok (Null FormatError, w') /\
             w_fs w' = w_fs w /\
             w_reads w' = EvRead (S (w_next w)) 0 (Z.of_nat (length (slice 0 56 d)))
                            :: w_reads w /\
             (world_ok w -> w_blocks w' = w_blocks w /\ w_files w' = w_files w).
Proof.
  intros Hb Hfs Hh.
  unfold mpt_reader_open. rewrite base_check, Hb. cbn [negb].
  unfold bind at 1. cbn [malloc].
  unfold bind at 1. unfold fopen. cbn [w_fs w_next w_blocks w_files w_reads]. rewrite Hfs.
  unfold bind at 1. unfold fread.
  cbn [fd fdata fpos w_fs w_next w_blocks w_files w_reads].
  rewrite mem_nat_head. change (Z.to_nat 0) with 0%nat.
  change (Z.to_nat sizeof_header) with 56%nat.
  rewrite header_read_length.
  cbn [h set_h set_f zero_reader].
  unfold header_parses in Hh.
  assert (Hres : exists w1,
    open_fail
      (set_h (decode_header (slice 0 56 d))
         (set_f (Some (mkFILE (S (w_next w)) d (0 + Z.of_nat (length (slice 0 56 d)))
                              (w_maxoff w)))
            (set_f (Some (mkFILE (S (w_next w)) d 0 (w_maxoff w))) (zero_reader (w_next w)))))
      FormatError
      (mkWorld (w_fs w) (S (S (w_next w))) (w_next w :: w_blocks w)
               (S (w_next w) :: w_files w)
               (EvRead (S (w_next w)) 0 (Z.of_nat (length (slice 0 56 d))) :: w_reads w)
               (w_maxoff w))
    = Ok (Null FormatError, w1) /\
    w_fs w1 = w_fs w /\
    w_reads w1 = EvRead (S (w_next w)) 0 (Z.of_nat (length (slice 0 56 d))) :: w_reads w /\
    (world_ok w -> w_blocks w1 = w_blocks w /\ w_files w1 = w_files w)).
  { eexists. split; [eapply close_after_header; reflexivity |].
    cbn [w_fs w_reads w_blocks w_files]. repeat split; try reflexivity.
    - apply remove_nat_absent. intros Hin. specialize (H _ (or_introl Hin)). lia.
    - apply remove_nat_absent. intros Hin. specialize (H _ (or_intror Hin)). lia. }
  destruct (56 <=? Z.of_nat (length d)); cbn [negb andb] in *; [| exact Hres].
  destruct (bytes_eqb _ mpt_magic); cbn [negb andb] in *; [| exact Hres].
  destruct (_ =? MPT_TYPE_MPF); cbn [negb andb] in *; [| exact Hres].
  destruct (_ <? 0); cbn [negb andb] in *; [exact Hres | discriminate].
Qed.

Lemma open_out_of_range (w : World) (name : string) (d : list byte) (b sp : Z) :
  supported_base b = true ->
  w_fs w name = Some d ->
  header_parses d = true ->
  open_pos d b sp <= 0 ->
  mpt_reader_open name b sp w
  = Ok (Null PositionOutOfRangeError, failed_world w 3 [EvRead (S (w_next w)) 0 56]).
Proof.
  intros Hb Hfs Hh Hpos.
  unfold header_parses in Hh.
  apply andb_true_iff in Hh as [Hh Hexpn].
  apply andb_true_iff in Hh as [Hh Htype].
  apply andb_true_iff in Hh as [Hlen Hmagic].
  apply negb_true_iff in Hexpn.
  unfold mpt_reader_open. rewrite base_check, Hb. cbn [negb].
  unfold bind at 1. cbn [malloc].
  unfold bind at 1. unfold fopen. cbn [w_fs w_next w_blocks w_files w_reads]. rewrite Hfs.
  unfold bind at 1. unfold fread.
  cbn [fd fdata fpos w_fs w_next w_blocks w_files w_reads].
  rewrite mem_nat_head. change (Z.to_nat 0) with 0%nat.
  change (Z.to_nat sizeof_header) with 56%nat.
  rewrite header_read_length, Hlen. cbn [negb].
  cbn [h set_h set_f zero_reader].
  rewrite Hmagic, Htype, Hexpn. cbn [negb].
  assert (Hlen56 : Z.of_nat (length (slice 0 56 d)) = 56).
  { apply Z.leb_le in Hlen. rewrite length_slice_full by lia. reflexivity. }
  rewrite Hlen56.
  assert (Hclose : forall s0 : MPTReader,
    self s0 = w_next w -> f s0 = Some (mkFILE (S (w_next w)) d (0 + 56) (w_maxoff w)) ->
    buf s0 = Some (mkBuf (S (S (w_next w))) []) ->
    open_fail s0 PositionOutOfRangeError
      (mkWorld (w_fs w) (S (S (S (w_next w))))
               (S (S (w_next w)) :: w_next w :: w_blocks w)
               (S (w_next w) :: w_files w)
               (EvRead (S (w_next w)) 0 56 :: w_reads w)
               (w_maxoff w))
    = Ok (Null PositionOutOfRangeError, failed_world w 3 [EvRead (S (w_next w)) 0 56])).
  { intros s0 Hself Hf Hbuf.
    unfold open_fail, mpt_reader_close, bind, deref, fclose, free, ret.
    rewrite Hself, Hf, Hbuf.
    world_simpl.
    rewrite mem_nat_tail by apply mem_nat_head.
    world_simpl.
    rewrite remove_nat_other by lia.
    world_simpl.
    unfold failed_world. cbn [app]. now rewrite remove_nat_comm. }
  unfold open_pos, scaled_start, digits_per_limb in Hpos.
  destruct (b =? 10) eqn:H10.
  - unfold bind at 1. unfold ret at 1. unfold bind at 1. unfold malloc.
    cbn [w_fs w_next w_blocks w_files w_reads].
    cbn [pos set_pos set_buf_pos set_buf_len set_buf set_base h set_h].
    destruct (Z.leb_spec (start_limb_offset (decode_header (slice 0 56 d)) sp BASE10_EXP) 0);
      [| lia].
    apply Hclose; reflexivity.
  - rewrite (base2_exp_of_supported b Hb H10).
    unfold bind at 1. unfold ret at 1. unfold bind at 1. unfold malloc.
    cbn [w_fs w_next w_blocks w_files w_reads].
    cbn [pos set_pos set_buf_pos set_buf_len set_buf set_base set_base2_mask set_base2_exp
         h set_h].
    destruct (Z.leb_spec (start_limb_offset (decode_header (slice 0 56 d))
                            (s64 (sp * bits_per_digit b)) 64) 0);
      [| lia].
    apply Hclose; reflexivity.
Qed.

(** Every way in which an open returns a stream. *)
Lemma open_stream_inv (w w1 : World) (name : string) (b sp : Z) (s : MPTReader) :
  mpt_reader_open name b sp w = Ok (Stream s, w1) ->
  exists d, supported_base b = true /\ w_fs w name = Some d /\
            header_parses d = true /\ 0 < open_pos d b sp /\
            s = opened_reader w d b sp /\ w1 = opened_world w.
Proof.
  intros Hopen.
  destruct (supported_base b) eqn:Hb;
    [| rewrite open_unsupported in Hopen by exact Hb; discriminate].
  destruct (w_fs w name) as [d|] eqn:Hfs.
  2:{ destruct (open_missing w name b sp Hb Hfs) as [w' [He _]]. congruence. }
  destruct (header_parses d) eqn:Hh.
  2:{ destruct (open_bad_header w name d b sp Hb Hfs Hh) as [w' [He _]]. congruence. }
  destruct (Z.ltb_spec 0 (open_pos d b sp)) as [Hp | Hp].
  - rewrite (open_stream w name d b sp Hb Hfs Hh Hp) in Hopen.
    inversion Hopen; subst. exists d. repeat split; auto.
  - rewrite (open_out_of_range w name d b sp Hb Hfs Hh Hp) in Hopen. discriminate.
Qed.

(** An open never aborts and never runs into undefined behaviour. *)
Lemma open_returns (w : World) (name : string) (b sp : Z) :
  exists r w', mpt_reader_open name b sp w = Ok (r, w').
Proof.
  destruct (supported_base b) eqn:Hb;
    [| rewrite open_unsupported by exact Hb; eauto].
  destruct (w_fs w name) as [d|] eqn:Hfs.
  2:{ destruct (open_missing w name b sp Hb Hfs) as [w' [He _]]. eauto. }
  destruct (header_parses d) eqn:Hh.
  2:{ destruct (open_bad_header w name d b sp Hb Hfs Hh) as [w' [He _]]. eauto. }
  destruct (Z.ltb_spec 0 (open_pos d b sp)) as [Hp | Hp].
  - rewrite (open_stream w name d b sp Hb Hfs Hh Hp). eauto.
  - rewrite (open_out_of_range w name d b sp Hb Hfs Hh Hp). eauto.
Qed.

Lemma supported_base_iff (b : Z) :
  supported_base b = true <-> b = 10 \/ b = 2 \/ b = 16.
Proof.
  unfold supported_base. rewrite !orb_true_iff, !Z.eqb_eq. tauto.
Qed.

Lemma scaled_quot (b sp : Z) :
  supported_base b = true -> start_in_range b sp ->
  Z.quot (scaled_start b sp) (digits_per_limb b) = sp / spec_digits_per_limb b.
Proof.
  intros Hb [Hsp0 Hsp]. apply supported_base_iff in Hb.
  unfold scaled_start, digits_per_limb, spec_digits_per_limb, bits_per_digit, BASE10_EXP.
  unfold unit_step, bits_per_digit in Hsp.
  destruct Hb as [-> | [-> | ->]]; cbn [Z.eqb Pos.eqb] in *.
  - apply Z.quot_div_nonneg; lia.
  - rewrite s64_id by lia. rewrite Z.quot_div_nonneg by lia.
    change (64 / 1) with 64. f_equal. lia.
  - rewrite s64_id by lia. rewrite Z.quot_div_nonneg by lia.
    change (64 / 4) with 16.
    replace 64 with (4 * 16) by reflexivity.
    rewrite Z.mul_comm, Z.div_mul_cancel_l by lia. reflexivity.
Qed.

(** Without wrap-around the stored offset is the offset of the
    specification. *)
Lemma open_pos_exact (d : list byte) (b sp : Z) :
  supported_base b = true -> start_in_range b sp ->
  - 2 ^ 63 <= spec_limb_offset (decode_header (slice 0 56 d)) b sp < 2 ^ 63 ->
  open_pos d b sp = spec_limb_offset (decode_header (slice 0 56 d)) b sp.
Proof.
  intros Hb Hsp Hr. unfold open_pos, spec_limb_offset in *.
  rewrite start_limb_offset_s64, scaled_quot by assumption.
  apply s64_id. exact Hr.
Qed.

(** C2, as the code has it.  The base check of [mpt_reader_open]
    (line 102) succeeds exactly for the bases 10, 2 and 16: for each of
    them the open never returns the NULL of the base check, whatever the
    file, and for every other base (4 and 8 among them) it returns that
    NULL at once, leaving the process state untouched. *)
Theorem open_base_validation (w : World) (name : string) (b sp : Z) :
  (b = 10 \/ b = 2 \/ b = 16 ->
   forall w', mpt_reader_open name b sp w <> Ok (Null UnsupportedBaseError, w')) /\
  (~ (b = 10 \/ b = 2 \/ b = 16) ->
   mpt_reader_open name b sp w = Ok (Null UnsupportedBaseError, w)).
Proof.
  split.
  - intros Hb w' Hopen. apply supported_base_iff in Hb.
    destruct (w_fs w name) as [d|] eqn:Hfs.
    2:{ destruct (open_missing w name b sp Hb Hfs) as [w1 [He _]]. congruence. }
    destruct (header_parses d) eqn:Hh.
    2:{ destruct (open_bad_header w name d b sp Hb Hfs Hh) as [w1 [He _]]. congruence. }
    destruct (Z.ltb_spec 0 (open_pos d b sp)) as [Hp | Hp].
    + rewrite (open_stream w name d b sp Hb Hfs Hh Hp) in Hopen. discriminate.
    + rewrite (open_out_of_range w name d b sp Hb Hfs Hh Hp) in Hopen. discriminate.
  - intros Hb. apply open_unsupported.
    destruct (supported_base b) eqn:Hs; [| reflexivity].
    apply supported_base_iff in Hs. contradiction.
Qed.

(** C2 as the specification states it fails: base 4 (and likewise base
    8) is in the set {10, 2, 4, 8, 16}, yet the open of a well-formed
    file in base 4 returns the NULL of the base check. *)
Lemma open_base_4_rejected :
  mpt_reader_open "pi" 4 0 (world_with "pi" pi_file)
  = Ok (Null UnsupportedBaseError, world_with "pi" pi_file) /\
  mpt_reader_open "pi" 8 0 (world_with "pi" pi_file)
  = Ok (Null UnsupportedBaseError, world_with "pi" pi_file).
Proof. split; reflexivity. Qed.




(** C5.  The file with [storedLength = 1], [exponent = 0] and the single
    limb 3141592653589793238, opened in base 10 at start position 0:
    five calls of [mpt_reader_getc] return the characters of "31415",
    most significant digit first. *)
Theorem pi_first_five_digits :
  h_len (decode_header (slice 0 56 pi_file)) = 1 /\
  h_expn (decode_header (slice 0 56 pi_file)) = 0 /\
  file_limb pi_file 0 = 3141592653589793238 /\
  exists s w s' w',
    mpt_reader_open "pi" 10 0 pi_world = Ok (Stream s, w) /\
    read_chars 5 s w = Ok ([51; 49; 52; 49; 53], s', w') /\
    text_of [51; 49; 52; 49; 53] = "31415"%string.
Proof.
  split; [reflexivity |]. split; [reflexivity |]. split; [vm_compute; reflexivity |].
  exists pi_reader, (opened_world pi_world).
  destruct (read_chars 5 pi_reader (opened_world pi_world))
    as [[[cs s'] w'] | |] eqn:Hread.
  - exists s', w'.
    split; [apply open_stream; reflexivity |].
    split; [| reflexivity].
    assert (Hcs : match read_chars 5 pi_reader (opened_world pi_world) with
                  | Ok (cs, _, _) => cs
                  | _ => []
                  end = [51; 49; 52; 49; 53]) by (vm_compute; reflexivity).
    rewrite Hread in Hcs. now subst cs.
  - exfalso. revert Hread. vm_compute. discriminate.
  - exfalso. revert Hread. vm_compute. discriminate.
Qed.

(** ** Decimal digits of a limb *)

Lemma extract_base10_length (n : nat) (a : Z) : length (extract_base10 n a) = n.
Proof.
  revert a. induction n as [|n IH]; intros a; [reflexivity|].
  change (extract_base10 (S n) a) with (a mod 10 :: extract_base10 n (a / 10)).
  cbn [length]. now rewrite IH.
Qed.

Lemma extract_base10_range (n : nat) (a : Z) :
  Forall (fun d => 0 <= d <= 9) (extract_base10 n a).
Proof.
  revert a. induction n as [|n IH]; intros a.
  - constructor.
  - change (extract_base10 (S n) a) with (a mod 10 :: extract_base10 n (a / 10)).
    constructor; [| apply IH].
    pose proof (Z.mod_pos_bound a 10 ltac:(lia)). lia.
Qed.

Lemma extract_base10_value (n : nat) (a : Z) :
  digits_value (extract_base10 n a) = a mod 10 ^ Z.of_nat n.
Proof.
  revert a. induction n as [|n IH]; intros a.
  - change (10 ^ Z.of_nat 0) with 1. now rewrite Z.mod_1_r.
  - change (extract_base10 (S n) a) with (a mod 10 :: extract_base10 n (a / 10)).
    cbn [digits_value]. rewrite IH, Nat2Z.inj_succ, Z.pow_succ_r by lia.
    rewrite Z.rem_mul_r; [reflexivity | lia | apply Z.pow_pos_nonneg; lia].
Qed.

Lemma extract_base10_nth (n : nat) (a : Z) (i : nat) :
  (i < n)%nat -> nth i (extract_base10 n a) 0 = (a / 10 ^ Z.of_nat i) mod 10.
Proof.
  revert a i. induction n as [|n IH]; intros a i Hi; [lia|].
  change (extract_base10 (S n) a) with (a mod 10 :: extract_base10 n (a / 10)).
  destruct i as [|i].
  - cbn [nth]. change (10 ^ Z.of_nat 0) with 1. now rewrite Z.div_1_r.
  - cbn [nth]. rewrite IH by lia.
    rewrite Nat2Z.inj_succ, Z.pow_succ_r by lia.
    rewrite Z.div_div by (try lia; apply Z.pow_pos_nonneg; lia). reflexivity.
Qed.

(** C3, as the code has it.  The loop of lines 174-177 leaves in the
    19 entries of [cur_limb10] the 19 low decimal digits of the limb:
    they denote [a mod 10^19].  For a limb below [10^19], the range of a
    limb of a base-10 file, that is the limb itself and no digit is
    lost. *)
Theorem base10_limb_digits (a : Z) :
  0 <= a < 2 ^ 64 ->
  let decodedDigits := extract_base10 (Z.to_nat BASE10_EXP) a in
  length decodedDigits = 19%nat /\
  Forall (fun d => 0 <= d <= 9) decodedDigits /\
  digits_value decodedDigits = a mod 10 ^ 19 /\
  (a < 10 ^ 19 -> digits_value decodedDigits = a).
Proof.
  intros Ha decodedDigits. subst decodedDigits.
  change (Z.to_nat BASE10_EXP) with 19%nat.
  split; [apply extract_base10_length |].
  split; [apply extract_base10_range |].
  assert (Hv : digits_value (extract_base10 19 a) = a mod 10 ^ 19)
    by apply (extract_base10_value 19 a).
  split; [exact Hv |].
  intros Hsmall. rewrite Hv. apply Z.mod_small. lia.
Qed.

Lemma base10_limb_digits_witness :
  let decodedDigits := extract_base10 (Z.to_nat BASE10_EXP) 3141592653589793238 in
  length decodedDigits = 19%nat /\
  Forall (fun d => 0 <= d <= 9) decodedDigits /\
  digits_value decodedDigits = 3141592653589793238 mod 10 ^ 19 /\
  (3141592653589793238 < 10 ^ 19 -> digits_value decodedDigits = 3141592653589793238).
Proof. apply (base10_limb_digits 3141592653589793238). lia. Defined.

(** C3 as the specification states it fails: the 64-bit limb
    [2^64 - 1 = 18446744073709551615] has 20 decimal digits; the 19
    entries that the loop computes denote 8446744073709551615, and a
    stream over a file that stores this limb emits these 19 digits. *)
Lemma base10_limb_of_20_digits :
  0 <= 18446744073709551615 < 2 ^ 64 /\
  digits_value (extract_base10 (Z.to_nat BASE10_EXP) 18446744073709551615)
  = 8446744073709551615 /\
  digits_value (extract_base10 (Z.to_nat BASE10_EXP) 18446744073709551615)
  <> 18446744073709551615 /\
  match mpt_reader_open "m" 10 0
          (world_with "m" (make_file mpt_magic 1 MPT_TYPE_MPF 0 [18446744073709551615])) with
  | Ok (Stream s, w) =>
      match read_chars 20 s w with
      | Ok (cs, _, _) => text_of cs = "8446744073709551615"%string
      | _ => False
      end
  | _ => False
  end.
Proof.
  split; [lia |]. split; [reflexivity |]. split; [discriminate |].
  vm_compute. reflexivity.
Qed.

Ltac reader_simpl :=
  cbn [self f h base buf buf_pos buf_len pos start_digit base2_exp base2_mask
       cur_digit cur_limb2 cur_limb10
       set_f set_h set_base set_buf set_buf_pos set_buf_len set_pos set_start_digit
       set_base2_exp set_base2_mask set_cur_digit set_cur_limb2 set_cur_limb10].

(** ** One refill, written out *)

Lemma fill_eq (s : MPTReader) (w : World) :
  mpt_reader_fill s w =
  if mem_nat (self s) (w_blocks w) then
    if min_int64 (pos s) MPT_MAX_BUF_LEN =? 0 then Ok (-1, s, w)
    else
      match f s, buf s with
      | Some F, Some b =>
          if mem_nat (fd F) (w_files w) then
            let n := Z.of_nat (length (fill_bytes s F)) in
            if MPT_MAX_BUF_LEN * sizeof_uint64 <? n then Fault
            else if negb (n =? u64 (min_int64 (pos s) MPT_MAX_BUF_LEN * sizeof_uint64))
                 then Abort
                 else Ok (0, fill_result s F b,
                          log_read w (EvRead (fd F) (fpos (fill_seek s F)) n))
          else Fault
      | _, _ => Fault
      end
  else Fault.
Proof.
  unfold mpt_reader_fill, bind, deref, fseeko, fread, ret, fault, abort.
  destruct (mem_nat (self s) (w_blocks w)); [| reflexivity].
  destruct (min_int64 (pos s) MPT_MAX_BUF_LEN =? 0); [reflexivity |].
  reader_simpl.
  destruct (f s) as [F|]; [| reflexivity].
  destruct (buf s) as [b|]; [| reflexivity].
  destruct (mem_nat (fd F) (w_files w)) eqn:HF; [| reflexivity].
  cbv zeta. fold (fill_seek s F).
  assert (Hfd : fd (fill_seek s F) = fd F).
  { unfold fill_seek. destruct (seek_ok F _); reflexivity. }
  rewrite Hfd. cbn [w_files]. rewrite HF.
  fold (fill_bytes s F).
  destruct (MPT_MAX_BUF_LEN * sizeof_uint64 <? Z.of_nat (length (fill_bytes s F)));
    [reflexivity |].
  destruct (negb (Z.of_nat (length (fill_bytes s F)) =?
                  u64 (min_int64 (pos s) MPT_MAX_BUF_LEN * sizeof_uint64)));
    [reflexivity |].
  unfold fill_result, log_read. rewrite Hfd. reflexivity.
Qed.

(** ** The two branches of [mpt_reader_get_digit], merged *)

Lemma fill_keeps (s s1 : MPTReader) (w w1 : World) (rc : Z) :
  mpt_reader_fill s w = Ok (rc, s1, w1) ->
  self s1 = self s /\ h s1 = h s /\ base s1 = base s /\
  start_digit s1 = start_digit s /\ base2_exp s1 = base2_exp s /\
  base2_mask s1 = base2_mask s /\ cur_digit s1 = cur_digit s /\
  cur_limb2 s1 = cur_limb2 s /\ cur_limb10 s1 = cur_limb10 s /\
  w_fs w1 = w_fs w /\ w_next w1 = w_next w /\
  w_blocks w1 = w_blocks w /\ w_files w1 = w_files w.
Proof.
  rewrite fill_eq. intros Hfill.
  destruct (mem_nat (self s) (w_blocks w)); [| discriminate].
  destruct (min_int64 (pos s) MPT_MAX_BUF_LEN =? 0).
  { inversion Hfill; subst. repeat split. }
  destruct (f s) as [F|]; [| discriminate].
  destruct (buf s) as [b|]; [| discriminate].
  destruct (mem_nat (fd F) (w_files w)); [| discriminate].
  cbv zeta in Hfill.
  destruct (_ <? _); [discriminate |].
  destruct (negb _); [discriminate |].
  inversion Hfill; subst. repeat split.
Qed.

Lemma get_digit_merged_eq (s : MPTReader) (w : World) :
  mpt_reader_get_digit s w = get_digit_merged s w.
Proof.
  unfold mpt_reader_get_digit, get_digit_merged, emit, emitted, load_limb,
    limb_width, digit_step, limb10_get, shr64, buf_get, bind, ret, fault, deref.
  destruct (mem_nat (self s) (w_blocks w)); [| reflexivity].
  assert (Hkeep : forall rc s1 w1,
             (if buf_pos s =? 0 then mpt_reader_fill s else fun w0 => Ok (0, s, w0)) w
             = Ok (rc, s1, w1) -> base s1 = base s).
  { intros rc s1 w1 Hfill. destruct (buf_pos s =? 0).
    - now apply fill_keeps in Hfill.
    - now inversion Hfill. }
  destruct (base s =? 10) eqn:Hb.
  - destruct (cur_digit s =? 0).
    + destruct ((if buf_pos s =? 0 then mpt_reader_fill s else fun w0 => Ok (0, s, w0)) w)
        as [[[rc s1] w1] | |] eqn:Hfill; [| reflexivity | reflexivity].
      specialize (Hkeep rc s1 w1 eq_refl).
      destruct (negb (rc =? 0)); [reflexivity |].
      reader_simpl. destruct (buf s1) as [b|]; [| reflexivity].
      destruct (buf_pos s1 - 1 <? 0); [reflexivity |].
      destruct (nth_error (b_data b) (Z.to_nat (buf_pos s1 - 1))); [| reflexivity].
      rewrite Hkeep, Hb. reader_simpl. rewrite Hkeep, Hb.
      destruct (_ && _); reflexivity.
    + reader_simpl. rewrite Hb. destruct (_ && _); reflexivity.
  - destruct (cur_digit s =? 0).
    + destruct ((if buf_pos s =? 0 then mpt_reader_fill s else fun w0 => Ok (0, s, w0)) w)
        as [[[rc s1] w1] | |] eqn:Hfill; [| reflexivity | reflexivity].
      specialize (Hkeep rc s1 w1 eq_refl).
      destruct (negb (rc =? 0)); [reflexivity |].
      reader_simpl. destruct (buf s1) as [b|]; [| reflexivity].
      destruct (buf_pos s1 - 1 <? 0); [reflexivity |].
      destruct (nth_error (b_data b) (Z.to_nat (buf_pos s1 - 1))); [| reflexivity].
      rewrite Hkeep, Hb. reader_simpl. rewrite Hkeep, Hb.
      destruct (_ && _); reflexivity.
    + reader_simpl. rewrite Hb. destruct (_ && _); reflexivity.
Qed.

Lemma emit_eq (s : MPTReader) (w : World) :
  emit s w =
  let s' := set_cur_digit (cur_digit s - digit_step s) s in
  if (0 <=? cur_digit s') && (cur_digit s' <? limb_width s')
  then Ok (emitted s', s', w)
  else Fault.
Proof.
  unfold emit, ret, fault. cbv zeta.
  destruct (_ && _); reflexivity.
Qed.

Lemma get_digit_eq (s : MPTReader) (w : World) :
  mpt_reader_get_digit s w =
  if mem_nat (self s) (w_blocks w) then
    if cur_digit s =? 0 then
      match (if buf_pos s =? 0 then mpt_reader_fill s w else Ok (0, s, w)) with
      | Ok (rc, s1, w1) =>
          if rc =? 0 then
            match buf_limb s1 (buf_pos s1 - 1) with
            | Some a => emit (load_limb s1 a) w1
            | None => Fault
            end
          else Ok (-1, s1, w1)
      | Abort => Abort
      | Fault => Fault
      end
    else emit s w
  else Fault.
Proof.
  rewrite get_digit_merged_eq.
  unfold get_digit_merged, buf_limb, buf_get, bind, ret, fault, deref.
  destruct (mem_nat (self s) (w_blocks w)); [| reflexivity].
  destruct (cur_digit s =? 0); [| reflexivity].
  destruct (buf_pos s =? 0).
  - destruct (mpt_reader_fill s w) as [[[rc s1] w1] | |]; [| reflexivity | reflexivity].
    destruct (rc =? 0); cbn [negb]; [| reflexivity].
    reader_simpl. destruct (buf s1) as [b|]; [| reflexivity].
    destruct (buf_pos s1 - 1 <? 0); [reflexivity |].
    destruct (nth_error _ _); reflexivity.
  - change (0 =? 0) with true. cbn [negb].
    reader_simpl. destruct (buf s) as [b|]; [| reflexivity].
    destruct (buf_pos s - 1 <? 0); [reflexivity |].
    destruct (nth_error _ _); reflexivity.
Qed.

Lemma getc_eq (s : MPTReader) (w : World) :
  mpt_reader_getc s w =
  match mpt_reader_get_digit s w with
  | Ok (c, s', w') =>
      Ok (if c <? 0 then c else if c <? 10 then c + 48 else c + 55, s', w')
  | Abort => Abort
  | Fault => Fault
  end.
Proof.
  unfold mpt_reader_getc, bind, ret.
  destruct (mpt_reader_get_digit s w) as [[[c s'] w'] | |]; [| reflexivity | reflexivity].
  destruct (c <? 0); [reflexivity |]. destruct (c <? 10); reflexivity.
Qed.

(** ** The invariant of every reader that an open returns *)

Lemma opened_reader_ok (w : World) (d : list byte) (b sp : Z) :
  supported_base b = true -> 0 < open_pos d b sp ->
  reader_ok (opened_reader w d b sp).
Proof.
  intros Hb Hp. apply supported_base_iff in Hb.
  unfold reader_ok, base_config, buffer_inv, opened_reader. reader_simpl.
  assert (Hr : open_pos d b sp < 2 ^ 63).
  { unfold open_pos, start_limb_offset. apply s64_range. }
  repeat split; try lia.
  - destruct Hb as [-> | [-> | ->]]; [left | right; left | right; right];
      repeat split; reflexivity.
  - unfold MPT_MAX_BUF_LEN. lia.
  - repeat constructor; lia.
Qed.

Lemma fill_length (s : MPTReader) :
  0 < pos s ->
  0 < min_int64 (pos s) MPT_MAX_BUF_LEN <= MPT_MAX_BUF_LEN /\
  min_int64 (pos s) MPT_MAX_BUF_LEN <= pos s /\
  u64 (min_int64 (pos s) MPT_MAX_BUF_LEN * sizeof_uint64)
  = 8 * min_int64 (pos s) MPT_MAX_BUF_LEN.
Proof.
  intros Hp. rewrite min_int64_min. unfold MPT_MAX_BUF_LEN, sizeof_uint64.
  split; [lia |]. split; [lia |].
  rewrite u64_id; lia.
Qed.

(** One refill of a reader with [0 <= pos]: either nothing is left and
    nothing changes, or [min(pos, capacity)] limbs are loaded. *)
Lemma fill_inv (s s1 : MPTReader) (w w1 : World) (rc : Z) :
  0 <= pos s < 2 ^ 63 ->
  mpt_reader_fill s w = Ok (rc, s1, w1) ->
  (pos s = 0 /\ rc = -1 /\ s1 = s /\ w1 = w) \/
  (0 < pos s /\ rc = 0 /\
   exists F b, f s = Some F /\ buf s = Some b /\
               Z.of_nat (length (fill_bytes s F)) = 8 * Z.min (pos s) MPT_MAX_BUF_LEN /\
               s1 = fill_result s F b /\
               w1 = log_read w (EvRead (fd F) (fpos (fill_seek s F))
                                       (8 * Z.min (pos s) MPT_MAX_BUF_LEN))).
Proof.
  intros Hp. rewrite fill_eq. intros Hfill.
  destruct (mem_nat (self s) (w_blocks w)); [| discriminate].
  destruct (Z.eqb_spec (min_int64 (pos s) MPT_MAX_BUF_LEN) 0) as [H0 | H0].
  - left. inversion Hfill; subst. rewrite min_int64_min in H0.
    unfold MPT_MAX_BUF_LEN in H0. repeat split. lia.
  - right.
    assert (Hpos : 0 < pos s).
    { rewrite min_int64_min in H0. unfold MPT_MAX_BUF_LEN in H0. lia. }
    destruct (fill_length s Hpos) as [Hlen [Hle Hu]].
    destruct (f s) as [F|]; [| discriminate].
    destruct (buf s) as [b|]; [| discriminate].
    destruct (mem_nat (fd F) (w_files w)); [| discriminate].
    cbv zeta in Hfill.
    destruct (_ <? _); [discriminate |].
    rewrite Hu in Hfill.
    destruct (Z.eqb_spec (Z.of_nat (length (fill_bytes s F)))
                         (8 * min_int64 (pos s) MPT_MAX_BUF_LEN)) as [Hn | Hn];
      cbn [negb] in Hfill; [| discriminate].
    inversion Hfill; subst.
    rewrite min_int64_min in Hn.
    split; [exact Hpos |]. split; [reflexivity |].
    exists F, b. rewrite Hn. repeat split.
Qed.

Lemma fill_result_pos (s : MPTReader) (F : FILE) (b : buffer) :
  0 < pos s < 2 ^ 63 ->
  pos (fill_result s F b) = pos s - Z.min (pos s) MPT_MAX_BUF_LEN /\
  buf_len (fill_result s F b) = Z.min (pos s) MPT_MAX_BUF_LEN /\
  buf_pos (fill_result s F b) = Z.min (pos s) MPT_MAX_BUF_LEN.
Proof.
  intros Hp. unfold fill_result. reader_simpl. rewrite min_int64_min.
  repeat split. apply s64_id. unfold MPT_MAX_BUF_LEN. lia.
Qed.

Lemma fill_ok (s s1 : MPTReader) (w w1 : World) (rc : Z) :
  reader_ok s -> mpt_reader_fill s w = Ok (rc, s1, w1) -> reader_ok s1.
Proof.
  intros [Hcfg [Hbuf [Hp [Hcd Hl10]]]] Hfill.
  destruct (fill_inv s s1 w w1 rc Hp Hfill)
    as [[_ [_ [-> _]]] | [Hpos [_ [F [b [_ [_ [_ [-> _]]]]]]]]].
  - exact (conj Hcfg (conj Hbuf (conj Hp (conj Hcd Hl10)))).
  - destruct (fill_result_pos s F b ltac:(lia)) as [Hp1 [Hl1 Hb1]].
    unfold reader_ok, buffer_inv. rewrite Hp1, Hl1, Hb1.
    split; [exact Hcfg |].
    unfold MPT_MAX_BUF_LEN in *.
    repeat split; try assumption; lia.
Qed.

(** Every way in which [mpt_reader_get_digit] returns: at the end of the
    data nothing changes; otherwise the digit comes from the current
    limb, or from a limb that is loaded first, after a refill when the
    buffer is used up. *)
Lemma get_digit_inv (s s' : MPTReader) (w w' : World) (c : Z) :
  0 <= pos s < 2 ^ 63 ->
  mpt_reader_get_digit s w = Ok (c, s', w') ->
  (c = -1 /\ cur_digit s = 0 /\ buf_pos s = 0 /\ pos s = 0 /\ s' = s /\ w' = w) \/
  (cur_digit s <> 0 /\ w' = w /\ s' = take_digit s /\ c = emitted s' /\
   0 <= cur_digit s' < limb_width s') \/
  (cur_digit s = 0 /\
   exists s1 a,
     ((buf_pos s <> 0 /\ s1 = s /\ w' = w) \/
      (buf_pos s = 0 /\ 0 < pos s /\ mpt_reader_fill s w = Ok (0, s1, w'))) /\
     buf_limb s1 (buf_pos s1 - 1) = Some a /\
     s' = take_digit (load_limb s1 a) /\ c = emitted s' /\
     0 <= cur_digit s' < limb_width s').
Proof.
  intros Hp. rewrite get_digit_eq. intros Hget.
  destruct (mem_nat (self s) (w_blocks w)); [| discriminate].
  assert (Hemit : forall sL wL,
             emit sL wL = Ok (c, s', w') ->
             w' = wL /\ s' = take_digit sL /\ c = emitted s' /\
             0 <= cur_digit s' < limb_width s').
  { intros sL wL. rewrite emit_eq. cbv zeta. fold (take_digit sL).
    destruct (_ && _) eqn:Hr; [| discriminate].
    intros Heq. inversion Heq; subst.
    apply andb_true_iff in Hr as [Hr1 Hr2].
    apply Z.leb_le in Hr1. apply Z.ltb_lt in Hr2. auto. }
  destruct (Z.eqb_spec (cur_digit s) 0) as [Hcd | Hcd].
  - destruct (Z.eqb_spec (buf_pos s) 0) as [Hbp | Hbp].
    + destruct (mpt_reader_fill s w) as [[[rc s1] w1] | |] eqn:Hfill; try discriminate.
      destruct (fill_inv s s1 w w1 rc Hp Hfill)
        as [[Hp0 [-> [-> ->]]] | [Hpos [-> _]]].
      * left. change (-1 =? 0) with false in Hget. inversion Hget; subst.
        repeat split; assumption.
      * right. right. split; [exact Hcd |].
        change (0 =? 0) with true in Hget.
        destruct (buf_limb s1 (buf_pos s1 - 1)) as [a|] eqn:Ha; [| discriminate].
        destruct (Hemit _ _ Hget) as [-> [Hs' [Hc Hr]]].
        exists s1, a. repeat split; auto; lia.
    + right. right. split; [exact Hcd |].
      change (0 =? 0) with true in Hget.
      destruct (buf_limb s (buf_pos s - 1)) as [a|] eqn:Ha; [| discriminate].
      destruct (Hemit _ _ Hget) as [-> [Hs' [Hc Hr]]].
      exists s, a. repeat split; auto; lia.
  - right. left.
    destruct (Hemit _ _ Hget) as [-> [Hs' [Hc Hr]]]. repeat split; auto; lia.
Qed.

Lemma land_mask_range (x m : Z) : 0 <= m -> 0 <= Z.land x m <= m.
Proof.
  intros Hm. split.
  - apply Z.land_nonneg. now right.
  - destruct (Z.eq_dec m 0) as [-> | Hm0]; [rewrite Z.land_0_r; lia |].
    apply Z.bits_above_log2 with (n := Z.log2 m + 1) in Hm as Hbit; [| lia].
    destruct (Z_le_gt_dec (Z.land x m) m) as [Hle | Hgt]; [exact Hle |].
    exfalso.
    assert (Hsub : forall k, Z.testbit (Z.land x m) k = true -> Z.testbit m k = true).
    { intros k. rewrite Z.land_spec. now intros [_ H]%andb_true_iff. }
    assert (Hpos : 0 < Z.land x m) by lia.
    pose proof (Z.land_nonneg x m) as Hnn.
    assert (H : Z.ldiff (Z.land x m) m = 0).
    { apply Z.bits_inj'. intros k Hk. rewrite Z.ldiff_spec, Z.bits_0.
      destruct (Z.testbit (Z.land x m) k) eqn:Hb; [| reflexivity].
      now rewrite (Hsub k Hb). }
    apply Z.ldiff_le in H; lia.
Qed.

Lemma buf_limb_index (s : MPTReader) (i a : Z) : buf_limb s i = Some a -> 0 <= i.
Proof.
  unfold buf_limb. destruct (buf s); [| discriminate].
  destruct (Z.ltb_spec i 0); [discriminate | lia].
Qed.

Lemma take_digit_ok (s : MPTReader) :
  reader_ok s -> 0 <= cur_digit (take_digit s) -> reader_ok (take_digit s).
Proof.
  intros [Hcfg [Hbuf [Hp [_ Hl10]]]] Hcd.
  exact (conj Hcfg (conj Hbuf (conj Hp (conj Hcd Hl10)))).
Qed.

Lemma load_limb_base (s : MPTReader) (a : Z) : base (load_limb s a) = base s.
Proof. unfold load_limb. reader_simpl. destruct (base s =? 10); reflexivity. Qed.

Lemma take_load_ok (s : MPTReader) (a : Z) :
  reader_ok s -> 0 <= buf_pos s - 1 ->
  0 <= cur_digit (take_digit (load_limb s a)) ->
  reader_ok (take_digit (load_limb s a)).
Proof.
  intros [Hcfg [[Hb1 [Hb2 Hb3]] [Hp [_ Hl10]]]] Hbp Hcd.
  unfold reader_ok. split; [| split; [| split; [| split]]].
  - unfold take_digit, load_limb, base_config in *. reader_simpl.
    destruct (base s =? 10); exact Hcfg.
  - unfold take_digit, load_limb, buffer_inv. reader_simpl.
    destruct (base s =? 10); reader_simpl; lia.
  - unfold take_digit, load_limb. reader_simpl.
    destruct (base s =? 10); exact Hp.
  - exact Hcd.
  - unfold take_digit, load_limb. reader_simpl.
    destruct (base s =? 10); reader_simpl;
      [apply extract_base10_range | exact Hl10].
Qed.

Lemma emitted_range (s : MPTReader) :
  reader_ok s -> 0 <= emitted s <= base s - 1.
Proof.
  intros [Hcfg [_ [_ [_ Hl10]]]]. unfold emitted.
  destruct Hcfg as [Hb | [[Hb [_ Hm]] | [Hb [_ Hm]]]]; rewrite Hb; cbn [Z.eqb Pos.eqb].
  - destruct (nth_in_or_default (Z.to_nat (cur_digit s)) (cur_limb10 s) 0) as [Hin | ->].
    + rewrite Forall_forall in Hl10. specialize (Hl10 _ Hin). lia.
    + lia.
  - rewrite Hm. apply (land_mask_range _ 1). lia.
  - rewrite Hm. apply (land_mask_range _ 15). lia.
Qed.

(** One call of [mpt_reader_get_digit] keeps the invariant, and what it
    returns is -1 or a digit of the base. *)
Lemma get_digit_ok (s s' : MPTReader) (w w' : World) (c : Z) :
  reader_ok s ->
  mpt_reader_get_digit s w = Ok (c, s', w') ->
  reader_ok s' /\ base s' = base s /\ (c = -1 \/ 0 <= c <= base s - 1).
Proof.
  intros Hok Hget.
  assert (Hp : 0 <= pos s < 2 ^ 63) by apply Hok.
  destruct (get_digit_inv s s' w w' c Hp Hget)
    as [[-> [_ [_ [_ [-> _]]]]] | [[_ [_ [Hs' [Hc Hr]]]] | [_ [s1 [a [Hs1 [Ha [Hs' [Hc Hr]]]]]]]]].
  - auto.
  - assert (Hok' : reader_ok s').
    { rewrite Hs'. apply take_digit_ok; [exact Hok |]. rewrite <- Hs'. lia. }
    split; [exact Hok' |].
    assert (Hb : base s' = base s) by (rewrite Hs'; reflexivity).
    split; [exact Hb |]. right. rewrite Hc, <- Hb. now apply emitted_range.
  - assert (Hok1 : reader_ok s1 /\ base s1 = base s).
    { destruct Hs1 as [[_ [-> _]] | [_ [_ Hfill]]]; [auto |].
      split; [eapply fill_ok; eassumption |].
      now apply fill_keeps in Hfill. }
    destruct Hok1 as [Hok1 Hb1].
    assert (Hok' : reader_ok s').
    { rewrite Hs'. apply take_load_ok; [exact Hok1 | | rewrite <- Hs'; lia].
      eapply buf_limb_index; eassumption. }
    split; [exact Hok' |].
    assert (Hb : base s' = base s).
    { rewrite Hs'. unfold take_digit. reader_simpl. now rewrite load_limb_base. }
    split; [exact Hb |]. right. rewrite Hc, <- Hb. now apply emitted_range.
Qed.

Lemma getc_inv (s s' : MPTReader) (w w' : World) (c : Z) :
  mpt_reader_getc s w = Ok (c, s', w') ->
  exists c0, mpt_reader_get_digit s w = Ok (c0, s', w').
Proof.
  rewrite getc_eq.
  destruct (mpt_reader_get_digit s w) as [[[c0 s1] w1] | |]; try discriminate.
  intros Heq. inversion Heq; subst. now exists c0.
Qed.

Lemma run_ok (s0 s : MPTReader) (w0 w : World) :
  reader_ok s0 -> run s0 w0 s w -> reader_ok s /\ base s = base s0.
Proof.
  intros Hok0 Hrun. induction Hrun as
    [ s w
    | s w s1 w1 rc s2 w2 Hrun IH Hfill
    | s w s1 w1 c s2 w2 Hrun IH Hget
    | s w s1 w1 c s2 w2 Hrun IH Hgetc ].
  - auto.
  - destruct (IH Hok0) as [Hok1 Hb1]. split; [eapply fill_ok; eassumption |].
    apply fill_keeps in Hfill. destruct Hfill as [_ [_ [Hb _]]]. congruence.
  - destruct (IH Hok0) as [Hok1 Hb1].
    destruct (get_digit_ok _ _ _ _ _ Hok1 Hget) as [Hok2 [Hb2 _]].
    split; [exact Hok2 | congruence].
  - destruct (IH Hok0) as [Hok1 Hb1].
    destruct (getc_inv _ _ _ _ _ Hgetc) as [c0 Hget].
    destruct (get_digit_ok _ _ _ _ _ Hok1 Hget) as [Hok2 [Hb2 _]].
    split; [exact Hok2 | congruence].
Qed.

Lemma run_first (s s1 s2 : MPTReader) (w w1 w2 : World) (c : Z) :
  mpt_reader_get_digit s w = Ok (c, s1, w1) -> run s1 w1 s2 w2 -> run s w s2 w2.
Proof.
  intros Hget Hrun. induction Hrun as
    [ s1 w1
    | s1 w1 sa wa rc sb wb Hrun IH Hfill
    | s1 w1 sa wa c' sb wb Hrun IH Hget'
    | s1 w1 sa wa c' sb wb Hrun IH Hgetc ].
  - eapply run_get_digit; [apply run_here | exact Hget].
  - eapply run_fill; [exact (IH Hget) | exact Hfill].
  - eapply run_get_digit; [exact (IH Hget) | exact Hget'].
  - eapply run_getc; [exact (IH Hget) | exact Hgetc].
Qed.

(** Pulling digits is a run. *)
Lemma read_digits_run (n : nat) :
  forall (s s' : MPTReader) (w w' : World) (ds : list Z),
    read_digits n s w = Ok (ds, s', w') -> run s w s' w'.
Proof.
  induction n as [|n IH]; intros s s' w w' ds Hread.
  - inversion Hread; subst. apply run_here.
  - unfold read_digits in Hread. cbn [pull] in Hread. unfold bind in Hread.
    destruct (mpt_reader_get_digit s w) as [[[c s1] w1] | |] eqn:Hget; try discriminate.
    destruct (c <? 0).
    + inversion Hread; subst. eapply run_get_digit; [apply run_here | exact Hget].
    + fold (read_digits n s1 w1) in Hread.
      destruct (read_digits n s1 w1) as [[[cs s2] w2] | |] eqn:Hrest; try discriminate.
      inversion Hread; subst.
      eapply run_first; [exact Hget | eapply IH; exact Hrest].
Qed.

(** C8.  On a stream that [mpt_reader_open] returned, after any calls,
    every value that [mpt_reader_get_digit] returns other than the
    end-of-data value -1 is a digit of the base: between 0 and 9 in
    base 10, 0 and 15 in base 16, 0 and 1 in base 2 (the bases that the
    open accepts). *)
Theorem get_digit_range (w w0 w1 w' : World) (name : string) (b sp : Z)
        (s0 s s' : MPTReader) (c : Z) :
  mpt_reader_open name b sp w = Ok (Stream s0, w0) ->
  run s0 w0 s w1 ->
  mpt_reader_get_digit s w1 = Ok (c, s', w') ->
  c = -1 \/
  (0 <= c <= b - 1 /\ (b = 10 -> c <= 9) /\ (b = 16 -> c <= 15) /\ (b = 2 -> c <= 1)).
Proof.
  intros Hopen Hrun Hget.
  destruct (open_stream_inv _ _ _ _ _ _ Hopen) as [d [Hb [_ [_ [Hp [-> _]]]]]].
  pose proof (opened_reader_ok w d b sp Hb Hp) as Hok0.
  destruct (run_ok _ _ _ _ Hok0 Hrun) as [Hok Hbase].
  change (base (opened_reader w d b sp)) with b in Hbase.
  destruct (get_digit_ok _ _ _ _ _ Hok Hget) as [_ [_ [Hc | Hc]]].
  - now left.
  - right. rewrite Hbase in Hc. repeat split; intros; lia.
Qed.

Lemma two_limb_open :
  mpt_reader_open "pi2" 10 0 two_limb_world
  = Ok (Stream two_limb_reader, opened_world two_limb_world).
Proof. apply open_stream; reflexivity. Defined.

Lemma two_limb_run :
  run two_limb_reader (opened_world two_limb_world) after_20 world_after_20.
Proof.
  apply (read_digits_run 20 _ _ _ _
           (fst (fst (pull_result 20 two_limb_reader (opened_world two_limb_world))))).
  vm_compute. reflexivity.
Defined.

(** The 21st digit of the two-limb file is 6. *)
Lemma get_digit_range_witness :
  6 = -1 \/
  (0 <= 6 <= 10 - 1 /\ (10 = 10 -> 6 <= 9) /\ (10 = 16 -> 6 <= 15) /\ (10 = 2 -> 6 <= 1)).
Proof.
  pose (r := state_after (mpt_reader_get_digit after_20 world_after_20)
                         after_20 world_after_20).
  apply (get_digit_range two_limb_world (opened_world two_limb_world) world_after_20 (snd r)
           "pi2" 10 0 two_limb_reader after_20 (fst r) 6).
  - exact two_limb_open.
  - exact two_limb_run.
  - vm_compute. reflexivity.
Defined.

(** ** Resources and positions along a run *)

Lemma same_resources_refl (s : MPTReader) (w : World) : same_resources s s w w.
Proof. repeat split. Qed.

Lemma same_resources_trans (s0 s1 s2 : MPTReader) (w0 w1 w2 : World) :
  same_resources s0 s1 w0 w1 -> same_resources s1 s2 w1 w2 -> same_resources s0 s2 w0 w2.
Proof.
  unfold same_resources. intros H1 H2.
  repeat match goal with H : _ /\ _ |- _ => destruct H end.
  repeat split; congruence.
Qed.

Lemma fill_seek_same (s : MPTReader) (F : FILE) :
  fd (fill_seek s F) = fd F /\ fdata (fill_seek s F) = fdata F.
Proof. unfold fill_seek. destruct (seek_ok F _); split; reflexivity. Qed.

Lemma fill_same_resources (s s1 : MPTReader) (w w1 : World) (rc : Z) :
  0 <= pos s < 2 ^ 63 ->
  mpt_reader_fill s w = Ok (rc, s1, w1) -> same_resources s s1 w w1.
Proof.
  intros Hp Hfill.
  destruct (fill_inv s s1 w w1 rc Hp Hfill)
    as [[_ [_ [-> ->]]] | [_ [_ [F [b [HF [Hb [_ [-> ->]]]]]]]]].
  - apply same_resources_refl.
  - destruct (fill_seek_same s F) as [Hfd Hdata].
    unfold same_resources, fill_result, log_read. reader_simpl.
    rewrite HF, Hb. cbn [option_map fd fdata b_addr w_fs w_next w_blocks w_files].
    rewrite Hfd, Hdata. repeat split.
Qed.

Lemma take_digit_same (s : MPTReader) (w : World) : same_resources s (take_digit s) w w.
Proof. repeat split. Qed.

Lemma load_limb_same (s : MPTReader) (a : Z) (w : World) :
  same_resources s (load_limb s a) w w.
Proof.
  unfold same_resources, load_limb. reader_simpl.
  destruct (base s =? 10); repeat split.
Qed.

Lemma get_digit_same_resources (s s' : MPTReader) (w w' : World) (c : Z) :
  0 <= pos s < 2 ^ 63 ->
  mpt_reader_get_digit s w = Ok (c, s', w') -> same_resources s s' w w'.
Proof.
  intros Hp Hget.
  destruct (get_digit_inv s s' w w' c Hp Hget)
    as [[_ [_ [_ [_ [-> ->]]]]] | [[_ [-> [-> _]]] | [_ [s1 [a [Hs1 [_ [-> _]]]]]]]].
  - apply same_resources_refl.
  - apply take_digit_same.
  - assert (H1 : same_resources s s1 w w').
    { destruct Hs1 as [[_ [-> ->]] | [_ [_ Hfill]]];
        [apply same_resources_refl | now apply fill_same_resources in Hfill]. }
    eapply same_resources_trans; [exact H1 |].
    eapply same_resources_trans; [apply load_limb_same | apply take_digit_same].
Qed.

Lemma run_same_resources (s0 s : MPTReader) (w0 w : World) :
  reader_ok s0 -> run s0 w0 s w -> same_resources s0 s w0 w.
Proof.
  intros Hok0 Hrun. induction Hrun as
    [ s w
    | s w s1 w1 rc s2 w2 Hrun IH Hfill
    | s w s1 w1 c s2 w2 Hrun IH Hget
    | s w s1 w1 c s2 w2 Hrun IH Hgetc ].
  - apply same_resources_refl.
  - destruct (run_ok _ _ _ _ Hok0 Hrun) as [Hok1 _].
    eapply same_resources_trans; [exact (IH Hok0) |].
    eapply fill_same_resources; [apply Hok1 | eassumption].
  - destruct (run_ok _ _ _ _ Hok0 Hrun) as [Hok1 _].
    eapply same_resources_trans; [exact (IH Hok0) |].
    eapply get_digit_same_resources; [apply Hok1 | eassumption].
  - destruct (run_ok _ _ _ _ Hok0 Hrun) as [Hok1 _].
    destruct (getc_inv _ _ _ _ _ Hgetc) as [c0 Hget].
    eapply same_resources_trans; [exact (IH Hok0) |].
    eapply get_digit_same_resources; [apply Hok1 | eassumption].
Qed.

(** ** End of data *)

Lemma eof_get_digit (s s' : MPTReader) (w w' : World) (c : Z) :
  at_eof s -> mpt_reader_get_digit s w = Ok (c, s', w') ->
  c = -1 /\ s' = s /\ w' = w.
Proof.
  intros [Hcd [Hbp Hp]] Hget.
  destruct (get_digit_inv s s' w w' c ltac:(lia) Hget)
    as [[-> [_ [_ [_ [-> ->]]]]] | [[Hne _] | [_ [s1 [a [Hs1 _]]]]]].
  - auto.
  - contradiction.
  - destruct Hs1 as [[Hne _] | [_ [Hpos _]]]; [contradiction | lia].
Qed.

Lemma eof_stays (s s2 : MPTReader) (w w2 : World) :
  at_eof s -> run s w s2 w2 -> s2 = s /\ w2 = w.
Proof.
  intros Heof Hrun. induction Hrun as
    [ s w
    | s w s1 w1 rc s2 w2 Hrun IH Hfill
    | s w s1 w1 c s2 w2 Hrun IH Hget
    | s w s1 w1 c s2 w2 Hrun IH Hgetc ].
  - auto.
  - destruct (IH Heof) as [-> ->]. destruct Heof as [Hcd [Hbp Hp]].
    destruct (fill_inv s s2 w w2 rc ltac:(lia) Hfill)
      as [[_ [_ [-> ->]]] | [Hpos _]]; [auto | lia].
  - destruct (IH Heof) as [-> ->].
    destruct (eof_get_digit _ _ _ _ _ Heof Hget) as [_ [-> ->]]. auto.
  - destruct (IH Heof) as [-> ->].
    destruct (getc_inv _ _ _ _ _ Hgetc) as [c0 Hget].
    destruct (eof_get_digit _ _ _ _ _ Heof Hget) as [_ [-> ->]]. auto.
Qed.

(** ** A bound on the digits that are left *)

Lemma digit_step_pos (s : MPTReader) : base_config s -> 1 <= digit_step s.
Proof.
  unfold digit_step. intros [Hb | [[Hb [He _]] | [Hb [He _]]]]; rewrite Hb;
    cbn [Z.eqb Pos.eqb]; lia.
Qed.

Lemma limb_width_le (s : MPTReader) : limb_width s <= 64.
Proof. unfold limb_width, BASE10_EXP. destruct (base s =? 10); lia. Qed.

(** A call that returns a digit lowers the bound. *)
Lemma get_digit_lowers (s s' : MPTReader) (w w' : World) (c : Z) :
  reader_ok s ->
  mpt_reader_get_digit s w = Ok (c, s', w') -> 0 <= c ->
  digits_left_bound s' < digits_left_bound s.
Proof.
  intros Hok Hget Hc.
  assert (Hp : 0 <= pos s < 2 ^ 63) by apply Hok.
  unfold digits_left_bound.
  destruct (get_digit_inv s s' w w' c Hp Hget)
    as [[-> _] | [[_ [_ [-> _]]] | [Hcd [s1 [a [Hs1 [Ha [Hs' [_ Hr]]]]]]]]].
  - lia.
  - unfold take_digit. reader_simpl.
    pose proof (digit_step_pos s ltac:(apply Hok)). lia.
  - assert (Hsum : pos s1 + buf_pos s1 = pos s + buf_pos s).
    { destruct Hs1 as [[_ [-> _]] | [Hbp [Hpos Hfill]]]; [reflexivity |].
      destruct (fill_inv s s1 w w' 0 Hp Hfill)
        as [[Hp0 _] | [_ [_ [F [b [_ [_ [_ [-> _]]]]]]]]]; [lia |].
      destruct (fill_result_pos s F b ltac:(lia)) as [-> [_ ->]]. lia. }
    assert (Hpos' : pos s' = pos s1 /\ buf_pos s' = buf_pos s1 - 1).
    { rewrite Hs'. unfold take_digit, load_limb. reader_simpl.
      destruct (base s1 =? 10); split; reflexivity. }
    destruct Hpos' as [-> ->].
    pose proof (limb_width_le s'). lia.
Qed.

Lemma read_digits_bound (n : nat) :
  forall (s s' : MPTReader) (w w' : World) (ds : list Z),
    reader_ok s ->
    read_digits n s w = Ok (ds, s', w') ->
    Z.of_nat (length ds) <= digits_left_bound s.
Proof.
  induction n as [|n IH]; intros s s' w w' ds Hok Hread.
  - inversion Hread; subst. cbn [length].
    destruct Hok as [_ [[Hb _] [Hp [Hcd _]]]]. unfold digits_left_bound. lia.
  - unfold read_digits in Hread. cbn [pull] in Hread. unfold bind in Hread.
    destruct (mpt_reader_get_digit s w) as [[[c s1] w1] | |] eqn:Hget; try discriminate.
    destruct (get_digit_ok _ _ _ _ _ Hok Hget) as [Hok1 _].
    destruct (Z.ltb_spec c 0) as [Hneg | Hnn].
    + inversion Hread; subst. cbn [length].
      destruct Hok as [_ [[Hb _] [Hp [Hcd _]]]]. unfold digits_left_bound. lia.
    + fold (read_digits n s1 w1) in Hread.
      destruct (read_digits n s1 w1) as [[[cs s2] w2] | |] eqn:Hrest; try discriminate.
      inversion Hread; subst. cbn [length].
      pose proof (IH _ _ _ _ _ Hok1 Hrest).
      pose proof (get_digit_lowers _ _ _ _ _ Hok Hget Hnn). lia.
Qed.

(** C10.  On a stream that [mpt_reader_open] returned, after any calls:
    a refill that finds limbs left ([pos > 0]) returns 0 and lowers
    [pos] by [min(pos, MPT_MAX_BUF_LEN)]; the digits that [n] further
    calls can deliver are at most [64 * (pos + buf_pos) + cur_digit],
    whatever [n]; and once [mpt_reader_get_digit] returns a negative
    value, that value is -1, the call changed nothing, and every later
    call returns -1 again. *)
Theorem finite_stream_stable_eof (w w0 w1 : World) (name : string) (b sp : Z)
        (s0 s : MPTReader) :
  mpt_reader_open name b sp w = Ok (Stream s0, w0) ->
  run s0 w0 s w1 ->
  (forall rc s' w',
      0 < pos s -> mpt_reader_fill s w1 = Ok (rc, s', w') ->
      rc = 0 /\ pos s' = pos s - Z.min (pos s) MPT_MAX_BUF_LEN /\ 0 <= pos s' < pos s) /\
  (forall n ds s' w',
      read_digits n s w1 = Ok (ds, s', w') ->
      Z.of_nat (length ds) <= 64 * (pos s + buf_pos s) + cur_digit s) /\
  (forall c s' w',
      mpt_reader_get_digit s w1 = Ok (c, s', w') -> c < 0 ->
      c = -1 /\ s' = s /\ w' = w1 /\
      forall s2 w2, run s' w' s2 w2 -> mpt_reader_get_digit s2 w2 = Ok (-1, s2, w2)).
Proof.
  intros Hopen Hrun.
  destruct (open_stream_inv _ _ _ _ _ _ Hopen) as [d [Hb [_ [_ [Hp [-> _]]]]]].
  pose proof (opened_reader_ok w d b sp Hb Hp) as Hok0.
  destruct (run_ok _ _ _ _ Hok0 Hrun) as [Hok _].
  assert (Hps : 0 <= pos s < 2 ^ 63) by apply Hok.
  split; [| split].
  - intros rc s' w' Hpos Hfill.
    destruct (fill_inv s s' w1 w' rc Hps Hfill)
      as [[Hp0 _] | [_ [-> [F [bf [_ [_ [_ [-> _]]]]]]]]]; [lia |].
    destruct (fill_result_pos s F bf ltac:(lia)) as [-> _].
    unfold MPT_MAX_BUF_LEN. repeat split; lia.
  - intros n ds s' w' Hread.
    exact (read_digits_bound n _ _ _ _ _ Hok Hread).
  - intros c s' w' Hget Hneg.
    destruct (get_digit_inv s s' w1 w' c Hps Hget)
      as [[-> [Hcd [Hbp [Hp0 [-> ->]]]]] | [[_ [_ [Hs' [Hc _]]]] | [_ [s1 [a [_ [_ [Hs' [Hc _]]]]]]]]].
    + repeat split.
      intros s2 w2 Hrun2.
      destruct (eof_stays s s2 w1 w2 (conj Hcd (conj Hbp Hp0)) Hrun2) as [-> ->].
      exact Hget.
    + exfalso.
      destruct (get_digit_ok _ _ _ _ _ Hok Hget) as [Hok' _].
      pose proof (emitted_range s' Hok'). lia.
    + exfalso.
      destruct (get_digit_ok _ _ _ _ _ Hok Hget) as [Hok' _].
      pose proof (emitted_range s' Hok'). lia.
Qed.

Lemma finite_stream_stable_eof_witness :
  (forall rc s' w',
      0 < pos after_20 -> mpt_reader_fill after_20 world_after_20 = Ok (rc, s', w') ->
      rc = 0 /\ pos s' = pos after_20 - Z.min (pos after_20) MPT_MAX_BUF_LEN /\
      0 <= pos s' < pos after_20) /\
  (forall n ds s' w',
      read_digits n after_20 world_after_20 = Ok (ds, s', w') ->
      Z.of_nat (length ds) <= 64 * (pos after_20 + buf_pos after_20) + cur_digit after_20) /\
  (forall c s' w',
      mpt_reader_get_digit after_20 world_after_20 = Ok (c, s', w') -> c < 0 ->
      c = -1 /\ s' = after_20 /\ w' = world_after_20 /\
      forall s2 w2, run s' w' s2 w2 -> mpt_reader_get_digit s2 w2 = Ok (-1, s2, w2)).
Proof.
  apply (finite_stream_stable_eof two_limb_world (opened_world two_limb_world) world_after_20
           "pi2" 10 0 two_limb_reader after_20).
  - exact two_limb_open.
  - exact two_limb_run.
Defined.

(** ** The reads of the refills *)



(** The offset of line 152, when it fits [off_t]. *)
Lemma fill_offset (s : MPTReader) :
  0 < pos s -> MPT_DISK_HEADER_SIZE + 8 * pos s < 2 ^ 63 ->
  s64 (u64 (MPT_DISK_HEADER_SIZE
            + u64 (s64 (pos s - min_int64 (pos s) MPT_MAX_BUF_LEN) * sizeof_uint64)))
  = MPT_DISK_HEADER_SIZE + 8 * (pos s - Z.min (pos s) MPT_MAX_BUF_LEN).
Proof.
  intros Hp Hr. rewrite min_int64_min.
  unfold MPT_DISK_HEADER_SIZE, MPT_MAX_BUF_LEN, sizeof_uint64 in *.
  rewrite (s64_id (pos s - _)) by lia.
  rewrite (u64_id (_ * 8)) by lia.
  rewrite u64_id by lia. rewrite s64_id by lia. lia.
Qed.

(** The seek of line 152 lands on its offset when the offset fits
    [off_t] and the file system accepts it. *)
Lemma fill_seek_pos (s : MPTReader) (F : FILE) :
  0 < pos s -> MPT_DISK_HEADER_SIZE + 8 * pos s < 2 ^ 63 ->
  MPT_DISK_HEADER_SIZE + 8 * (pos s - Z.min (pos s) MPT_MAX_BUF_LEN)
  <= Z.max (fmax F) (Z.of_nat (length (fdata F))) ->
  fpos (fill_seek s F)
  = MPT_DISK_HEADER_SIZE + 8 * (pos s - Z.min (pos s) MPT_MAX_BUF_LEN).
Proof.
  intros Hp Hr Hm. unfold fill_seek. cbv zeta. rewrite (fill_offset s Hp Hr).
  unfold seek_ok.
  destruct (Z.leb_spec 0 (MPT_DISK_HEADER_SIZE
                          + 8 * (pos s - Z.min (pos s) MPT_MAX_BUF_LEN))) as [_ | H];
    [| unfold MPT_DISK_HEADER_SIZE, MPT_MAX_BUF_LEN in *; lia].
  destruct (Z.leb_spec (MPT_DISK_HEADER_SIZE
                        + 8 * (pos s - Z.min (pos s) MPT_MAX_BUF_LEN))
                       (Z.max (fmax F) (Z.of_nat (length (fdata F))))) as [_ | H];
    [reflexivity | lia].
Qed.



Lemma take_load_f_pos (s : MPTReader) (a : Z) :
  f (take_digit (load_limb s a)) = f s /\ pos (take_digit (load_limb s a)) = pos s /\
  buf (take_digit (load_limb s a)) = buf s /\
  buf_len (take_digit (load_limb s a)) = buf_len s /\
  buf_pos (take_digit (load_limb s a)) = buf_pos s - 1.
Proof.
  unfold take_digit, load_limb. reader_simpl.
  destruct (base s =? 10); repeat split.
Qed.



Lemma take_load_current (s : MPTReader) (a : Z) :
  current_limb (take_digit (load_limb s a)) a.
Proof.
  unfold current_limb, take_digit, load_limb. reader_simpl.
  destruct (base s =? 10) eqn:Hb; reader_simpl; rewrite Hb; reflexivity.
Qed.



(** *** Refills whose offsets do not fit *)











(** ** Liveness of an opened stream *)

Lemma run_live (w w0 w1 : World) (name : string) (b sp : Z) (s0 s : MPTReader) :
  mpt_reader_open name b sp w = Ok (Stream s0, w0) ->
  run s0 w0 s w1 ->
  self s = w_next w /\
  (exists F, f s = Some F /\ fd F = S (w_next w) /\ w_fs w name = Some (fdata F)) /\
  (exists bf, buf s = Some bf /\ b_addr bf = S (S (w_next w))) /\
  w_blocks w1 = S (S (w_next w)) :: w_next w :: w_blocks w /\
  w_files w1 = S (w_next w) :: w_files w.
Proof.
  intros Hopen Hrun.
  destruct (open_stream_inv _ _ _ _ _ _ Hopen) as [d [Hb [Hfs [_ [Hp [Hs0 Hw0]]]]]].
  assert (Hok0 : reader_ok s0) by (rewrite Hs0; now apply opened_reader_ok).
  destruct (run_same_resources _ _ _ _ Hok0 Hrun)
    as [Hself [_ [Hfd [Hdata [Hbuf [_ [_ [Hblocks Hfiles]]]]]]]].
  rewrite Hs0 in Hself, Hfd, Hdata, Hbuf. rewrite Hw0 in Hblocks, Hfiles.
  unfold opened_reader in *. unfold opened_world in *.
  cbn [self f buf option_map fd fdata b_addr w_blocks w_files] in *.
  split; [exact Hself |].
  split.
  { destruct (f s) as [F|]; [| discriminate]. cbn [option_map] in *.
    exists F. split; [reflexivity |]. split; congruence. }
  split.
  { destruct (buf s) as [bf|]; [| discriminate]. cbn [option_map] in *.
    exists bf. split; [reflexivity | congruence]. }
  split; assumption.
Qed.

(** ** Short reads *)

(** C6, as the code has it.  On a stream that [mpt_reader_open]
    returned, after any calls: when limbs are left ([pos > 0]) and the
    read of the refill delivers fewer bytes than the [8 * min(pos,
    MPT_MAX_BUF_LEN)] it asks for, [mpt_reader_fill] ends in [abort()].
    So does the call of [mpt_reader_get_digit] or [mpt_reader_getc] that
    needs the refill: the process is terminated, the read is not tried
    again, and no value, neither a digit nor the end-of-data value -1,
    is returned to the caller. *)
Theorem short_read_aborts (w w0 w1 : World) (name : string) (b sp : Z)
        (s0 s : MPTReader) (F : FILE) :
  mpt_reader_open name b sp w = Ok (Stream s0, w0) ->
  run s0 w0 s w1 ->
  f s = Some F ->
  0 < pos s ->
  Z.of_nat (length (fill_bytes s F)) < 8 * Z.min (pos s) MPT_MAX_BUF_LEN ->
  mpt_reader_fill s w1 = Abort /\
  (cur_digit s = 0 -> buf_pos s = 0 ->
   mpt_reader_get_digit s w1 = Abort /\ mpt_reader_getc s w1 = Abort).
Proof.
  intros Hopen Hrun HF Hpos Hshort.
  destruct (run_live _ _ _ _ _ _ _ _ Hopen Hrun)
    as [Hself [[F' [HF' [Hfd _]]] [[bf [Hbuf _]] [Hblocks Hfiles]]]].
  rewrite HF in HF'. injection HF' as <-.
  destruct (fill_length s Hpos) as [[Hlen1 Hlen2] [_ Hu]].
  rewrite min_int64_min in *.
  assert (Hfill : mpt_reader_fill s w1 = Abort).
  { rewrite fill_eq, Hself, Hblocks, HF, Hbuf, Hfd, Hfiles.
    rewrite mem_nat_tail by apply mem_nat_head. rewrite mem_nat_head.
    rewrite min_int64_min, Hu.
    destruct (Z.eqb_spec (Z.min (pos s) MPT_MAX_BUF_LEN) 0) as [H0 | _]; [lia |].
    cbv zeta.
    destruct (Z.ltb_spec (MPT_MAX_BUF_LEN * sizeof_uint64)
                         (Z.of_nat (length (fill_bytes s F)))) as [Hbig | _];
      [unfold sizeof_uint64 in Hbig; lia |].
    destruct (Z.eqb_spec (Z.of_nat (length (fill_bytes s F)))
                         (8 * Z.min (pos s) MPT_MAX_BUF_LEN)) as [Heq | _]; [lia |].
    reflexivity. }
  split; [exact Hfill |].
  intros Hcd Hbp.
  assert (Hget : mpt_reader_get_digit s w1 = Abort).
  { rewrite get_digit_eq, Hself, Hblocks.
    rewrite mem_nat_tail by apply mem_nat_head.
    rewrite Hcd, Hbp, Hfill. reflexivity. }
  split; [exact Hget |].
  rewrite getc_eq, Hget. reflexivity.
Qed.

Lemma short_read_aborts_witness :
  mpt_reader_fill truncated_reader (opened_world truncated_world) = Abort /\
  (cur_digit truncated_reader = 0 -> buf_pos truncated_reader = 0 ->
   mpt_reader_get_digit truncated_reader (opened_world truncated_world) = Abort /\
   mpt_reader_getc truncated_reader (opened_world truncated_world) = Abort).
Proof.
  apply (short_read_aborts truncated_world (opened_world truncated_world)
           (opened_world truncated_world) "t" 10 0 truncated_reader truncated_reader
           truncated_stream).
  - apply open_stream; reflexivity.
  - apply run_here.
  - reflexivity.
  - reflexivity.
  - vm_compute. reflexivity.
Defined.

(** C6 as the specification states it fails: on the truncated file the
    first call of [mpt_reader_get_digit] needs a refill of 16 bytes,
    the read delivers 8, and the call ends in [abort()]: nothing, and
    so no error value, is returned to its caller. *)
Lemma short_read_not_returned :
  mpt_reader_open "t" 10 0 truncated_world
  = Ok (Stream truncated_reader, opened_world truncated_world) /\
  f truncated_reader = Some truncated_stream /\
  Z.of_nat (length (fill_bytes truncated_reader truncated_stream)) = 8 /\
  8 * Z.min (pos truncated_reader) MPT_MAX_BUF_LEN = 16 /\
  mpt_reader_get_digit truncated_reader (opened_world truncated_world) = Abort /\
  ~ (exists r, mpt_reader_get_digit truncated_reader (opened_world truncated_world) = Ok r).
Proof.
  split; [apply open_stream; reflexivity |].
  split; [reflexivity |].
  split; [vm_compute; reflexivity |].
  split; [vm_compute; reflexivity |].
  assert (Hget : mpt_reader_get_digit truncated_reader (opened_world truncated_world) = Abort)
    by (vm_compute; reflexivity).
  split; [exact Hget |].
  intros [r Hr]. rewrite Hget in Hr. discriminate.
Qed.

(** ** Closing *)

(** C7, as the code has it.  In a process whose identities are all
    below the next fresh one:
    - on a stream that [mpt_reader_open] returned, after any calls, one
      call of [mpt_reader_close] returns and leaves the live blocks and
      the open handles as they were before the open: the handle, the
      buffer and the struct are released;
    - a second call on the same stream is not a no-op: the struct it
      reads is freed, which is undefined behaviour;
    - an open that fails has called [mpt_reader_close] itself: when it
      returns NULL the live blocks and the open handles are as before. *)
Theorem close_releases_once (w : World) (name : string) (b sp : Z) :
  world_ok w ->
  (forall s0 w0 s w1,
      mpt_reader_open name b sp w = Ok (Stream s0, w0) ->
      run s0 w0 s w1 ->
      exists w2, mpt_reader_close s w1 = Ok (tt, w2) /\
                 w_blocks w2 = w_blocks w /\ w_files w2 = w_files w /\
                 mpt_reader_close s w2 = Fault) /\
  (forall why w0,
      mpt_reader_open name b sp w = Ok (Null why, w0) ->
      w_blocks w0 = w_blocks w /\ w_files w0 = w_files w).
Proof.
  intros Hw.
  assert (Hfresh : forall k x, In x (w_blocks w) \/ In x (w_files w) ->
                               x <> (k + w_next w)%nat).
  { intros k x Hx. specialize (Hw x Hx). lia. }
  split.
  - intros s0 w0 s w1 Hopen Hrun.
    destruct (run_live _ _ _ _ _ _ _ _ Hopen Hrun)
      as [Hself [[F [HF [Hfd _]]] [[bf [Hbuf Hba]] [Hblocks Hfiles]]]].
    destruct w1 as [fs1 n1 bl1 fl1 rd1 mx1].
    cbn [w_blocks w_files] in Hblocks, Hfiles. subst bl1 fl1.
    unfold mpt_reader_close, bind, deref, fclose, free, ret.
    rewrite Hself, HF, Hbuf, Hfd. cbn [option_map]. rewrite Hba.
    world_simpl.
    rewrite mem_nat_tail by apply mem_nat_head.
    world_simpl. rewrite remove_nat_other by lia. world_simpl.
    assert (Hb2 : remove_nat (S (S (w_next w))) (w_blocks w) = w_blocks w).
    { apply remove_nat_absent. intros Hin. now apply (Hfresh 2%nat _ (or_introl Hin)). }
    assert (Hb0 : remove_nat (w_next w) (w_blocks w) = w_blocks w).
    { apply remove_nat_absent. intros Hin. now apply (Hfresh 0%nat _ (or_introl Hin)). }
    assert (Hf1 : remove_nat (S (w_next w)) (w_files w) = w_files w).
    { apply remove_nat_absent. intros Hin. now apply (Hfresh 1%nat _ (or_intror Hin)). }
    rewrite Hb2, Hb0, Hf1.
    eexists. split; [reflexivity |]. world_simpl.
    split; [reflexivity |]. split; [reflexivity |].
    destruct (mem_nat (w_next w) (w_blocks w)) eqn:Hmem; [| reflexivity].
    exfalso. apply mem_nat_In in Hmem. now apply (Hfresh 0%nat _ (or_introl Hmem)).
  - intros why w0 Hopen.
    destruct (supported_base b) eqn:Hb.
    2:{ rewrite open_unsupported in Hopen by exact Hb. inversion Hopen; subst. auto. }
    destruct (w_fs w name) as [d|] eqn:Hfs.
    2:{ destruct (open_missing w name b sp Hb Hfs) as [w' [He [_ [_ Hres]]]].
        rewrite He in Hopen. inversion Hopen; subst. now apply Hres. }
    destruct (header_parses d) eqn:Hh.
    2:{ destruct (open_bad_header w name d b sp Hb Hfs Hh) as [w' [He [_ [_ Hres]]]].
        rewrite He in Hopen. inversion Hopen; subst. now apply Hres. }
    destruct (Z.ltb_spec 0 (open_pos d b sp)) as [Hp | Hp].
    + rewrite (open_stream w name d b sp Hb Hfs Hh Hp) in Hopen. discriminate.
    + rewrite (open_out_of_range w name d b sp Hb Hfs Hh Hp) in Hopen.
      inversion Hopen; subst. now apply failed_world_resources.
Qed.

Lemma pi_world_ok : world_ok pi_world.
Proof. intros x [[] | []]. Defined.

Lemma close_releases_once_witness :
  (forall s0 w0 s w1,
      mpt_reader_open "pi" 10 0 pi_world = Ok (Stream s0, w0) ->
      run s0 w0 s w1 ->
      exists w2, mpt_reader_close s w1 = Ok (tt, w2) /\
                 w_blocks w2 = w_blocks pi_world /\ w_files w2 = w_files pi_world /\
                 mpt_reader_close s w2 = Fault) /\
  (forall why w0,
      mpt_reader_open "pi" 10 0 pi_world = Ok (Null why, w0) ->
      w_blocks w0 = w_blocks pi_world /\ w_files w0 = w_files pi_world).
Proof. apply (close_releases_once pi_world "pi" 10 0). exact pi_world_ok. Defined.

(** C7 as the specification states it fails: after a successful open,
    the first [mpt_reader_close] returns and the second one, on the
    same stream, reads the freed struct: it is undefined behaviour, not
    a no-op. *)
Lemma close_twice_faults :
  mpt_reader_open "pi" 10 0 pi_world = Ok (Stream pi_reader, opened_world pi_world) /\
  exists w2, mpt_reader_close pi_reader (opened_world pi_world) = Ok (tt, w2) /\
             mpt_reader_close pi_reader w2 = Fault /\
             (mpt_reader_close pi_reader ;;; mpt_reader_close pi_reader)
               (opened_world pi_world) = Fault.
Proof.
  split; [apply open_stream; reflexivity |].
  eexists. split; [vm_compute; reflexivity |].
  split; vm_compute; reflexivity.
Qed.

(* ================================================================== *)
(** ** The digits of a file, position by position *)

Lemma slice_skipn (off n k : nat) (bs : list byte) :
  slice off n (skipn k bs) = slice (k + off) n bs.
Proof. unfold slice. rewrite skipn_skipn. f_equal. f_equal. lia. Qed.

Lemma slice_slice (off m a n : nat) (bs : list byte) :
  (a + n <= m)%nat -> slice a n (slice off m bs) = slice (off + a) n bs.
Proof.
  intros Hle. unfold slice.
  rewrite skipn_firstn_comm, firstn_firstn, skipn_skipn.
  rewrite Nat.min_l by lia. f_equal. f_equal. lia.
Qed.

Lemma limbs_of_bytes_nth (n : nat) :
  forall (bs : list byte) (i : nat),
    (i < n)%nat ->
    nth_error (limbs_of_bytes n bs) i = Some (le_combine (slice (8 * i) 8 bs)).
Proof.
  induction n as [|n IH]; intros bs i Hi; [lia |].
  change (limbs_of_bytes (S n) bs)
    with (le_combine (firstn 8 bs) :: limbs_of_bytes n (skipn 8 bs)).
  destruct i as [|i].
  - reflexivity.
  - cbn [nth_error]. rewrite IH by lia. rewrite slice_skipn.
    do 3 f_equal. lia.
Qed.

Lemma limbs_of_bytes_length (n : nat) (bs : list byte) :
  length (limbs_of_bytes n bs) = n.
Proof.
  revert bs. induction n as [|n IH]; intros bs; [reflexivity |].
  change (limbs_of_bytes (S n) bs)
    with (le_combine (firstn 8 bs) :: limbs_of_bytes n (skipn 8 bs)).
  cbn [length]. now rewrite IH.
Qed.

Lemma file_limb_range (d : list byte) (i : Z) : 0 <= file_limb d i < 2 ^ 64.
Proof.
  unfold file_limb.
  pose proof (le_combine_bound (slice (Z.to_nat (MPT_DISK_HEADER_SIZE + 8 * i)) 8 d)) as Hb.
  pose proof (length_slice_le (Z.to_nat (MPT_DISK_HEADER_SIZE + 8 * i)) 8 d) as Hl.
  split; [apply Hb |].
  eapply Z.lt_le_trans; [apply Hb |].
  apply Z.pow_le_mono_r; lia.
Qed.

Lemma unit_digit_nonneg (d : list byte) (b q : Z) :
  supported_base b = true -> 0 <= unit_digit d b q.
Proof.
  intros Hb. apply supported_base_iff in Hb. unfold unit_digit.
  destruct Hb as [-> | [-> | ->]]; cbn [Z.eqb Pos.eqb].
  - apply Z.mod_pos_bound. lia.
  - apply Z.land_nonneg. right. cbv. discriminate.
  - apply Z.land_nonneg. right. cbv. discriminate.
Qed.

Lemma stream_spec_end (d : list byte) (b : Z) (n : nat) (q : Z) :
  total_units d b <= q -> stream_spec d b n q = [].
Proof.
  intros Hq. destruct n as [|n]; [reflexivity |]. cbn [stream_spec].
  destruct (Z.ltb_spec q (total_units d b)); [lia | reflexivity].
Qed.

(** Dropping the first [j] digits of a run is starting [j] digits
    later. *)
Lemma stream_spec_skipn (d : list byte) (b : Z) (j : nat) :
  forall (k : nat) (q : Z),
    0 <= unit_step b ->
    skipn j (stream_spec d b k q)
    = stream_spec d b (k - j) (q + Z.of_nat j * unit_step b).
Proof.
  induction j as [|j IH]; intros k q Hstep.
  - rewrite Nat.sub_0_r. cbn [skipn]. f_equal. lia.
  - destruct k as [|k]; [reflexivity |].
    cbn [stream_spec Nat.sub].
    destruct (Z.ltb_spec q (total_units d b)) as [Hlt | Hge].
    + cbn [skipn]. rewrite IH by exact Hstep. f_equal. lia.
    + cbn [skipn]. symmetry. apply stream_spec_end. lia.
Qed.

(** The refill of a valid file reads all it asks for, and leaves the
    reader at the same position. *)
Lemma refill_at (d : list byte) (b : Z) (s : MPTReader) (w : World) (q : Z) :
  valid_file d -> stream_at d b s w q ->
  buf_pos s = 0 -> 0 < pos s ->
  exists s1 w1,
    mpt_reader_fill s w = Ok (0, s1, w1) /\ stream_at d b s1 w1 q /\
    0 < buf_pos s1 /\ cur_digit s1 = cur_digit s /\ base s1 = base s.
Proof.
  intros [_ [_ [Hsize Hoff]]] Hat Hbp Hpos.
  destruct Hat as [Hbase Hh Hlive [F [HF [Hdata Hfd]]] [bf Hbuf]
                   [Hb1 [Hb2 [Hb3 Hb4]]] Hlimbs Hstart Hcur Hlimb Hq].
  rewrite Hh in Hb4.
  destruct (fill_length s Hpos) as [[Hlen1 Hlen2] [Hlen3 Hu]].
  assert (Hr : MPT_DISK_HEADER_SIZE + 8 * pos s < 2 ^ 63) by lia.
  assert (Hm : MPT_DISK_HEADER_SIZE + 8 * (pos s - Z.min (pos s) MPT_MAX_BUF_LEN)
               <= Z.max (fmax F) (Z.of_nat (length (fdata F)))).
  { rewrite Hdata. unfold MPT_MAX_BUF_LEN. lia. }
  pose proof (fill_seek_pos s F Hpos Hr Hm) as Hseek.
  destruct (fill_seek_same s F) as [Hfd1 Hdata1].
  set (len := Z.min (pos s) MPT_MAX_BUF_LEN) in *.
  rewrite min_int64_min in *. fold len in Hlen1, Hlen2, Hlen3, Hu.
  assert (Hbytes : fill_bytes s F
                   = slice (Z.to_nat (MPT_DISK_HEADER_SIZE + 8 * (pos s - len)))
                           (Z.to_nat (8 * len)) d).
  { unfold fill_bytes. rewrite min_int64_min. fold len. rewrite Hu, Hseek, Hdata1, Hdata.
    reflexivity. }
  assert (Hn : Z.of_nat (length (fill_bytes s F)) = 8 * len).
  { rewrite Hbytes, length_slice_full; unfold MPT_DISK_HEADER_SIZE in *; lia. }
  exists (fill_result s F bf),
         (log_read w (EvRead (fd F) (fpos (fill_seek s F))
                             (Z.of_nat (length (fill_bytes s F))))).
  split.
  { rewrite fill_eq, Hlive, HF, Hbuf, Hfd. rewrite min_int64_min. fold len.
    destruct (Z.eqb_spec len 0) as [H0 | _]; [lia |].
    cbv zeta. rewrite Hu, Hn.
    destruct (Z.ltb_spec (MPT_MAX_BUF_LEN * sizeof_uint64) (8 * len)) as [Hbig | _];
      [unfold sizeof_uint64 in Hbig; lia |].
    rewrite Z.eqb_refl. reflexivity. }
  assert (Hp63 : 0 < pos s < 2 ^ 63) by (unfold MPT_DISK_HEADER_SIZE in Hr; lia).
  destruct (fill_result_pos s F bf Hp63) as [Hp1 [Hl1 Hbp1]]. fold len in Hp1, Hl1, Hbp1.
  split; [| split; [lia | split; reflexivity]].
  constructor.
  - exact Hbase.
  - exact Hh.
  - exact Hlive.
  - eexists. split; [reflexivity |]. cbn [fd fdata w_files log_read].
    rewrite Hfd1, Hdata1. auto.
  - eexists. reflexivity.
  - rewrite Hbp1, Hl1, Hp1. change (h (fill_result s F bf)) with (h s). rewrite Hh. lia.
  - intros i Hi. rewrite Hl1 in Hi. rewrite Hp1.
    unfold buf_limb, fill_result. reader_simpl. cbn [b_data].
    destruct (Z.ltb_spec i 0); [lia |].
    rewrite min_int64_min. fold len.
    rewrite nth_error_app1 by (rewrite limbs_of_bytes_length; lia).
    rewrite limbs_of_bytes_nth by lia.
    rewrite Hbytes, slice_slice by lia.
    unfold file_limb. do 3 f_equal. unfold MPT_DISK_HEADER_SIZE in *. lia.
  - exact Hstart.
  - exact Hcur.
  - intros Hc. destruct (Hlimb Hc) as [Hsd Hcl]. split; [exact Hsd |].
    rewrite Hp1, Hbp1. unfold current_limb in *.
    change (base (fill_result s F bf)) with (base s).
    change (cur_limb10 (fill_result s F bf)) with (cur_limb10 s).
    change (cur_limb2 (fill_result s F bf)) with (cur_limb2 s).
    rewrite Hbp in Hcl. replace (pos s - len + len) with (pos s + 0) by lia. exact Hcl.
  - rewrite Hp1, Hbp1.
    change (start_digit (fill_result s F bf)) with (start_digit s).
    change (cur_digit (fill_result s F bf)) with (cur_digit s).
    rewrite Hq, Hbp. f_equal. f_equal. f_equal. lia.
Qed.

Lemma split_units (W c r : Z) :
  0 <= r < W -> (W * c + r) / W = c /\ (W * c + r) mod W = r.
Proof.
  intros Hr. split.
  - symmetry. apply (Z.div_unique_pos _ _ c r); [exact Hr | reflexivity].
  - symmetry. apply (Z.mod_unique_pos _ _ c r); [exact Hr | reflexivity].
Qed.

Lemma supported_cases (b : Z) (s : MPTReader) :
  base s = b /\ supported_base b = true /\
  (b <> 10 -> base2_exp s = bits_per_digit b /\
              base2_mask s = Z.shiftl 1 (bits_per_digit b) - 1) ->
  (b = 10 /\ base s = 10) \/
  (b = 2 /\ base s = 2 /\ base2_exp s = 1 /\ base2_mask s = 1) \/
  (b = 16 /\ base s = 16 /\ base2_exp s = 4 /\ base2_mask s = 15).
Proof.
  intros [Hb [Hs Hcfg]]. apply supported_base_iff in Hs.
  destruct Hs as [-> | [-> | ->]].
  - left. auto.
  - right. left. destruct (Hcfg ltac:(lia)) as [He Hm]. auto.
  - right. right. destruct (Hcfg ltac:(lia)) as [He Hm]. auto.
Qed.

(** A digit of the limb at hand. *)
Lemma emit_at (d : list byte) (b : Z) (s : MPTReader) (w : World) (q : Z) :
  stream_at d b s w q -> 0 < cur_digit s ->
  emit s w = Ok (unit_digit d b q, take_digit s, w) /\
  stream_at d b (take_digit s) w (q + unit_step b).
Proof.
  intros Hat Hcd.
  destruct Hat as [Hbase Hh Hlive HF Hbuf Hbounds Hlimbs Hstart Hcur Hlimb Hq].
  destruct (Hlimb Hcd) as [Hsd Hcl].
  set (c := frac_limbs d - (pos s + buf_pos s)) in *.
  assert (Hstep : digit_step s = unit_step b /\ limb_width s = digits_per_limb b).
  { unfold digit_step, limb_width, unit_step, digits_per_limb.
    destruct (supported_cases b s Hbase) as [[-> Hb] | [[-> [Hb [He _]]] | [-> [Hb [He _]]]]];
      rewrite Hb; cbn [Z.eqb Pos.eqb]; auto. }
  destruct Hstep as [Hstep Hwidth].
  assert (Hrange : unit_step b <= cur_digit s /\ 0 < unit_step b <= digits_per_limb b).
  { destruct Hcur as [Hc1 [k Hk]]. unfold unit_step, digits_per_limb, bits_per_digit in *.
    destruct (supported_cases b s Hbase) as [[-> _] | [[-> _] | [-> _]]];
      cbn [Z.eqb Pos.eqb] in *; unfold BASE10_EXP; lia. }
  assert (Hdiv : q / digits_per_limb b = c - 1 /\
                 q mod digits_per_limb b = digits_per_limb b - cur_digit s).
  { replace q with (digits_per_limb b * (c - 1) + (digits_per_limb b - cur_digit s))
      by (rewrite Hq, Hsd; ring).
    apply split_units. lia. }
  destruct Hdiv as [Hquot Hrem].
  split.
  - rewrite emit_eq. cbv zeta. fold (take_digit s).
    change (cur_digit (take_digit s)) with (cur_digit s - digit_step s).
    change (limb_width (take_digit s)) with (limb_width s).
    rewrite Hstep, Hwidth.
    destruct (Z.leb_spec 0 (cur_digit s - unit_step b)); [| lia].
    destruct (Z.ltb_spec (cur_digit s - unit_step b) (digits_per_limb b)); [| lia].
    cbn [andb]. do 3 f_equal.
    unfold emitted, unit_digit. rewrite Hquot, Hrem.
    replace (frac_limbs d - 1 - (c - 1)) with (pos s + buf_pos s) by (unfold c; ring).
    change (base (take_digit s)) with (base s).
    change (cur_limb10 (take_digit s)) with (cur_limb10 s).
    change (cur_limb2 (take_digit s)) with (cur_limb2 s).
    change (base2_mask (take_digit s)) with (base2_mask s).
    change (cur_digit (take_digit s)) with (cur_digit s - digit_step s).
    rewrite Hstep. unfold current_limb in Hcl.
    unfold unit_step, digits_per_limb, bits_per_digit, BASE10_EXP in *.
    destruct (supported_cases b s Hbase)
      as [[-> Hb] | [[-> [Hb [He Hm]]] | [-> [Hb [He Hm]]]]];
      rewrite Hb in *; cbn [Z.eqb Pos.eqb] in *.
    + rewrite Hcl. rewrite extract_base10_nth by (change (Z.to_nat 19) with 19%nat; lia).
      rewrite Z2Nat.id by lia. do 3 f_equal. lia.
    + rewrite Hcl, Hm. do 2 f_equal. lia.
    + rewrite Hcl, Hm. do 2 f_equal. lia.
  - constructor; try assumption.
    + change (cur_digit (take_digit s)) with (cur_digit s - digit_step s).
      rewrite Hstep. split; [lia |].
      destruct Hcur as [_ Hk]. apply Z.divide_sub_r; [exact Hk | apply Z.divide_refl].
    + intros _. split; [exact Hsd | exact Hcl].
    + change (cur_digit (take_digit s)) with (cur_digit s - digit_step s).
      change (start_digit (take_digit s)) with (start_digit s).
      change (pos (take_digit s)) with (pos s).
      change (buf_pos (take_digit s)) with (buf_pos s).
      rewrite Hstep, Hq. fold c. ring.
Qed.

(** The first digit of the next limb of the buffer. *)
Lemma load_emit_at (d : list byte) (b : Z) (s : MPTReader) (w : World) (q : Z) :
  stream_at d b s w q -> cur_digit s = 0 -> 0 < buf_pos s ->
  exists a,
    buf_limb s (buf_pos s - 1) = Some a /\
    emit (load_limb s a) w = Ok (unit_digit d b q, take_digit (load_limb s a), w) /\
    stream_at d b (take_digit (load_limb s a)) w (q + unit_step b).
Proof.
  intros Hat Hcd Hbp.
  destruct Hat as [Hbase Hh Hlive HF Hbuf Hbounds Hlimbs Hstart Hcur Hlimb Hq].
  set (c := frac_limbs d - (pos s + buf_pos s)) in *.
  set (a := file_limb d (pos s + (buf_pos s - 1))).
  exists a.
  assert (Ha : buf_limb s (buf_pos s - 1) = Some a) by (apply Hlimbs; lia).
  split; [exact Ha |].
  set (s' := take_digit (load_limb s a)).
  destruct (take_load_f_pos s a) as [Hf' [Hpos' [Hbuf' [Hlen' Hbp']]]]. fold s' in Hf', Hpos', Hbuf', Hlen', Hbp'.
  assert (Hfields : base s' = base s /\ self s' = self s /\ h s' = h s /\
                    base2_exp s' = base2_exp s /\ base2_mask s' = base2_mask s /\
                    start_digit s' = 0 /\
                    cur_digit s' = digits_per_limb b - start_digit s - unit_step b /\
                    limb_width s' = digits_per_limb b /\
                    digit_step (load_limb s a) = unit_step b).
  { unfold s', take_digit, load_limb, digit_step, limb_width, unit_step, digits_per_limb.
    reader_simpl.
    destruct (supported_cases b s Hbase) as [[-> Hb] | [[-> [Hb [He _]]] | [-> [Hb [He _]]]]];
      rewrite Hb; cbn [Z.eqb Pos.eqb]; reader_simpl; rewrite ?Hb; cbn [Z.eqb Pos.eqb];
      rewrite ?He; repeat split. }
  destruct Hfields as [Hb' [Hself' [Hh' [He' [Hm' [Hsd' [Hcd' [Hw' Hstep]]]]]]]].
  assert (Hrange : 0 <= cur_digit s' < digits_per_limb b /\ 0 < unit_step b).
  { rewrite Hcd'. destruct Hstart as [Hs1 [k Hk]].
    unfold unit_step, digits_per_limb, bits_per_digit, BASE10_EXP in *.
    destruct (supported_cases b s Hbase) as [[-> _] | [[-> _] | [-> _]]];
      cbn [Z.eqb Pos.eqb] in *; lia. }
  assert (Hdiv : q / digits_per_limb b = c /\ q mod digits_per_limb b = start_digit s).
  { replace q with (digits_per_limb b * c + start_digit s) by (rewrite Hq, Hcd; ring).
    apply split_units. apply Hstart. }
  destruct Hdiv as [Hquot Hrem].
  split.
  - rewrite emit_eq. cbv zeta. fold (take_digit (load_limb s a)). fold s'.
    rewrite Hw'.
    destruct (Z.leb_spec 0 (cur_digit s')); [| lia].
    destruct (Z.ltb_spec (cur_digit s') (digits_per_limb b)); [| lia].
    cbn [andb]. do 3 f_equal.
    pose proof (take_load_current s a) as Hcl. fold s' in Hcl.
    unfold emitted, unit_digit, current_limb in *. rewrite Hquot, Hrem.
    replace (frac_limbs d - 1 - c) with (pos s + (buf_pos s - 1)) by (unfold c; ring).
    fold a. rewrite Hb' in *. rewrite Hm', Hcd'.
    unfold unit_step, digits_per_limb, bits_per_digit, BASE10_EXP in *.
    destruct (supported_cases b s Hbase)
      as [[-> Hb] | [[-> [Hb [He Hm]]] | [-> [Hb [He Hm]]]]];
      rewrite Hb in *; cbn [Z.eqb Pos.eqb] in *.
    + rewrite Hcl. rewrite extract_base10_nth by (change (Z.to_nat 19) with 19%nat; lia).
      rewrite Z2Nat.id by lia. do 3 f_equal; lia.
    + rewrite Hcl, Hm. do 2 f_equal; lia.
    + rewrite Hcl, Hm. do 2 f_equal; lia.
  - constructor.
    + rewrite Hb', He', Hm'. exact Hbase.
    + rewrite Hh'. exact Hh.
    + rewrite Hself'. exact Hlive.
    + rewrite Hf'. exact HF.
    + rewrite Hbuf'. exact Hbuf.
    + rewrite Hbp', Hlen', Hpos', Hh'. lia.
    + intros i Hi. rewrite Hlen' in Hi. rewrite Hpos'.
      unfold buf_limb in *. rewrite Hbuf'. now apply Hlimbs.
    + rewrite Hsd'. split; [lia | apply Z.divide_0_r].
    + split; [lia |]. rewrite Hcd'.
      destruct Hstart as [_ Hk].
      apply Z.divide_sub_r; [apply Z.divide_sub_r; [| exact Hk] | apply Z.divide_refl].
      unfold unit_step, digits_per_limb, bits_per_digit, BASE10_EXP.
      destruct (supported_cases b s Hbase) as [[-> _] | [[-> _] | [-> _]]];
        cbn [Z.eqb Pos.eqb]; [exists 19 | exists 64 | exists 16]; reflexivity.
    + intros _. split; [exact Hsd' |].
      rewrite Hpos', Hbp'. apply take_load_current.
    + rewrite Hpos', Hbp', Hsd', Hcd', Hq, Hcd. unfold c. ring.
Qed.

(** One call of [mpt_reader_get_digit] on a valid file: the digit at the
    position of the reader, which moves on by one digit; -1 and no
    change once the position is past the last digit. *)
Lemma get_digit_at (d : list byte) (b : Z) (s : MPTReader) (w : World) (q : Z) :
  valid_file d -> stream_at d b s w q ->
  if q <? total_units d b
  then exists s' w',
      mpt_reader_get_digit s w = Ok (unit_digit d b q, s', w') /\
      stream_at d b s' w' (q + unit_step b)
  else mpt_reader_get_digit s w = Ok (-1, s, w).
Proof.
  intros Hvalid Hat.
  pose proof (at_live _ _ _ _ _ Hat) as Hlive.
  pose proof (at_bounds _ _ _ _ _ Hat) as [Hb1 [Hb2 [Hb3 Hb4]]].
  pose proof (at_start _ _ _ _ _ Hat) as [Hsd _].
  pose proof (at_cur _ _ _ _ _ Hat) as [Hcd _].
  pose proof (at_q _ _ _ _ _ Hat) as Hq.
  unfold total_units.
  set (W := digits_per_limb b) in *. set (L := frac_limbs d) in *.
  rewrite get_digit_eq, Hlive.
  destruct (Z.eqb_spec (cur_digit s) 0) as [Hcd0 | Hcd0].
  - destruct (Z.eqb_spec (buf_pos s) 0) as [Hbp0 | Hbp0].
    + destruct (Z.eq_dec (pos s) 0) as [Hp0 | Hp0].
      * assert (Hfill : mpt_reader_fill s w = Ok (-1, s, w)).
        { rewrite fill_eq, Hlive, Hp0. reflexivity. }
        rewrite Hfill. change (-1 =? 0) with false. cbv iota.
        destruct (Z.ltb_spec q (W * L)) as [Hlt | _]; [| reflexivity].
        exfalso. rewrite Hq, Hp0, Hbp0, Hcd0 in Hlt.
        replace (L - (0 + 0)) with L in Hlt by ring. lia.
      * destruct (refill_at d b s w q Hvalid Hat Hbp0 ltac:(lia))
          as [s1 [w1 [Hfill [Hat1 [Hbp1 [Hcd1 _]]]]]].
        rewrite Hfill. change (0 =? 0) with true. cbv iota.
        rewrite Hcd0 in Hcd1.
        destruct (load_emit_at d b s1 w1 q Hat1 Hcd1 Hbp1) as [a [Ha [Hemit Hat']]].
        rewrite Ha, Hemit.
        destruct (Z.ltb_spec q (W * L)) as [_ | Hge]; [eauto |].
        exfalso. rewrite Hq, Hbp0, Hcd0 in Hge. nia.
    + change (0 =? 0) with true. cbv iota.
      destruct (load_emit_at d b s w q Hat Hcd0 ltac:(lia)) as [a [Ha [Hemit Hat']]].
      rewrite Ha, Hemit.
      destruct (Z.ltb_spec q (W * L)) as [_ | Hge]; [eauto |].
      exfalso. rewrite Hq, Hcd0 in Hge. nia.
  - destruct (emit_at d b s w q Hat ltac:(lia)) as [Hemit Hat'].
    rewrite Hemit.
    destruct (Z.ltb_spec q (W * L)) as [_ | Hge]; [eauto |].
    exfalso. rewrite Hq in Hge.
    destruct (at_limb _ _ _ _ _ Hat ltac:(lia)) as [Hsd0 _]. nia.
Qed.

(** Pulling [n] digits from a reader at unit [q] of a valid file returns
    the digits of the file from [q] on. *)
Lemma read_digits_at (d : list byte) (b : Z) (n : nat) :
  forall (s : MPTReader) (w : World) (q : Z),
    valid_file d -> stream_at d b s w q ->
    exists s' w', read_digits n s w = Ok (stream_spec d b n q, s', w').
Proof.
  induction n as [|n IH]; intros s w q Hvalid Hat.
  - exists s, w. reflexivity.
  - pose proof (get_digit_at d b s w q Hvalid Hat) as Hget.
    unfold read_digits. cbn [pull stream_spec]. unfold bind.
    destruct (q <? total_units d b).
    + destruct Hget as [s1 [w1 [Hget Hat1]]]. rewrite Hget.
      pose proof (unit_digit_nonneg d b q ltac:(apply (at_base _ _ _ _ _ Hat))) as Hnn.
      destruct (Z.ltb_spec (unit_digit d b q) 0) as [Hneg | _]; [lia |].
      destruct (IH s1 w1 _ Hvalid Hat1) as [s2 [w2 Hrest]].
      fold (read_digits n s1 w1). rewrite Hrest.
      exists s2, w2. reflexivity.
    + rewrite Hget. change (-1 <? 0) with true. cbv iota.
      exists s, w. reflexivity.
Qed.

Lemma scaled_start_units (b sp : Z) :
  supported_base b = true -> start_in_range b sp ->
  scaled_start b sp = sp * unit_step b.
Proof.
  intros Hb [Hsp0 Hsp]. apply supported_base_iff in Hb.
  unfold scaled_start, unit_step, bits_per_digit in *.
  destruct Hb as [-> | [-> | ->]]; cbn [Z.eqb Pos.eqb] in *; [lia | |]; apply s64_id; lia.
Qed.

Lemma valid_file_header (d : list byte) :
  valid_file d ->
  let hd := decode_header (slice 0 56 d) in
  0 <= h_expn hd <= h_len hd /\ h_len hd < 2 ^ 60.
Proof.
  intros [Hparse [Hexpn [Hsize Hoff]]]. cbv zeta in *.
  unfold header_parses in Hparse.
  apply andb_true_iff in Hparse as [_ Hneg].
  apply negb_true_iff, Z.ltb_ge in Hneg.
  unfold MPT_DISK_HEADER_SIZE in Hsize. lia.
Qed.

(** A successful open of a valid file leaves the reader at the start
    position, counted in units. *)
Lemma open_at (w : World) (d : list byte) (b sp : Z) :
  valid_file d -> supported_base b = true -> start_in_range b sp ->
  0 < open_pos d b sp ->
  stream_at d b (opened_reader w d b sp) (opened_world w) (sp * unit_step b).
Proof.
  intros Hvalid Hb Hrange Hpos. pose proof Hrange as [Hsp0 Hsp].
  destruct (valid_file_header d Hvalid) as [Hexpn Hlen]. cbv zeta in Hexpn, Hlen.
  set (hd := decode_header (slice 0 56 d)) in *.
  set (W := digits_per_limb b). set (Q := sp * unit_step b).
  assert (HW : 0 < W /\ 0 < unit_step b /\ (unit_step b | W) /\ 0 <= Q).
  { unfold W, Q, unit_step, digits_per_limb, bits_per_digit, BASE10_EXP.
    apply supported_base_iff in Hb.
    destruct Hb as [-> | [-> | ->]]; cbn [Z.eqb Pos.eqb];
      (split; [lia | split; [lia | split; [| lia]]]);
      [exists 19 | exists 64 | exists 16]; reflexivity. }
  destruct HW as [HW [Hstep [HdivW HQ]]].
  assert (Hscaled : scaled_start b sp = Q) by now apply scaled_start_units.
  assert (Hquot : Z.quot Q W = Q / W) by (apply Z.quot_div_nonneg; lia).
  assert (Hrem : Z.rem Q W = Q mod W) by (apply Z.rem_mod_nonneg; lia).
  assert (HQW : 0 <= Q / W <= Q).
  { split; [apply Z.div_pos; lia |]. apply Z.div_le_upper_bound; nia. }
  assert (HQ63 : Q < 2 ^ 63) by exact Hsp.
  assert (Hp : open_pos d b sp = frac_limbs d - Q / W).
  { unfold open_pos, frac_limbs. fold hd. rewrite start_limb_offset_s64, Hscaled.
    fold W. rewrite Hquot. apply s64_id. lia. }
  constructor.
  - split; [reflexivity |]. split; [exact Hb |].
    intros Hne. unfold opened_reader. reader_simpl.
    destruct (Z.eqb_spec b 10); [contradiction | auto].
  - reflexivity.
  - unfold opened_reader, opened_world. cbn [self w_blocks].
    apply mem_nat_tail, mem_nat_head.
  - eexists. split; [reflexivity |]. split; [reflexivity |].
    unfold opened_world. cbn [fd w_files]. apply mem_nat_head.
  - eexists. reflexivity.
  - unfold opened_reader. reader_simpl. fold hd. rewrite Hp in *.
    unfold frac_limbs in *. fold hd in Hpos |- *.
    unfold MPT_MAX_BUF_LEN. lia.
  - unfold opened_reader. reader_simpl. intros i Hi. lia.
  - unfold opened_reader. reader_simpl. rewrite Hscaled. fold W. rewrite Hrem.
    split; [apply Z.mod_pos_bound; lia |].
    rewrite Z.mod_eq by lia.
    apply Z.divide_sub_r.
    + unfold Q. apply Z.divide_mul_r, Z.divide_refl.
    + apply Z.divide_mul_l. exact HdivW.
  - unfold opened_reader. reader_simpl. split; [lia | apply Z.divide_0_r].
  - unfold opened_reader. reader_simpl. lia.
  - unfold opened_reader. reader_simpl. rewrite Hp, Hscaled. fold W. rewrite Hrem.
    pose proof (Z.div_mod Q W ltac:(lia)). lia.
Qed.

(** The refills of a stream over a valid file seek within [off_t]. *)
Lemma valid_file_offsets (w w0 : World) (name : string) (d : list byte) (b sp : Z)
      (s0 : MPTReader) :
  w_fs w name = Some d -> valid_file d -> start_in_range b sp ->
  mpt_reader_open name b sp w = Ok (Stream s0, w0) ->
  MPT_DISK_HEADER_SIZE + 8 * pos s0 < 2 ^ 63.
Proof.
  intros Hfs Hvalid Hrange Hopen.
  destruct (open_stream_inv _ _ _ _ _ _ Hopen) as [d' [Hb [Hfs' [_ [Hpos [-> _]]]]]].
  rewrite Hfs in Hfs'. injection Hfs' as <-.
  pose proof (open_at w d b sp Hvalid Hb Hrange Hpos) as Hat.
  destruct (at_bounds _ _ _ _ _ Hat) as [_ [_ [_ Hroom]]].
  rewrite (at_header _ _ _ _ _ Hat) in Hroom.
  destruct Hvalid as [_ [_ [Hsize Hoff]]]. cbv zeta in Hsize.
  change (buf_len (opened_reader w d b sp)) with 0 in Hroom.
  unfold MPT_DISK_HEADER_SIZE in *. lia.
Qed.

(** Start positions of a valid file at which the open fails lie past
    the last digit. *)
Lemma open_pos_past_end (d : list byte) (b sp : Z) :
  valid_file d -> supported_base b = true -> start_in_range b sp ->
  open_pos d b sp <= 0 -> total_units d b <= sp * unit_step b.
Proof.
  intros Hvalid Hb Hrange Hpos. pose proof Hrange as [Hsp0 Hsp].
  destruct (valid_file_header d Hvalid) as [Hexpn Hlen]. cbv zeta in Hexpn, Hlen.
  set (hd := decode_header (slice 0 56 d)) in *.
  unfold total_units.
  set (W := digits_per_limb b). set (Q := sp * unit_step b).
  assert (HW : 0 < W /\ 0 <= Q < 2 ^ 63).
  { split; [| split; [| exact Hsp]];
      unfold W, Q, unit_step, digits_per_limb, bits_per_digit, BASE10_EXP;
      apply supported_base_iff in Hb;
      destruct Hb as [-> | [-> | ->]]; cbn [Z.eqb Pos.eqb]; lia. }
  destruct HW as [HW HQ].
  assert (HQW : 0 <= Q / W <= Q).
  { split; [apply Z.div_pos; lia |]. apply Z.div_le_upper_bound; nia. }
  assert (Hp : open_pos d b sp = frac_limbs d - Q / W).
  { unfold open_pos, frac_limbs. fold hd.
    rewrite start_limb_offset_s64, scaled_start_units by assumption.
    fold Q W. rewrite Z.quot_div_nonneg by lia. apply s64_id. lia. }
  rewrite Hp in Hpos.
  pose proof (Z.div_mod Q W ltac:(lia)).
  pose proof (Z.mod_pos_bound Q W HW). nia.
Qed.

(** C1.  For a valid file, a start position [p >= 0], counts [j <= k]
    (with [p + j] a start position whose scaling at line 129 stays
    within 64 bits) and a stream opened at [p]: pulling [k] digits
    returns a sequence [ds], and a stream opened afresh at [p + j], in
    any state [wb] of the process in which the file is there (the state
    that the first stream left, for one), returns for [k - j] pulls [ds]
    without its first [j] digits, which are the last [k - j] digits of
    [ds] when all [k] were delivered.  When [p + j] lies at or past the
    last digit of the file, that second open fails at line 136, and [ds]
    has no digit beyond its first [j]. *)
Theorem position_consistency (w w1 wb : World) (name : string) (d : list byte)
        (b p : Z) (j k : nat) (s1 : MPTReader) :
  w_fs w name = Some d ->
  w_fs wb name = Some d ->
  valid_file d ->
  0 <= p -> (j <= k)%nat -> start_in_range b (p + Z.of_nat j) ->
  mpt_reader_open name b p w = Ok (Stream s1, w1) ->
  exists ds s1' w1',
    read_digits k s1 w1 = Ok (ds, s1', w1') /\
    (length ds = k -> skipn j ds = last_digits (k - j) ds) /\
    match mpt_reader_open name b (p + Z.of_nat j) wb with
    | Ok (Stream s2, w2) =>
        exists s2' w2', read_digits (k - j) s2 w2 = Ok (skipn j ds, s2', w2')
    | Ok (Null why, _) => why = PositionOutOfRangeError /\ skipn j ds = []
    | _ => False
    end.
Proof.
  intros Hfs Hfsb Hvalid Hp Hjk Hpj Hopen.
  destruct (open_stream_inv _ _ _ _ _ _ Hopen) as [d' [Hb [Hfs' [Hh [Hpos [-> ->]]]]]].
  rewrite Hfs in Hfs'. injection Hfs' as <-.
  assert (Hstep : 0 <= unit_step b).
  { unfold unit_step, bits_per_digit. destruct (b =? 10); [lia |]. destruct (b =? 2); lia. }
  assert (Hrp : start_in_range b p).
  { destruct Hpj as [_ Hpj]. split; [exact Hp | nia]. }
  assert (Hat1 : stream_at d b (opened_reader w d b p) (opened_world w) (p * unit_step b))
    by (apply open_at; assumption).
  destruct (read_digits_at d b k _ _ _ Hvalid Hat1) as [s1' [w1' Hread1]].
  exists (stream_spec d b k (p * unit_step b)), s1', w1'.
  split; [exact Hread1 |].
  split.
  { intros Hlen. unfold last_digits. rewrite Hlen. f_equal. lia. }
  rewrite stream_spec_skipn by exact Hstep.
  replace (p * unit_step b + Z.of_nat j * unit_step b)
    with ((p + Z.of_nat j) * unit_step b) by ring.
  destruct (Z.ltb_spec 0 (open_pos d b (p + Z.of_nat j))) as [Hpos2 | Hpos2].
  - rewrite (open_stream wb name d b (p + Z.of_nat j) Hb Hfsb Hh Hpos2).
    apply (read_digits_at d b (k - j)); [exact Hvalid |].
    apply open_at; assumption.
  - rewrite (open_out_of_range wb name d b (p + Z.of_nat j) Hb Hfsb Hh Hpos2).
    split; [reflexivity |].
    apply stream_spec_end. apply open_pos_past_end; assumption.
Qed.

Lemma pi_file_valid : valid_file pi_file.
Proof.
  unfold valid_file. cbv zeta. split; [vm_compute; reflexivity |].
  split; [vm_compute; discriminate |].
  split; [vm_compute; discriminate | vm_compute; reflexivity].
Defined.

(** The one-limb file of the examples: 9 digits from position 3 are
    "159265358", and 5 digits from position 7, pulled from a second
    stream that is opened after the first one was read, are "65358". *)
Lemma position_consistency_witness :
  exists ds s1' w1',
    read_digits 9 (opened_reader pi_world pi_file 10 3) (opened_world pi_world)
    = Ok (ds, s1', w1') /\
    (length ds = 9%nat -> skipn 4 ds = last_digits (9 - 4) ds) /\
    match mpt_reader_open "pi" 10 (3 + Z.of_nat 4) pi_world_after_9 with
    | Ok (Stream s2, w2) =>
        exists s2' w2', read_digits (9 - 4) s2 w2 = Ok (skipn 4 ds, s2', w2')
    | Ok (Null why, _) => why = PositionOutOfRangeError /\ skipn 4 ds = []
    | _ => False
    end.
Proof.
  apply (position_consistency pi_world (opened_world pi_world) pi_world_after_9
           "pi" pi_file 10 3 4 9 (opened_reader pi_world pi_file 10 3)).
  - reflexivity.
  - vm_compute. reflexivity.
  - exact pi_file_valid.
  - lia.
  - lia.
  - split; vm_compute; [discriminate | reflexivity].
  - apply open_stream; reflexivity.
Defined.

(* ================================================================== *)
(** * Further properties of the reader and of [dump_digits] *)

(** ** What an open returns, and what it reads *)

(** X1.  The outcomes of the open, for a start position whose scaling
    at line 129 does not overflow (and with [malloc] succeeding, as
    throughout: a failing [malloc] at line 105 is a fifth way to NULL,
    which the embedding leaves out).  The open then neither aborts nor
    leaves defined behaviour, and its checks come in a fixed order: the
    base (before the file is even opened: the process state is
    untouched), the existence of the file, the header, the start
    position.  Each result names the first check that failed; a stream
    is returned when none did. *)
Theorem open_outcomes (w : World) (name : string) (b sp : Z) :
  (supported_base b = true -> scaling_fits b sp) ->
  match mpt_reader_open name b sp w with
  | Ok (Null UnsupportedBaseError, w') => supported_base b = false /\ w' = w
  | Ok (Null IoError, _) => supported_base b = true /\ w_fs w name = None
  | Ok (Null FormatError, _) =>
      supported_base b = true /\
      exists d, w_fs w name = Some d /\ header_parses d = false
  | Ok (Null PositionOutOfRangeError, _) =>
      supported_base b = true /\
      exists d, w_fs w name = Some d /\ header_parses d = true /\ open_pos d b sp <= 0
  | Ok (Stream s, w') =>
      supported_base b = true /\
      exists d, w_fs w name = Some d /\ header_parses d = true /\ 0 < open_pos d b sp /\
                s = opened_reader w d b sp /\ w' = opened_world w
  | Abort | Fault => False
  end.
Proof.
  intros _.
  destruct (supported_base b) eqn:Hb.
  2:{ rewrite open_unsupported by exact Hb. auto. }
  destruct (w_fs w name) as [d|] eqn:Hfs.
  2:{ destruct (open_missing w name b sp Hb Hfs) as [w' [-> _]]. auto. }
  destruct (header_parses d) eqn:Hh.
  2:{ destruct (open_bad_header w name d b sp Hb Hfs Hh) as [w' [-> _]].
      split; [reflexivity |]. exists d. auto. }
  destruct (Z.ltb_spec 0 (open_pos d b sp)) as [Hp | Hp].
  - rewrite (open_stream w name d b sp Hb Hfs Hh Hp).
    split; [reflexivity |]. exists d. repeat split; auto.
  - rewrite (open_out_of_range w name d b sp Hb Hfs Hh Hp).
    split; [reflexivity |]. exists d. auto.
Qed.

(** The two-limb file in base 16 at start position 32, one past its 32
    hexadecimal digits: the last check fails. *)
Lemma open_outcomes_witness :
  match mpt_reader_open "pi2" 16 32 two_limb_world with
  | Ok (Null UnsupportedBaseError, w') =>
      supported_base 16 = false /\ w' = two_limb_world
  | Ok (Null IoError, _) => supported_base 16 = true /\ w_fs two_limb_world "pi2" = None
  | Ok (Null FormatError, _) =>
      supported_base 16 = true /\
      exists d, w_fs two_limb_world "pi2" = Some d /\ header_parses d = false
  | Ok (Null PositionOutOfRangeError, _) =>
      supported_base 16 = true /\
      exists d, w_fs two_limb_world "pi2" = Some d /\ header_parses d = true /\
                open_pos d 16 32 <= 0
  | Ok (Stream s, w') =>
      supported_base 16 = true /\
      exists d, w_fs two_limb_world "pi2" = Some d /\ header_parses d = true /\
                0 < open_pos d 16 32 /\
                s = opened_reader two_limb_world d 16 32 /\ w' = opened_world two_limb_world
  | Abort | Fault => False
  end.
Proof.
  apply (open_outcomes two_limb_world "pi2" 16 32).
  intros _. split; vm_compute; [discriminate | reflexivity].
Defined.

(** X2.  Whatever it returns, an open reads nothing but the header: at most
    one read, at offset 0, of at most 56 bytes.  It reads nothing at all
    when the base is not supported or the file does not exist, and it
    never changes the files. *)
Theorem open_reads_header_only (w : World) (name : string) (b sp : Z) :
  match mpt_reader_open name b sp w with
  | Ok (_, w') =>
      w_fs w' = w_fs w /\
      (w_reads w' = w_reads w \/
       exists handle n, w_reads w' = EvRead handle 0 n :: w_reads w /\ 0 <= n <= 56) /\
      (supported_base b = false \/ w_fs w name = None -> w_reads w' = w_reads w)
  | Abort | Fault => False
  end.
Proof.
  destruct (supported_base b) eqn:Hb.
  2:{ rewrite open_unsupported by exact Hb. auto. }
  destruct (w_fs w name) as [d|] eqn:Hfs.
  2:{ destruct (open_missing w name b sp Hb Hfs) as [w' [-> [Hf [Hr _]]]]. auto. }
  destruct (header_parses d) eqn:Hh.
  2:{ destruct (open_bad_header w name d b sp Hb Hfs Hh) as [w' [-> [Hf [Hr _]]]].
      split; [exact Hf |]. split; [| intros [H | H]; discriminate H].
      right. eexists. eexists. split; [exact Hr |].
      pose proof (length_slice_le 0 56 d). lia. }
  destruct (Z.ltb_spec 0 (open_pos d b sp)) as [Hp | Hp].
  - rewrite (open_stream w name d b sp Hb Hfs Hh Hp).
    split; [reflexivity |]. split; [| intros [H | H]; discriminate H].
    right. eexists. eexists. split; [reflexivity | lia].
  - rewrite (open_out_of_range w name d b sp Hb Hfs Hh Hp).
    split; [reflexivity |]. split; [| intros [H | H]; discriminate H].
    right. eexists. eexists. split; [reflexivity | lia].
Qed.

Lemma bytes_eqb_eq (a b : list byte) : bytes_eqb a b = true <-> a = b.
Proof.
  revert b. induction a as [|x a IH]; intros [|y b]; cbn [bytes_eqb];
    try (split; [discriminate | discriminate]); [tauto |].
  rewrite andb_true_iff, IH. split.
  - intros [Hxy ->]. f_equal.
    destruct (Byte.byte_dec_bl x y Hxy). reflexivity.
  - intros Heq. injection Heq as -> ->. split; [apply Byte.byte_dec_lb |]; reflexivity.
Qed.

Lemma decode_header_full (d : list byte) :
  (56 <= length d)%nat ->
  decode_header (slice 0 56 d)
  = mkHeader (slice 0 8 d) (le_combine (slice 8 8 d)) (le_combine (slice 16 8 d))
             (le_combine (slice 24 8 d)) (le_combine (slice 32 8 d))
             (le_combine (slice 40 8 d)) (s64 (le_combine (slice 48 8 d))).
Proof.
  intros Hl. unfold decode_header. cbv zeta.
  assert (Hraw : firstn 56 (slice 0 56 d ++ repeat Byte.x00 56) = slice 0 56 d).
  { rewrite firstn_app, length_slice_full by lia.
    rewrite Nat.sub_diag, firstn_O, app_nil_r.
    apply firstn_all2. rewrite length_slice_full; lia. }
  rewrite Hraw. rewrite !slice_slice by lia. reflexivity.
Qed.

(** X3.  The files that pass the header checks of lines 113-120, byte
    by byte: at least 56 bytes, of which the first 8 are the magic
    ["MPT\1FILE"], bytes 24..31 are the little-endian 2 of
    [MPT_TYPE_MPF], and bytes 48..55, the exponent, have their sign bit
    clear.  The fields [len], [allocated_len], [negative] and [base] are
    not looked at. *)
Theorem header_parses_bytes (d : list byte) :
  header_parses d = true <->
  (56 <= length d)%nat /\
  slice 0 8 d = mpt_magic /\
  slice 24 8 d = mpf_type_bytes /\
  le_combine (slice 48 8 d) < 2 ^ 63.
Proof.
  unfold header_parses. cbv zeta.
  destruct (Z.leb_spec 56 (Z.of_nat (length d))) as [Hl | Hl].
  2:{ cbn [andb]. split; [discriminate | intros [H _]; lia]. }
  rewrite decode_header_full by lia. cbn [h_magic h_type h_expn andb].
  rewrite !andb_true_iff, bytes_eqb_eq, negb_true_iff, Z.eqb_eq, Z.ltb_ge.
  assert (Htype : le_combine (slice 24 8 d) = MPT_TYPE_MPF <-> slice 24 8 d = mpf_type_bytes).
  { split.
    - intros Heq. apply le_combine_inj.
      + rewrite length_slice_full by lia. reflexivity.
      + rewrite Heq. reflexivity.
    - intros ->. reflexivity. }
  assert (Hexpn : 0 <= s64 (le_combine (slice 48 8 d)) <-> le_combine (slice 48 8 d) < 2 ^ 63).
  { pose proof (le_combine_bound (slice 48 8 d)) as Hb.
    rewrite length_slice_full in Hb by lia.
    change (2 ^ (8 * Z.of_nat 8)) with (2 ^ 64) in Hb.
    unfold s64. split.
    - intros H. destruct (Z_lt_ge_dec (le_combine (slice 48 8 d)) (2 ^ 63)) as [Hlt | Hge];
        [exact Hlt |].
      exfalso.
      replace (le_combine (slice 48 8 d) + 2 ^ 63)
        with ((le_combine (slice 48 8 d) - 2 ^ 63) + 1 * 2 ^ 64) in H by ring.
      rewrite Z.mod_add, Z.mod_small in H by lia. lia.
    - intros H. rewrite Z.mod_small by lia. lia. }
  rewrite Htype, Hexpn. split.
  - intros [[H1 H2] H3]. repeat split; auto. lia.
  - intros [_ [H1 [H2 H3]]]. auto.
Qed.

(** ** The digits, by their index *)

Lemma spec_digits_facts (b : Z) :
  supported_base b = true ->
  0 < unit_step b /\ 0 < spec_digits_per_limb b /\
  digits_per_limb b = spec_digits_per_limb b * unit_step b /\ 1 < b.
Proof.
  intros Hb. apply supported_base_iff in Hb.
  destruct Hb as [-> | [-> | ->]]; cbv; repeat split.
Qed.

(** The digit that the reader takes at the unit of digit [P] is digit
    [P] of the number: shifting and masking, in the bases 2 and 16, is
    dividing by a power of the base and reducing modulo the base. *)
Lemma unit_digit_number (d : list byte) (b P : Z) :
  supported_base b = true ->
  unit_digit d b (P * unit_step b) = number_digit d b P.
Proof.
  intros Hb. apply supported_base_iff in Hb.
  unfold unit_digit, number_digit, digits_per_limb, spec_digits_per_limb, unit_step,
    bits_per_digit, BASE10_EXP.
  destruct Hb as [-> | [-> | ->]]; cbn [Z.eqb Pos.eqb]; cbv zeta.
  - rewrite Z.mul_1_r. reflexivity.
  - rewrite Z.mul_1_r. change (64 / 1) with 64.
    change (Z.shiftl 1 1 - 1) with (Z.ones 1).
    pose proof (Z.mod_pos_bound P 64 ltac:(lia)) as Hr.
    rewrite Z.land_ones, Z.shiftr_div_pow2 by lia.
    replace (64 - P mod 64 - 1) with (64 - 1 - P mod 64) by ring. reflexivity.
  - change (64 / 4) with 16. change (Z.shiftl 1 4 - 1) with (Z.ones 4).
    replace (P * 4 / 64) with (P / 16)
      by (symmetry; apply (Z.div_mul_cancel_r P 16 4); lia).
    replace ((P * 4) mod 64) with (P mod 16 * 4)
      by (symmetry; apply (Z.mul_mod_distr_r P 16 4); lia).
    pose proof (Z.mod_pos_bound P 16 ltac:(lia)) as Hr.
    rewrite Z.land_ones, Z.shiftr_div_pow2 by lia.
    replace (64 - P mod 16 * 4 - 4) with (4 * (16 - 1 - P mod 16)) by ring.
    rewrite Z.pow_mul_r by lia. reflexivity.
Qed.

Lemma digits_from_cons (d : list byte) (b P : Z) (m : nat) :
  digits_from d b P (S m) = number_digit d b P :: digits_from d b (P + 1) m.
Proof.
  unfold digits_from. cbn [seq map]. change (Z.of_nat 0) with 0. rewrite Z.add_0_r.
  f_equal. rewrite <- seq_shift, map_map. apply map_ext.
  intros i. f_equal. lia.
Qed.

Lemma length_digits_from (d : list byte) (b P : Z) (m : nat) :
  length (digits_from d b P m) = m.
Proof. unfold digits_from. rewrite length_map, length_seq. reflexivity. Qed.

Lemma stream_spec_digits (d : list byte) (b : Z) (n : nat) :
  forall P : Z,
    supported_base b = true ->
    stream_spec d b n (P * unit_step b) = digits_from d b P (delivered d b P n).
Proof.
  induction n as [|n IH]; intros P Hb.
  - unfold delivered. cbn [stream_spec].
    replace (Z.to_nat _) with 0%nat by lia. reflexivity.
  - cbn [stream_spec]. destruct (spec_digits_facts b Hb) as [Hs [HD [HW _]]].
    unfold total_units. rewrite HW.
    destruct (Z.ltb_spec (P * unit_step b)
                (spec_digits_per_limb b * unit_step b * frac_limbs d)) as [Hlt | Hge].
    + assert (Hav : P < avail_digits d b) by (unfold avail_digits; nia).
      replace (delivered d b P (S n)) with (S (delivered d b (P + 1) n))
        by (unfold delivered; lia).
      rewrite digits_from_cons, unit_digit_number by assumption. f_equal.
      replace (P * unit_step b + unit_step b) with ((P + 1) * unit_step b) by ring.
      apply IH; assumption.
    + assert (Hav : avail_digits d b <= P) by (unfold avail_digits; nia).
      replace (delivered d b P (S n)) with 0%nat by (unfold delivered; lia).
      reflexivity.
Qed.

(** Pulling digits from a reader at unit [q] leaves the reader just
    after the digits it delivered. *)
Lemma read_digits_at_state (d : list byte) (b : Z) (n : nat) :
  forall (s : MPTReader) (w : World) (q : Z),
    valid_file d -> stream_at d b s w q ->
    exists s' w',
      read_digits n s w = Ok (stream_spec d b n q, s', w') /\
      stream_at d b s' w' (q + Z.of_nat (length (stream_spec d b n q)) * unit_step b).
Proof.
  induction n as [|n IH]; intros s w q Hvalid Hat.
  - exists s, w. split; [reflexivity |]. cbn [stream_spec length].
    change (Z.of_nat 0) with 0. rewrite Z.mul_0_l, Z.add_0_r. exact Hat.
  - pose proof (get_digit_at d b s w q Hvalid Hat) as Hget.
    unfold read_digits. cbn [pull stream_spec]. unfold bind.
    destruct (q <? total_units d b).
    + destruct Hget as [s1 [w1 [Hget Hat1]]]. rewrite Hget.
      pose proof (unit_digit_nonneg d b q ltac:(apply (at_base _ _ _ _ _ Hat))) as Hnn.
      destruct (Z.ltb_spec (unit_digit d b q) 0) as [Hneg | _]; [lia |].
      destruct (IH s1 w1 _ Hvalid Hat1) as [s2 [w2 [Hrest Hat2]]].
      fold (read_digits n s1 w1). rewrite Hrest.
      exists s2, w2. split; [reflexivity |]. cbn [length].
      replace (q + Z.of_nat (S (length (stream_spec d b n (q + unit_step b)))) * unit_step b)
        with (q + unit_step b
              + Z.of_nat (length (stream_spec d b n (q + unit_step b))) * unit_step b)
        by (rewrite Nat2Z.inj_succ; ring).
      exact Hat2.
    + rewrite Hget. change (-1 <? 0) with true. cbv iota.
      exists s, w. split; [reflexivity |]. cbn [length].
      change (Z.of_nat 0) with 0. rewrite Z.mul_0_l, Z.add_0_r. exact Hat.
Qed.

(** For a valid file, the open succeeds exactly at the positions of the
    digits that the file holds. *)
Lemma open_pos_in_range (d : list byte) (b sp : Z) :
  valid_file d -> supported_base b = true -> start_in_range b sp ->
  (0 < open_pos d b sp <-> sp < avail_digits d b).
Proof.
  intros Hv Hb Hr. destruct (valid_file_header d Hv) as [He Hl]. cbv zeta in He, Hl.
  destruct (spec_digits_facts b Hb) as [Hs [HD _]].
  pose proof Hr as [Hsp0 Hsp].
  assert (Hq : 0 <= sp / spec_digits_per_limb b <= sp).
  { split; [apply Z.div_pos; lia |]. apply Z.div_le_upper_bound; nia. }
  assert (Hsp' : sp < 2 ^ 63) by nia.
  rewrite open_pos_exact by (try assumption; unfold spec_limb_offset; lia).
  unfold spec_limb_offset, avail_digits, frac_limbs. cbv zeta.
  set (L := h_len _ - h_expn _). split; intros H.
  - destruct (Z_lt_ge_dec sp (spec_digits_per_limb b * L)) as [Hlt | Hge]; [exact Hlt |].
    assert (L <= sp / spec_digits_per_limb b) by (apply Z.div_le_lower_bound; lia). lia.
  - assert (sp / spec_digits_per_limb b < L) by (apply Z.div_lt_upper_bound; lia). lia.
Qed.

(** Open at digit [sp] of a valid file, then pull [n] digits. *)
Lemma open_read_at (w : World) (name : string) (d : list byte) (b sp : Z) (n : nat) :
  w_fs w name = Some d -> valid_file d -> supported_base b = true ->
  start_in_range b sp -> sp < avail_digits d b ->
  mpt_reader_open name b sp w = Ok (Stream (opened_reader w d b sp), opened_world w) /\
  exists s' w',
    read_digits n (opened_reader w d b sp) (opened_world w)
    = Ok (digits_from d b sp (delivered d b sp n), s', w') /\
    stream_at d b s' w' ((sp + Z.of_nat (delivered d b sp n)) * unit_step b).
Proof.
  intros Hfs Hv Hb Hr Hav.
  assert (Hpos : 0 < open_pos d b sp) by (apply open_pos_in_range; assumption).
  split; [apply open_stream; try assumption; apply Hv |].
  pose proof (open_at w d b sp Hv Hb Hr Hpos) as Hat.
  destruct (read_digits_at_state d b n _ _ _ Hv Hat) as [s' [w' [Hread Hat']]].
  rewrite stream_spec_digits in Hread, Hat' by assumption.
  rewrite length_digits_from in Hat'.
  exists s', w'. split; [exact Hread |].
  replace ((sp + Z.of_nat (delivered d b sp n)) * unit_step b)
    with (sp * unit_step b + Z.of_nat (delivered d b sp n) * unit_step b) by ring.
  exact Hat'.
Qed.

Lemma two_limb_file_valid : valid_file two_limb_file.
Proof.
  unfold valid_file. cbv zeta. split; [vm_compute; reflexivity |].
  split; [vm_compute; discriminate |].
  split; [vm_compute; discriminate | vm_compute; reflexivity].
Defined.

Lemma mixed_file_valid : valid_file mixed_file.
Proof.
  unfold valid_file. cbv zeta. split; [vm_compute; reflexivity |].
  split; [vm_compute; discriminate |].
  split; [vm_compute; discriminate | vm_compute; reflexivity].
Defined.

(** X4.  The digits of a valid file, by their index.  With [D] digits
    in a limb (19 in base 10, 16 in base 16, 64 in base 2) and [L = len -
    expn] fractional limbs, the file holds the [D * L] digits 0, 1, ...
    of the fraction, and digit [P] is digit [P mod D], counted from the
    most significant end, of limb [L - 1 - P / D]: the limbs are read
    from the last one of the fraction down to limb 0.  A stream opened at
    a start position [sp] below [D * L] delivers, for [n] pulls, the
    digits [sp], [sp + 1], ... in this order, [min(n, D * L - sp)] of
    them, and once digit [D * L - 1] is delivered the next call returns
    -1.  At a start position from [D * L] on the open fails at line
    136. *)
Theorem digits_by_index (w : World) (name : string) (d : list byte) (b sp : Z) (n : nat) :
  w_fs w name = Some d -> valid_file d -> supported_base b = true ->
  start_in_range b sp ->
  (sp < avail_digits d b ->
   exists s0 w0 s' w',
     mpt_reader_open name b sp w = Ok (Stream s0, w0) /\
     read_digits n s0 w0 = Ok (digits_from d b sp (delivered d b sp n), s', w') /\
     (avail_digits d b <= sp + Z.of_nat n ->
      mpt_reader_get_digit s' w' = Ok (-1, s', w'))) /\
  (avail_digits d b <= sp ->
   exists w0, mpt_reader_open name b sp w = Ok (Null PositionOutOfRangeError, w0)).
Proof.
  intros Hfs Hv Hb Hr. split; intros Hav.
  - destruct (open_read_at w name d b sp n Hfs Hv Hb Hr Hav)
      as [Hopen [s' [w' [Hread Hat]]]].
    exists (opened_reader w d b sp), (opened_world w), s', w'.
    split; [exact Hopen |]. split; [exact Hread |].
    intros Hend. pose proof (get_digit_at d b s' w' _ Hv Hat) as Hget.
    destruct (spec_digits_facts b Hb) as [Hs [HD [HW _]]].
    destruct (Z.ltb_spec ((sp + Z.of_nat (delivered d b sp n)) * unit_step b)
                (total_units d b)) as [Hlt | _]; [| exact Hget].
    exfalso. unfold total_units in Hlt. rewrite HW in Hlt.
    assert (Hd : Z.of_nat (delivered d b sp n) = avail_digits d b - sp)
      by (unfold delivered; lia).
    rewrite Hd in Hlt. unfold avail_digits in Hlt. nia.
  - eexists. apply (open_out_of_range w name d b sp Hb Hfs); [apply Hv |].
    destruct (Z_lt_ge_dec 0 (open_pos d b sp)) as [Hpos | Hpos]; [| lia].
    apply open_pos_in_range in Hpos; try assumption. lia.
Qed.

(** The two-limb file holds 38 decimal digits: 20 pulls from digit 30
    deliver the 8 digits "02884197", then -1. *)
Lemma digits_by_index_witness :
  (30 < avail_digits two_limb_file 10 ->
   exists s0 w0 s' w',
     mpt_reader_open "pi2" 10 30 two_limb_world = Ok (Stream s0, w0) /\
     read_digits 20 s0 w0
     = Ok (digits_from two_limb_file 10 30 (delivered two_limb_file 10 30 20), s', w') /\
     (avail_digits two_limb_file 10 <= 30 + Z.of_nat 20 ->
      mpt_reader_get_digit s' w' = Ok (-1, s', w'))) /\
  (avail_digits two_limb_file 10 <= 30 ->
   exists w0, mpt_reader_open "pi2" 10 30 two_limb_world
              = Ok (Null PositionOutOfRangeError, w0)).
Proof.
  apply (digits_by_index two_limb_world "pi2" two_limb_file 10 30 20).
  - reflexivity.
  - exact two_limb_file_valid.
  - reflexivity.
  - split; vm_compute; [discriminate | reflexivity].
Defined.

(** ** Limbs from their digits *)

Lemma horner_digits (a b D : Z) (m : nat) :
  1 < b -> Z.of_nat m <= D ->
  digits_number b (map (fun t => (a / b ^ (D - 1 - Z.of_nat t)) mod b) (seq 0 m))
  = (a / b ^ (D - Z.of_nat m)) mod b ^ Z.of_nat m.
Proof.
  intros Hb. unfold digits_number. induction m as [|m IH]; intros Hm.
  - cbn [seq map fold_left]. change (Z.of_nat 0) with 0.
    rewrite Z.pow_0_r, Z.mod_1_r. reflexivity.
  - rewrite seq_S, map_app, fold_left_app. cbn [map fold_left Nat.add]. rewrite IH by lia.
    set (x := a / b ^ (D - 1 - Z.of_nat m)).
    assert (Hp : 0 < b ^ (D - 1 - Z.of_nat m)) by (apply Z.pow_pos_nonneg; lia).
    replace (a / b ^ (D - Z.of_nat m)) with (x / b).
    2:{ unfold x. rewrite Z.div_div by lia. f_equal.
        replace (D - Z.of_nat m) with (Z.succ (D - 1 - Z.of_nat m)) by lia.
        rewrite Z.pow_succ_r by lia. ring. }
    replace (D - Z.of_nat (S m)) with (D - 1 - Z.of_nat m) by lia. fold x.
    rewrite Nat2Z.inj_succ, Z.pow_succ_r by lia.
    rewrite Z.rem_mul_r by (try apply Z.pow_pos_nonneg; lia). ring.
Qed.

Lemma digits_from_limb (d : list byte) (b i : Z) :
  0 < spec_digits_per_limb b ->
  digits_from d b (spec_digits_per_limb b * i) (Z.to_nat (spec_digits_per_limb b))
  = map (fun t => (file_limb d (frac_limbs d - 1 - i)
                   / b ^ (spec_digits_per_limb b - 1 - Z.of_nat t)) mod b)
        (seq 0 (Z.to_nat (spec_digits_per_limb b))).
Proof.
  intros HD. unfold digits_from. apply map_ext_in. intros t Ht.
  apply in_seq in Ht. unfold number_digit. cbv zeta.
  set (D := spec_digits_per_limb b) in *.
  assert (Hq : (D * i + Z.of_nat t) / D = i)
    by (symmetry; apply Z.div_unique_pos with (r := Z.of_nat t); lia).
  assert (Hr : (D * i + Z.of_nat t) mod D = Z.of_nat t)
    by (symmetry; apply Z.mod_unique_pos with (q := i); lia).
  rewrite Hq, Hr. reflexivity.
Qed.

(** X5.  Limbs from their digits.  The [D] digits that a stream opened
    at the limb-aligned position [D * i] of a valid file delivers are a
    whole limb, most significant digit first: read as a number in base
    [b] they are limb [L - 1 - i] itself in the bases 2 and 16 (64 bits
    and 16 hexadecimal digits cover the 64 bits of a limb), and the limb
    modulo [10^19] in base 10: of a limb from [10^19] on, the leading
    decimal digit is not delivered. *)
Theorem limb_from_digits (w : World) (name : string) (d : list byte) (b i : Z) :
  w_fs w name = Some d -> valid_file d -> supported_base b = true ->
  0 <= i < frac_limbs d ->
  start_in_range b (spec_digits_per_limb b * i) ->
  exists s0 w0 ds s' w',
    mpt_reader_open name b (spec_digits_per_limb b * i) w = Ok (Stream s0, w0) /\
    read_digits (Z.to_nat (spec_digits_per_limb b)) s0 w0 = Ok (ds, s', w') /\
    length ds = Z.to_nat (spec_digits_per_limb b) /\
    digits_number b ds
    = file_limb d (frac_limbs d - 1 - i) mod b ^ spec_digits_per_limb b /\
    (b <> 10 -> digits_number b ds = file_limb d (frac_limbs d - 1 - i)).
Proof.
  intros Hfs Hv Hb Hi Hr.
  destruct (spec_digits_facts b Hb) as [Hs [HD [HW Hb1]]].
  set (D := spec_digits_per_limb b) in *.
  assert (Hav : D * i < avail_digits d b) by (unfold avail_digits; fold D; nia).
  destruct (open_read_at w name d b (D * i) (Z.to_nat D) Hfs Hv Hb Hr Hav)
    as [Hopen [s' [w' [Hread _]]]].
  assert (Hdel : delivered d b (D * i) (Z.to_nat D) = Z.to_nat D).
  { unfold delivered, avail_digits. fold D. f_equal. nia. }
  rewrite Hdel in Hread. unfold D in Hread at 2. rewrite digits_from_limb in Hread by exact HD.
  fold D in Hread.
  eexists. eexists. eexists. exists s', w'.
  split; [exact Hopen |]. split; [exact Hread |].
  split; [rewrite length_map, length_seq; reflexivity |].
  assert (Hnum : digits_number b
                   (map (fun t => (file_limb d (frac_limbs d - 1 - i)
                                   / b ^ (D - 1 - Z.of_nat t)) mod b)
                        (seq 0 (Z.to_nat D)))
                 = file_limb d (frac_limbs d - 1 - i) mod b ^ D).
  { rewrite horner_digits by lia. rewrite Z2Nat.id by lia.
    rewrite Z.sub_diag, Z.pow_0_r, Z.div_1_r. reflexivity. }
  split; [exact Hnum |].
  intros Hb10. rewrite Hnum. apply Z.mod_small.
  pose proof (file_limb_range d (frac_limbs d - 1 - i)) as Hrange.
  apply supported_base_iff in Hb. unfold D, spec_digits_per_limb, bits_per_digit.
  destruct Hb as [-> | [-> | ->]]; [congruence | |]; cbn [Z.eqb Pos.eqb].
  - change (2 ^ (64 / 1)) with (2 ^ 64). exact Hrange.
  - change (16 ^ (64 / 4)) with (2 ^ 64). exact Hrange.
Qed.

(** The hexadecimal digits 16..31 of the two-limb file are the limb
    stored first. *)
Lemma limb_from_digits_witness :
  exists s0 w0 ds s' w',
    mpt_reader_open "pi2" 16 (spec_digits_per_limb 16 * 1) two_limb_world
    = Ok (Stream s0, w0) /\
    read_digits (Z.to_nat (spec_digits_per_limb 16)) s0 w0 = Ok (ds, s', w') /\
    length ds = Z.to_nat (spec_digits_per_limb 16) /\
    digits_number 16 ds
    = file_limb two_limb_file (frac_limbs two_limb_file - 1 - 1)
      mod 16 ^ spec_digits_per_limb 16 /\
    (16 <> 10 ->
     digits_number 16 ds = file_limb two_limb_file (frac_limbs two_limb_file - 1 - 1)).
Proof.
  apply (limb_from_digits two_limb_world "pi2" two_limb_file 16 1).
  - reflexivity.
  - exact two_limb_file_valid.
  - reflexivity.
  - split; vm_compute; [discriminate | reflexivity].
  - split; vm_compute; [discriminate | reflexivity].
Defined.

(** ** Characters *)

(** Pulling characters is pulling digits and writing each as its
    character: the calls, and the state they leave, are the same. *)
Lemma read_chars_digits (n : nat) :
  forall (s : MPTReader) (w : World),
    read_chars n s w =
    match read_digits n s w with
    | Ok (ds, s', w') => Ok (map digit_char ds, s', w')
    | Abort => Abort
    | Fault => Fault
    end.
Proof.
  induction n as [|n IH]; intros s w; [reflexivity |].
  unfold read_chars, read_digits. cbn [pull]. unfold bind at 1 3.
  rewrite getc_eq.
  destruct (mpt_reader_get_digit s w) as [[[c s1] w1] | |]; [| reflexivity | reflexivity].
  destruct (Z.ltb_spec c 0) as [Hneg | Hnn].
  - destruct (Z.ltb_spec c 0) as [_ | H]; [reflexivity | lia].
  - assert (Hch : (if c <? 10 then c + 48 else c + 55) = digit_char c) by reflexivity.
    rewrite Hch.
    assert (Hpos : (digit_char c <? 0) = false).
    { apply Z.ltb_ge. unfold digit_char. destruct (c <? 10); lia. }
    rewrite Hpos. unfold bind.
    fold (read_chars n s1 w1). fold (read_digits n s1 w1). rewrite IH.
    destruct (read_digits n s1 w1) as [[[ds s2] w2] | |]; reflexivity.
Qed.

(** X6.  The characters of [mpt_reader_getc].  On a stream that
    [mpt_reader_open] returned, after any calls, a call of
    [mpt_reader_getc] that returns gives either -1, or one of the
    characters '0'..'9' and 'A'..'F' (upper case), whose value as a
    hexadecimal digit is below the base (so '0'..'9' in base 10, '0' and
    '1' in base 2); the digit it stands for, the reader and the process
    state are those of the call of [mpt_reader_get_digit] in its
    place. *)
Theorem getc_characters (w w0 w1 w' : World) (name : string) (b sp : Z)
        (s0 s s' : MPTReader) (c : Z) :
  mpt_reader_open name b sp w = Ok (Stream s0, w0) ->
  run s0 w0 s w1 ->
  mpt_reader_getc s w1 = Ok (c, s', w') ->
  (c = -1 /\ mpt_reader_get_digit s w1 = Ok (-1, s', w')) \/
  (((48 <= c <= 57) \/ (65 <= c <= 70)) /\
   (0 <= hex_value c < b) /\
   mpt_reader_get_digit s w1 = Ok (hex_value c, s', w')).
Proof.
  intros Hopen Hrun Hgetc.
  destruct (open_stream_inv _ _ _ _ _ _ Hopen) as [d [Hb [_ [_ [Hpos [-> ->]]]]]].
  pose proof (opened_reader_ok w d b sp Hb Hpos) as Hok0.
  destruct (run_ok _ _ _ _ Hok0 Hrun) as [Hok Hbase].
  change (base (opened_reader w d b sp)) with b in Hbase.
  rewrite getc_eq in Hgetc.
  destruct (mpt_reader_get_digit s w1) as [[[c0 s1] w2] | |] eqn:Hget; try discriminate.
  destruct (get_digit_ok _ _ _ _ _ Hok Hget) as [_ [_ Hc0]].
  rewrite Hbase in Hc0.
  assert (Hb16 : b <= 16)
    by (apply supported_base_iff in Hb; destruct Hb as [-> | [-> | ->]]; lia).
  injection Hgetc as <- <- <-.
  destruct Hc0 as [-> | Hc0]; [left; split; reflexivity | right].
  destruct (Z.ltb_spec c0 0) as [Hneg | _]; [lia |].
  unfold hex_value.
  destruct (Z.ltb_spec c0 10) as [Hlt | Hge].
  - destruct (Z.leb_spec 48 (c0 + 48)); [| lia].
    destruct (Z.leb_spec (c0 + 48) 57); [| lia]. cbn [andb].
    replace (c0 + 48 - 48) with c0 by ring.
    split; [left; lia |]. split; [lia | reflexivity].
  - destruct (Z.leb_spec 48 (c0 + 55)); [| lia].
    destruct (Z.leb_spec (c0 + 55) 57); [lia |]. cbn [andb].
    destruct (Z.leb_spec 65 (c0 + 55)); [| lia].
    destruct (Z.leb_spec (c0 + 55) 70); [| lia]. cbn [andb].
    replace (c0 + 55 - 55) with c0 by ring.
    split; [right; lia |]. split; [lia | reflexivity].
Qed.

(** The first hexadecimal digit of the two-limb file is '2'. *)
Lemma getc_characters_witness :
  (50 = -1 /\
   mpt_reader_get_digit (opened_reader two_limb_world two_limb_file 16 0)
                        (opened_world two_limb_world)
   = Ok (-1,
         fst (state_after (mpt_reader_get_digit
                             (opened_reader two_limb_world two_limb_file 16 0)
                             (opened_world two_limb_world))
                          two_limb_reader two_limb_world),
         snd (state_after (mpt_reader_get_digit
                             (opened_reader two_limb_world two_limb_file 16 0)
                             (opened_world two_limb_world))
                          two_limb_reader two_limb_world))) \/
  (((48 <= 50 <= 57) \/ (65 <= 50 <= 70)) /\
   (0 <= hex_value 50 < 16) /\
   mpt_reader_get_digit (opened_reader two_limb_world two_limb_file 16 0)
                        (opened_world two_limb_world)
   = Ok (hex_value 50,
         fst (state_after (mpt_reader_get_digit
                             (opened_reader two_limb_world two_limb_file 16 0)
                             (opened_world two_limb_world))
                          two_limb_reader two_limb_world),
         snd (state_after (mpt_reader_get_digit
                             (opened_reader two_limb_world two_limb_file 16 0)
                             (opened_world two_limb_world))
                          two_limb_reader two_limb_world))).
Proof.
  apply (getc_characters two_limb_world (opened_world two_limb_world)
           (opened_world two_limb_world) _ "pi2" 16 0
           (opened_reader two_limb_world two_limb_file 16 0)
           (opened_reader two_limb_world two_limb_file 16 0)).
  - apply open_stream; reflexivity.
  - apply run_here.
  - vm_compute. reflexivity.
Defined.

(** ** Start positions below 0 *)

Lemma quot_rem_neg_small (a W : Z) :
  - W < a <= 0 -> Z.quot a W = 0 /\ Z.rem a W = a.
Proof.
  intros Ha. replace a with (- - a) by ring.
  rewrite Z.quot_opp_l, Z.rem_opp_l by lia.
  rewrite Z.quot_small, Z.rem_small by lia. split; ring.
Qed.

Lemma scaled_start_small (b sp : Z) :
  supported_base b = true -> - spec_digits_per_limb b < sp <= 0 ->
  scaled_start b sp = sp * unit_step b /\
  - digits_per_limb b < sp * unit_step b <= 0.
Proof.
  intros Hb. apply supported_base_iff in Hb.
  unfold scaled_start, unit_step, spec_digits_per_limb, digits_per_limb, bits_per_digit,
    BASE10_EXP.
  destruct Hb as [-> | [-> | ->]]; cbn [Z.eqb Pos.eqb].
  - intros Hsp. lia.
  - change (64 / 1) with 64. intros Hsp. rewrite s64_id by lia. lia.
  - change (64 / 4) with 16. intros Hsp. rewrite s64_id by lia. lia.
Qed.

(** A start position less than a limb below 0 opens the stream of
    position 0, with a negative [start_digit]. *)
Lemma opened_reader_neg (w : World) (d : list byte) (b sp : Z) :
  supported_base b = true -> - spec_digits_per_limb b < sp <= 0 ->
  open_pos d b sp = open_pos d b 0 /\
  opened_reader w d b sp = set_start_digit (sp * unit_step b) (opened_reader w d b 0).
Proof.
  intros Hb Hsp.
  destruct (spec_digits_facts b Hb) as [Hs [HD _]].
  destruct (scaled_start_small b sp Hb Hsp) as [Hsc Hr].
  destruct (scaled_start_small b 0 Hb ltac:(lia)) as [Hsc0 _].
  destruct (quot_rem_neg_small _ _ Hr) as [Hq Hrem].
  assert (Hpos : open_pos d b sp = open_pos d b 0).
  { unfold open_pos. rewrite !start_limb_offset_s64, Hsc, Hsc0, Hq.
    rewrite Z.mul_0_l, Z.quot_0_l; [reflexivity |].
    unfold digits_per_limb, BASE10_EXP. destruct (b =? 10); lia. }
  split; [exact Hpos |].
  unfold opened_reader, set_start_digit. reader_simpl.
  rewrite Hpos, Hsc, Hrem. reflexivity.
Qed.

(** A refill neither reads nor changes [start_digit]. *)
Lemma fill_start_digit (x : Z) (s : MPTReader) (w : World) :
  mpt_reader_fill (set_start_digit x s) w =
  match mpt_reader_fill s w with
  | Ok (rc, s1, w1) => Ok (rc, set_start_digit x s1, w1)
  | Abort => Abort
  | Fault => Fault
  end.
Proof.
  rewrite !fill_eq. reader_simpl.
  destruct (mem_nat (self s) (w_blocks w)); [| reflexivity].
  destruct (min_int64 (pos s) MPT_MAX_BUF_LEN =? 0).
  - destruct s; reflexivity.
  - destruct (f s) as [F|]; [| reflexivity].
    destruct (buf s) as [bf|]; [| reflexivity].
    destruct (mem_nat (fd F) (w_files w)); [| reflexivity].
    change (fill_bytes (set_start_digit x s) F) with (fill_bytes s F).
    change (fill_seek (set_start_digit x s) F) with (fill_seek s F).
    cbv zeta.
    destruct (_ <? _); [reflexivity |].
    destruct (negb _); reflexivity.
Qed.

(** The first digit call on a stream with a negative [start_digit]
    indexes [cur_limb10] at 19 or above, or shifts by 64 or more. *)
Lemma get_digit_neg_start (d : list byte) (b r : Z) (s : MPTReader) (w : World) (q : Z) :
  valid_file d -> stream_at d b s w q ->
  cur_digit s = 0 -> buf_pos s = 0 -> 0 < pos s ->
  r <= - unit_step b ->
  mpt_reader_get_digit (set_start_digit r s) w = Fault.
Proof.
  intros Hv Hat Hcd Hbp Hpos Hr.
  destruct (refill_at d b s w q Hv Hat Hbp Hpos) as [s1 [w1 [Hfill [Hat1 [Hbp1 [Hcd1 _]]]]]].
  rewrite Hcd in Hcd1.
  destruct (load_emit_at d b s1 w1 q Hat1 Hcd1 Hbp1) as [a [Ha _]].
  rewrite get_digit_eq. reader_simpl.
  rewrite (at_live _ _ _ _ _ Hat), Hcd, Hbp. change (0 =? 0) with true. cbv iota.
  rewrite fill_start_digit, Hfill. change (0 =? 0) with true. cbv iota.
  reader_simpl.
  change (buf_limb (set_start_digit r s1) (buf_pos s1 - 1))
    with (buf_limb s1 (buf_pos s1 - 1)).
  rewrite Ha, emit_eq. cbv zeta.
  unfold load_limb, limb_width, digit_step, unit_step, bits_per_digit, BASE10_EXP in *.
  destruct (supported_cases b s1 (at_base _ _ _ _ _ Hat1))
    as [[-> Hb] | [[-> [Hb [He _]]] | [-> [Hb [He _]]]]];
    reader_simpl; rewrite Hb; cbn [Z.eqb Pos.eqb] in *; reader_simpl;
      rewrite ?Hb, ?He; cbn [Z.eqb Pos.eqb].
  - destruct (Z.ltb_spec (19 - r - 1) 19) as [H | _]; [lia |].
    rewrite andb_false_r. reflexivity.
  - destruct (Z.ltb_spec (64 - r - 1) 64) as [H | _]; [lia |].
    rewrite andb_false_r. reflexivity.
  - destruct (Z.ltb_spec (64 - r - 4) 64) as [H | _]; [lia |].
    rewrite andb_false_r. reflexivity.
Qed.

(** X7.  Start positions just below 0 are not rejected.  For a valid
    file with a fractional limb and a start position [sp] with [-D < sp
    < 0] ([D] digits in a limb), the open succeeds (line 136 only
    rejects a limb offset that is not positive), and the first call of
    [mpt_reader_get_digit], hence of [mpt_reader_getc], has undefined
    behaviour: [start_digit] is negative, so the digit cursor starts
    above the limb and the call reads [cur_limb10] at an index from 19
    on, or shifts a 64-bit limb by 64 or more.  [dump_digits], which
    opens at [pos - 1], is in this case for the positions [pos] from [2
    - D] to 0, whenever it is asked for a digit. *)
Theorem negative_start_undefined (w : World) (name : string) (d : list byte) (b sp : Z) :
  w_fs w name = Some d -> valid_file d -> supported_base b = true ->
  0 < frac_limbs d -> - spec_digits_per_limb b < sp < 0 ->
  (exists s0 w0, mpt_reader_open name b sp w = Ok (Stream s0, w0) /\
                 mpt_reader_get_digit s0 w0 = Fault /\
                 mpt_reader_getc s0 w0 = Fault) /\
  (forall n con, 0 < n -> dump_digits name b (sp + 1) n con w = Fault).
Proof.
  intros Hfs Hv Hb HL Hsp.
  destruct (spec_digits_facts b Hb) as [Hs [HD _]].
  assert (Hr0 : start_in_range b 0) by (split; lia).
  assert (Hpos0 : 0 < open_pos d b 0).
  { apply open_pos_in_range; try assumption. unfold avail_digits. nia. }
  destruct (opened_reader_neg w d b sp Hb ltac:(lia)) as [Hpos Hreader].
  pose proof (open_at w d b 0 Hv Hb Hr0 Hpos0) as Hat.
  assert (Hopen : mpt_reader_open name b sp w
                  = Ok (Stream (opened_reader w d b sp), opened_world w)).
  { apply open_stream; try assumption; [apply Hv | lia]. }
  assert (Hget : mpt_reader_get_digit (opened_reader w d b sp) (opened_world w) = Fault).
  { rewrite Hreader.
    apply (get_digit_neg_start d b _ _ _ _ Hv Hat); try reflexivity; [exact Hpos0 | nia]. }
  assert (Hgetc : mpt_reader_getc (opened_reader w d b sp) (opened_world w) = Fault).
  { rewrite getc_eq, Hget. reflexivity. }
  split.
  - exists (opened_reader w d b sp), (opened_world w). auto.
  - intros n con Hn. unfold dump_digits.
    replace (sp + 1 - 1) with sp by ring.
    assert (Hsmall : - 2 ^ 63 <= sp < 2 ^ 63).
    { apply supported_base_iff in Hb. unfold spec_digits_per_limb, bits_per_digit in Hsp.
      destruct Hb as [-> | [-> | ->]]; cbn [Z.eqb Pos.eqb] in Hsp;
        [| change (64 / 1) with 64 in Hsp | change (64 / 4) with 16 in Hsp]; lia. }
    rewrite s64_id by exact Hsmall.
    unfold bind at 1. rewrite Hopen.
    destruct (Z.to_nat n) as [|k] eqn:Hk; [lia |].
    cbn [dump_loop]. destruct (Z.ltb_spec 0 n) as [_ | H]; [| lia].
    unfold bind. rewrite Hgetc. reflexivity.
Qed.

(** [tpidump file 10 0 5] on the two-limb file: the first digit call
    reads [cur_limb10[19]]. *)
Lemma negative_start_undefined_witness :
  (exists s0 w0, mpt_reader_open "pi2" 10 (-1) two_limb_world = Ok (Stream s0, w0) /\
                 mpt_reader_get_digit s0 w0 = Fault /\
                 mpt_reader_getc s0 w0 = Fault) /\
  (forall n con, 0 < n -> dump_digits "pi2" 10 (-1 + 1) n con two_limb_world = Fault).
Proof.
  apply (negative_start_undefined two_limb_world "pi2" two_limb_file 10 (-1)).
  - reflexivity.
  - exact two_limb_file_valid.
  - reflexivity.
  - vm_compute. reflexivity.
  - split; vm_compute; reflexivity.
Defined.

(** ** Dumping *)

(** After any calls on an opened stream, the close returns and leaves
    the live blocks and the open handles as they were before the open. *)
Lemma close_after_run (w w0 w1 : World) (name : string) (b sp : Z) (s0 s : MPTReader) :
  world_ok w ->
  mpt_reader_open name b sp w = Ok (Stream s0, w0) ->
  run s0 w0 s w1 ->
  exists w2, mpt_reader_close s w1 = Ok (tt, w2) /\
             w_blocks w2 = w_blocks w /\ w_files w2 = w_files w /\
             w_fs w2 = w_fs w1 /\ w_reads w2 = w_reads w1.
Proof.
  intros Hw Hopen Hrun.
  assert (Hfresh : forall k x, In x (w_blocks w) \/ In x (w_files w) ->
                               x <> (k + w_next w)%nat).
  { intros k x Hx. specialize (Hw x Hx). lia. }
  destruct (run_live _ _ _ _ _ _ _ _ Hopen Hrun)
    as [Hself [[F [HF [Hfd _]]] [[bf [Hbuf Hba]] [Hblocks Hfiles]]]].
  destruct w1 as [fs1 n1 bl1 fl1 rd1 mx1].
  cbn [w_blocks w_files] in Hblocks, Hfiles. subst bl1 fl1.
  unfold mpt_reader_close, bind, deref, fclose, free, ret.
  rewrite Hself, HF, Hbuf, Hfd. cbn [option_map]. rewrite Hba.
  world_simpl.
  rewrite mem_nat_tail by apply mem_nat_head.
  world_simpl. rewrite remove_nat_other by lia. world_simpl.
  assert (Hb2 : remove_nat (S (S (w_next w))) (w_blocks w) = w_blocks w).
  { apply remove_nat_absent. intros Hin. now apply (Hfresh 2%nat _ (or_introl Hin)). }
  assert (Hb0 : remove_nat (w_next w) (w_blocks w) = w_blocks w).
  { apply remove_nat_absent. intros Hin. now apply (Hfresh 0%nat _ (or_introl Hin)). }
  assert (Hf1 : remove_nat (S (w_next w)) (w_files w) = w_files w).
  { apply remove_nat_absent. intros Hin. now apply (Hfresh 1%nat _ (or_intror Hin)). }
  rewrite Hb2, Hb0, Hf1.
  eexists. split; [reflexivity |]. world_simpl. repeat split; reflexivity.
Qed.

(** The loop of [dump_digits], whatever the file holds: it only calls
    the reader, prints nothing on [stderr], and appends digits and
    blanks to [stdout]. *)
Lemma dump_loop_run (fuel : nat) :
  forall (i n : Z) (s s' : MPTReader) (con con' : Console) (w w' : World),
    reader_ok s ->
    dump_loop fuel i n s con w = Ok (s', con', w') ->
    run s w s' w' /\ stderr con' = stderr con /\
    exists out, stdout con' = stdout con ++ out /\ Forall dump_char out.
Proof.
  induction fuel as [|fuel IH]; intros i n s s' con con' w w' Hok Hloop.
  - cbn [dump_loop] in Hloop. injection Hloop as <- <- <-.
    split; [apply run_here |]. split; [reflexivity |].
    exists []. rewrite app_nil_r. auto.
  - cbn [dump_loop] in Hloop.
    destruct (i <? n).
    2:{ injection Hloop as <- <- <-.
        split; [apply run_here |]. split; [reflexivity |].
        exists []. rewrite app_nil_r. auto. }
    unfold bind in Hloop. rewrite getc_eq in Hloop.
    destruct (mpt_reader_get_digit s w) as [[[c s1] w1] | |] eqn:Hget; try discriminate.
    destruct (get_digit_ok _ _ _ _ _ Hok Hget) as [Hok1 [_ Hc]].
    assert (Hb16 : base s <= 16).
    { destruct Hok as [[H | [[H _] | [H _]]] _]; lia. }
    destruct (Z.ltb_spec c 0) as [Hneg | Hnn].
    + destruct (Z.ltb_spec c 0) as [_ | H]; [| lia].
      injection Hloop as <- <- <-.
      split; [eapply run_get_digit; [apply run_here | exact Hget] |].
      split; [reflexivity |]. exists []. rewrite app_nil_r. auto.
    + assert (Hch : (if c <? 10 then c + 48 else c + 55) = digit_char c) by reflexivity.
      rewrite Hch in Hloop.
      assert (Hdc : dump_char (digit_char c)).
      { unfold dump_char, digit_char. destruct (Z.ltb_spec c 10); lia. }
      destruct (Z.ltb_spec (digit_char c) 0) as [H | _];
        [unfold dump_char in Hdc; lia |].
      apply IH in Hloop; [| exact Hok1].
      destruct Hloop as [Hrun [Herr [out [Hout Hall]]]].
      split; [eapply run_first; [exact Hget | exact Hrun] |].
      destruct ((Z.rem i 10 =? 9) && negb (i =? s64 (n - 1)));
        unfold putchar in *; cbn [stdout stderr] in *.
      * split; [exact Herr |]. exists (digit_char c :: 32 :: out).
        rewrite Hout, <- !app_assoc. split; [reflexivity |].
        constructor; [exact Hdc |]. constructor; [left; reflexivity | exact Hall].
      * split; [exact Herr |]. exists (digit_char c :: out).
        rewrite Hout, <- !app_assoc. split; [reflexivity |].
        constructor; [exact Hdc | exact Hall].
Qed.

(** The loop of [dump_digits] for a count [n] that is an [int64_t]:
    the characters of [n] pulls, grouped. *)
Lemma dump_loop_chars (fuel : nat) :
  forall (i n : Z) (s : MPTReader) (con : Console) (w : World),
    0 <= i -> n < 2 ^ 63 -> fuel = Z.to_nat (n - i) ->
    dump_loop fuel i n s con w =
    match read_chars fuel s w with
    | Ok (cs, s', w') =>
        Ok (s', mkConsole (stdout con ++ grouped n i cs) (stderr con), w')
    | Abort => Abort
    | Fault => Fault
    end.
Proof.
  induction fuel as [|fuel IH]; intros i n s con w Hi Hn Hfuel.
  - cbn [dump_loop read_chars pull grouped]. unfold ret.
    rewrite app_nil_r. destruct con; reflexivity.
  - cbn [dump_loop]. unfold read_chars. cbn [pull].
    destruct (Z.ltb_spec i n) as [Hlt | Hge]; [| lia].
    unfold bind at 1 2.
    destruct (mpt_reader_getc s w) as [[[c s1] w1] | |]; [| reflexivity | reflexivity].
    destruct (c <? 0).
    + unfold ret. cbn [grouped]. rewrite app_nil_r. destruct con; reflexivity.
    + rewrite IH by lia. unfold bind. fold (read_chars fuel s1 w1).
      destruct (read_chars fuel s1 w1) as [[[cs s2] w2] | |]; [| reflexivity | reflexivity].
      unfold ret. rewrite Z.rem_mod_nonneg by lia. rewrite s64_id by lia.
      cbn [grouped].
      destruct ((i mod 10 =? 9) && negb (i =? n - 1));
        unfold putchar; cbn [stdout stderr]; rewrite <- !app_assoc; reflexivity.
Qed.

(** An open that returns NULL leaves the live blocks and the open
    handles as they were. *)
Lemma open_null_resources (w w0 : World) (name : string) (b sp : Z) (why : open_error) :
  world_ok w ->
  mpt_reader_open name b sp w = Ok (Null why, w0) ->
  w_blocks w0 = w_blocks w /\ w_files w0 = w_files w.
Proof.
  intros Hw Hopen.
  destruct (supported_base b) eqn:Hb.
  2:{ rewrite open_unsupported in Hopen by exact Hb. inversion Hopen; subst. auto. }
  destruct (w_fs w name) as [d|] eqn:Hfs.
  2:{ destruct (open_missing w name b sp Hb Hfs) as [w' [He [_ [_ Hres]]]].
      rewrite He in Hopen. inversion Hopen; subst. now apply Hres. }
  destruct (header_parses d) eqn:Hh.
  2:{ destruct (open_bad_header w name d b sp Hb Hfs Hh) as [w' [He [_ [_ Hres]]]].
      rewrite He in Hopen. inversion Hopen; subst. now apply Hres. }
  destruct (Z.ltb_spec 0 (open_pos d b sp)) as [Hp | Hp].
  - rewrite (open_stream w name d b sp Hb Hfs Hh Hp) in Hopen. discriminate.
  - rewrite (open_out_of_range w name d b sp Hb Hfs Hh Hp) in Hopen.
    inversion Hopen; subst. now apply failed_world_resources.
Qed.

Lemma two_limb_world_ok : world_ok two_limb_world.
Proof. intros x [[] | []]. Defined.

(** X8.  How [dump_digits] ends, whatever the file holds, for a
    position [pos] whose decrement at line 218 and whose scaling at line
    129 do not overflow.  In a process whose identities are all below
    the next fresh one (and with [malloc] succeeding, as throughout):
    - it calls [exit(1)] exactly when the open at [pos - 1] returns
      NULL; it has then written nothing on [stdout] and the one line
      ["<filename>: cannot display at this position"] on [stderr], for
      any of the four reasons of failure alike, and the open has
      released what it took;
    - when it returns, the open succeeded, nothing was written on
      [stderr], [stdout] has only grown, by digits '0'..'9', 'A'..'F'
      and blanks, and the stream is closed: the live blocks and the
      open handles are as before the call;
    - [abort()] (a short read) and undefined behaviour can only come
      after a successful open. *)
Theorem dump_digits_ends (w : World) (name : string) (b pos n : Z) (con : Console) :
  world_ok w ->
  - 2 ^ 63 < pos < 2 ^ 63 ->
  (supported_base b = true -> scaling_fits b (pos - 1)) ->
  match dump_digits name b pos n con w with
  | Ok (Exited st, con', w') =>
      st = 1 /\ stdout con' = stdout con /\
      stderr con' = (stderr con ++ cannot_display name)%string /\
      (exists why, mpt_reader_open name b (pos - 1) w = Ok (Null why, w')) /\
      w_blocks w' = w_blocks w /\ w_files w' = w_files w
  | Ok (Returned, con', w') =>
      (exists s0 w0, mpt_reader_open name b (pos - 1) w = Ok (Stream s0, w0)) /\
      stderr con' = stderr con /\
      (exists out, stdout con' = stdout con ++ out /\ Forall dump_char out) /\
      w_blocks w' = w_blocks w /\ w_files w' = w_files w
  | Abort | Fault =>
      exists s0 w0, mpt_reader_open name b (pos - 1) w = Ok (Stream s0, w0)
  end.
Proof.
  intros Hw Hpos63 _. unfold dump_digits. rewrite s64_id by lia. unfold bind at 1.
  destruct (open_returns w name b (pos - 1)) as [r [w0 Hopen]].
  rewrite Hopen. destruct r as [s0 | why].
  - destruct (open_stream_inv _ _ _ _ _ _ Hopen) as [d [Hb [_ [_ [Hpos [Hs0 _]]]]]].
    assert (Hok : reader_ok s0) by (rewrite Hs0; apply opened_reader_ok; assumption).
    unfold bind at 1.
    destruct (dump_loop (Z.to_nat n) 0 n s0 con w0) as [[[s1 con1] w1] | |] eqn:Hloop;
      [| eauto | eauto].
    destruct (dump_loop_run _ _ _ _ _ _ _ _ _ Hok Hloop) as [Hrun [Herr Hout]].
    destruct (close_after_run w w0 w1 name b _ s0 s1 Hw Hopen Hrun)
      as [w2 [Hclose [Hbl [Hfl _]]]].
    unfold bind. rewrite Hclose. unfold ret.
    split; [eauto |]. auto.
  - unfold ret, eprint. cbn [stdout stderr].
    destruct (open_null_resources w w0 name b _ why Hw Hopen) as [Hbl Hfl].
    repeat split; eauto.
Qed.

(** [tpidump pi2 10 39 5] on the two-limb file, which holds 38 digits. *)
Lemma dump_digits_ends_witness :
  match dump_digits "pi2" 10 39 5 (mkConsole [] "") two_limb_world with
  | Ok (Exited st, con', w') =>
      st = 1 /\ stdout con' = stdout (mkConsole [] "") /\
      stderr con' = (stderr (mkConsole [] "") ++ cannot_display "pi2")%string /\
      (exists why, mpt_reader_open "pi2" 10 (39 - 1) two_limb_world
                   = Ok (Null why, w')) /\
      w_blocks w' = w_blocks two_limb_world /\ w_files w' = w_files two_limb_world
  | Ok (Returned, con', w') =>
      (exists s0 w0, mpt_reader_open "pi2" 10 (39 - 1) two_limb_world
                     = Ok (Stream s0, w0)) /\
      stderr con' = stderr (mkConsole [] "") /\
      (exists out, stdout con' = stdout (mkConsole [] "") ++ out /\ Forall dump_char out) /\
      w_blocks w' = w_blocks two_limb_world /\ w_files w' = w_files two_limb_world
  | Abort | Fault =>
      exists s0 w0, mpt_reader_open "pi2" 10 (39 - 1) two_limb_world
                    = Ok (Stream s0, w0)
  end.
Proof.
  apply (dump_digits_ends two_limb_world "pi2" 10 39 5 (mkConsole [] "")).
  - exact two_limb_world_ok.
  - split; vm_compute; reflexivity.
  - intros _. split; vm_compute; [discriminate | reflexivity].
Defined.

(** X9.  What [dump_digits] prints for a valid file.  For a position
    [pos >= 1] of a digit that the file holds and a count [n >= 0],
    [dump_digits] returns, having appended to [stdout] the characters
    of the digits [pos - 1], [pos], ... of the fraction (position 1 is
    the first digit), [min(n, D * L - (pos - 1))] of them, with a blank
    after every tenth one except after the [n]-th; nothing goes to
    [stderr], and the stream is closed.  When the file ends at a
    multiple of ten digits short of [n], the output so ends with a
    blank. *)
Theorem dump_digits_output (w : World) (name : string) (d : list byte)
        (b pos n : Z) (con : Console) :
  world_ok w -> w_fs w name = Some d -> valid_file d -> supported_base b = true ->
  start_in_range b (pos - 1) -> pos - 1 < avail_digits d b -> 0 <= n < 2 ^ 63 ->
  exists w',
    dump_digits name b pos n con w
    = Ok (Returned,
          mkConsole
            (stdout con
             ++ grouped n 0
                  (map digit_char
                       (digits_from d b (pos - 1)
                                    (delivered d b (pos - 1) (Z.to_nat n)))))
            (stderr con),
          w') /\
    w_blocks w' = w_blocks w /\ w_files w' = w_files w.
Proof.
  intros Hw Hfs Hv Hb Hr Hav Hn.
  destruct (spec_digits_facts b Hb) as [Hs _].
  assert (Hsmall : - 2 ^ 63 <= pos - 1 < 2 ^ 63) by (destruct Hr; nia).
  destruct (open_read_at w name d b (pos - 1) (Z.to_nat n) Hfs Hv Hb Hr Hav)
    as [Hopen [s' [w1 [Hread _]]]].
  pose proof (read_digits_run _ _ _ _ _ _ Hread) as Hrun.
  destruct (close_after_run w _ w1 name b _ _ s' Hw Hopen Hrun)
    as [w2 [Hclose [Hbl [Hfl _]]]].
  exists w2. split; [| auto].
  unfold dump_digits. rewrite s64_id by exact Hsmall.
  unfold bind at 1. rewrite Hopen. unfold bind at 1.
  rewrite dump_loop_chars by lia.
  rewrite read_chars_digits, Hread.
  unfold bind. rewrite Hclose. reflexivity.
Qed.

(** [tpidump pi2 10 9 50] on the two-limb file prints the 30 digits
    from the 9th on, in three groups, and a blank after the last. *)
Lemma dump_digits_output_witness :
  exists w',
    dump_digits "pi2" 10 9 50 (mkConsole [] "") two_limb_world
    = Ok (Returned,
          mkConsole
            (stdout (mkConsole [] "")
             ++ grouped 50 0
                  (map digit_char
                       (digits_from two_limb_file 10 (9 - 1)
                                    (delivered two_limb_file 10 (9 - 1) (Z.to_nat 50)))))
            (stderr (mkConsole [] "")),
          w') /\
    w_blocks w' = w_blocks two_limb_world /\ w_files w' = w_files two_limb_world.
Proof.
  apply (dump_digits_output two_limb_world "pi2" two_limb_file 10 9 50 (mkConsole [] "")).
  - exact two_limb_world_ok.
  - reflexivity.
  - exact two_limb_file_valid.
  - reflexivity.
  - split; vm_compute; [discriminate | reflexivity].
  - vm_compute. reflexivity.
  - split; vm_compute; [discriminate | reflexivity].
Defined.

(** ** Several streams *)

(** The position of a reader depends on the process state only through
    the struct and the handle being live. *)
Lemma stream_at_frame (d : list byte) (b : Z) (s : MPTReader) (w w' : World) (q : Z) :
  stream_at d b s w q ->
  w_blocks w' = w_blocks w -> w_files w' = w_files w ->
  stream_at d b s w' q.
Proof.
  intros [Hbase Hh Hlive Hfile Hbuf Hbounds Hlimbs Hstart Hcur Hlimb Hq] Hbl Hfl.
  constructor; try assumption.
  - rewrite Hbl. exact Hlive.
  - rewrite Hfl. exact Hfile.
Qed.

Lemma opened_run_world_ok (w w0 w1 : World) (name : string) (b sp : Z) (s0 s : MPTReader) :
  world_ok w ->
  mpt_reader_open name b sp w = Ok (Stream s0, w0) ->
  run s0 w0 s w1 ->
  world_ok w1.
Proof.
  intros Hw Hopen Hrun.
  destruct (run_live _ _ _ _ _ _ _ _ Hopen Hrun) as [_ [_ [_ [Hblocks Hfiles]]]].
  destruct (open_stream_inv _ _ _ _ _ _ Hopen) as [d [Hb [_ [_ [Hpos [Hs0 Hw0]]]]]].
  assert (Hok : reader_ok s0) by (rewrite Hs0; apply opened_reader_ok; assumption).
  pose proof (run_same_resources _ _ _ _ Hok Hrun) as Hsame.
  unfold same_resources in Hsame.
  destruct Hsame as [_ [_ [_ [_ [_ [_ [Hnext _]]]]]]].
  rewrite Hw0 in Hnext. cbn [opened_world w_next] in Hnext.
  intros x Hx. rewrite Hnext, Hblocks, Hfiles in *.
  destruct Hx as [[<- | [<- | Hx]] | [<- | Hx]]; try lia.
  - specialize (Hw x (or_introl Hx)). lia.
  - specialize (Hw x (or_intror Hx)). lia.
Qed.

(** X10.  Streams do not disturb one another.  Let a stream A over a
    valid file have delivered [k] digits.  If now a second stream B is
    opened (over the same file or another, in any base, at any
    position), used for any calls that return, and closed, the stream
    A goes on exactly as it would have without B: [n] further pulls
    deliver the digits from where A stood, in the process state that the
    close of B left as in the one before B was opened. *)
Theorem streams_independent (w wA wa wb wb' wc : World) (nameA nameB : string)
        (dA : list byte) (bA spA bB spB : Z) (k n : nat) (ds : list Z)
        (sA0 sA sB sB' : MPTReader) :
  world_ok w -> w_fs w nameA = Some dA -> valid_file dA -> start_in_range bA spA ->
  mpt_reader_open nameA bA spA w = Ok (Stream sA0, wA) ->
  read_digits k sA0 wA = Ok (ds, sA, wa) ->
  mpt_reader_open nameB bB spB wa = Ok (Stream sB, wb) ->
  run sB wb sB' wb' ->
  mpt_reader_close sB' wb' = Ok (tt, wc) ->
  exists s1 w1 s2 w2,
    read_digits n sA wa
    = Ok (digits_from dA bA (spA + Z.of_nat (length ds))
                      (delivered dA bA (spA + Z.of_nat (length ds)) n), s1, w1) /\
    read_digits n sA wc
    = Ok (digits_from dA bA (spA + Z.of_nat (length ds))
                      (delivered dA bA (spA + Z.of_nat (length ds)) n), s2, w2).
Proof.
  intros Hw Hfs Hv Hr HopenA Hread HopenB HrunB HcloseB.
  destruct (open_stream_inv _ _ _ _ _ _ HopenA) as [d [Hb [Hfs' [_ [Hpos [Hs0 Hw0]]]]]].
  rewrite Hfs in Hfs'. injection Hfs' as <-. subst sA0 wA.
  assert (Hav : spA < avail_digits dA bA) by (apply open_pos_in_range; assumption).
  destruct (open_read_at w nameA dA bA spA k Hfs Hv Hb Hr Hav)
    as [_ [s' [w' [Hread' Hat]]]].
  rewrite Hread in Hread'. injection Hread' as -> <- <-.
  rewrite length_digits_from.
  pose proof (read_digits_run _ _ _ _ _ _ Hread) as HrunA.
  pose proof (opened_run_world_ok _ _ _ _ _ _ _ _ Hw HopenA HrunA) as Hwa.
  destruct (close_after_run wa wb wb' nameB bB spB sB sB' Hwa HopenB HrunB)
    as [w2 [Hclose [Hbl [Hfl _]]]].
  rewrite HcloseB in Hclose. injection Hclose as <-.
  pose proof (stream_at_frame _ _ _ _ wc _ Hat Hbl Hfl) as Hatc.
  destruct (read_digits_at_state dA bA n _ _ _ Hv Hat) as [s1 [w1 [H1 _]]].
  destruct (read_digits_at_state dA bA n _ _ _ Hv Hatc) as [s2 [w2 [H2 _]]].
  rewrite stream_spec_digits in H1, H2 by assumption.
  exists s1, w1, s2, w2. split; assumption.
Qed.

(** The first stream over the two-limb file stands after its 20th
    decimal digit; a second stream over the same file, in base 16, is
    opened and closed; the first one then delivers the digits 21 to
    25. *)
Lemma streams_independent_witness :
  exists s1 w1 s2 w2,
    read_digits 5 after_20 world_after_20
    = Ok (digits_from two_limb_file 10
            (0 + Z.of_nat (length (fst (fst (pull_result 20 two_limb_reader
                                               (opened_world two_limb_world))))))
            (delivered two_limb_file 10
               (0 + Z.of_nat (length (fst (fst (pull_result 20 two_limb_reader
                                                  (opened_world two_limb_world)))))) 5),
          s1, w1) /\
    read_digits 5 after_20 world_after_other
    = Ok (digits_from two_limb_file 10
            (0 + Z.of_nat (length (fst (fst (pull_result 20 two_limb_reader
                                               (opened_world two_limb_world))))))
            (delivered two_limb_file 10
               (0 + Z.of_nat (length (fst (fst (pull_result 20 two_limb_reader
                                                  (opened_world two_limb_world)))))) 5),
          s2, w2).
Proof.
  apply (streams_independent two_limb_world (opened_world two_limb_world) world_after_20
           (opened_world world_after_20) (opened_world world_after_20) world_after_other
           "pi2" "pi2" two_limb_file 10 0 16 0 20 5
           (fst (fst (pull_result 20 two_limb_reader (opened_world two_limb_world))))
           two_limb_reader after_20
           (opened_reader world_after_20 two_limb_file 16 0)
           (opened_reader world_after_20 two_limb_file 16 0)).
  - exact two_limb_world_ok.
  - reflexivity.
  - exact two_limb_file_valid.
  - split; vm_compute; [discriminate | reflexivity].
  - exact two_limb_open.
  - vm_compute. reflexivity.
  - apply open_stream; reflexivity.
  - apply run_here.
  - vm_compute. reflexivity.
Defined.

(** ** The integer part *)

(** A start position [k] whole limbs below 0 opens the stream [k] limbs
    above the fraction. *)
Lemma open_at_below (w : World) (d : list byte) (b k : Z) :
  valid_file d -> supported_base b = true ->
  0 < k <= h_expn (decode_header (slice 0 56 d)) -> k < 2 ^ 56 ->
  0 < open_pos d b (- (spec_digits_per_limb b * k)) /\
  stream_at d b (opened_reader w d b (- (spec_digits_per_limb b * k))) (opened_world w)
            (- (spec_digits_per_limb b * k) * unit_step b).
Proof.
  intros Hvalid Hb Hk Hk56.
  destruct (valid_file_header d Hvalid) as [Hexpn Hlen]. cbv zeta in Hexpn, Hlen.
  destruct (spec_digits_facts b Hb) as [Hstep [HD [HWD _]]].
  set (hd := decode_header (slice 0 56 d)) in *.
  set (sp := - (spec_digits_per_limb b * k)).
  set (W := digits_per_limb b) in *.
  assert (HW64 : 0 < W <= 64).
  { unfold W, digits_per_limb, BASE10_EXP. destruct (b =? 10); lia. }
  assert (HQ : sp * unit_step b = - (k * W)) by (unfold sp; rewrite HWD; ring).
  assert (Hscaled : scaled_start b sp = - (k * W)).
  { rewrite <- HQ. unfold scaled_start, unit_step.
    destruct (b =? 10) eqn:Hb10; [ring |]. apply s64_id.
    unfold unit_step in HQ. rewrite Hb10 in HQ. rewrite HQ. nia. }
  assert (Hquot : Z.quot (- (k * W)) W = - k).
  { rewrite Z.quot_opp_l, Z.quot_mul by lia. reflexivity. }
  assert (Hrem : Z.rem (- (k * W)) W = 0).
  { rewrite Z.rem_opp_l, Z.rem_mul by lia. reflexivity. }
  assert (Hp : open_pos d b sp = frac_limbs d + k).
  { unfold open_pos, frac_limbs. fold hd. rewrite start_limb_offset_s64, Hscaled.
    fold W. rewrite Hquot. rewrite s64_id by lia. ring. }
  assert (HL : 0 <= frac_limbs d) by (unfold frac_limbs; fold hd; lia).
  split; [lia |].
  constructor.
  - split; [reflexivity |]. split; [exact Hb |].
    intros Hne. unfold opened_reader. reader_simpl.
    destruct (Z.eqb_spec b 10); [contradiction | auto].
  - reflexivity.
  - unfold opened_reader, opened_world. cbn [self w_blocks].
    apply mem_nat_tail, mem_nat_head.
  - eexists. split; [reflexivity |]. split; [reflexivity |].
    unfold opened_world. cbn [fd w_files]. apply mem_nat_head.
  - eexists. reflexivity.
  - unfold opened_reader. reader_simpl. fold hd. rewrite Hp.
    unfold frac_limbs in *. fold hd in HL |- *.
    unfold MPT_MAX_BUF_LEN. lia.
  - unfold opened_reader. reader_simpl. intros i Hi. lia.
  - unfold opened_reader. reader_simpl. rewrite Hscaled. fold W. rewrite Hrem.
    split; [lia | apply Z.divide_0_r].
  - unfold opened_reader. reader_simpl. split; [lia | apply Z.divide_0_r].
  - unfold opened_reader. reader_simpl. lia.
  - unfold opened_reader. reader_simpl. rewrite Hp, Hscaled, HQ. fold W. rewrite Hrem.
    ring.
Qed.

(** X11.  The integer part is reached by start positions below 0 that
    are whole limbs.  For a valid file whose exponent is at least [k >
    0], a stream opened at the start position [- D * k] ([D] digits in a
    limb) delivers the digits of the integer limbs [L + k - 1] down to
    [L] and then goes on into the fraction: digit [P], for negative [P]
    as for the others, is digit [P mod D] of limb [L - 1 - P / D], with
    the quotient rounded down.  (The start positions in between are
    those of X7.) *)
Theorem integer_part_digits (w : World) (name : string) (d : list byte)
        (b k : Z) (n : nat) :
  w_fs w name = Some d -> valid_file d -> supported_base b = true ->
  0 < k <= h_expn (decode_header (slice 0 56 d)) -> k < 2 ^ 56 ->
  exists s0 w0 s' w',
    mpt_reader_open name b (- (spec_digits_per_limb b * k)) w = Ok (Stream s0, w0) /\
    read_digits n s0 w0
    = Ok (digits_from d b (- (spec_digits_per_limb b * k))
                      (delivered d b (- (spec_digits_per_limb b * k)) n), s', w').
Proof.
  intros Hfs Hv Hb Hk Hk56.
  destruct (open_at_below w d b k Hv Hb Hk Hk56) as [Hpos Hat].
  destruct (read_digits_at_state d b n _ _ _ Hv Hat) as [s' [w' [Hread _]]].
  rewrite stream_spec_digits in Hread by assumption.
  exists (opened_reader w d b (- (spec_digits_per_limb b * k))), (opened_world w), s', w'.
  split; [| exact Hread].
  apply open_stream; try assumption. apply Hv.
Qed.

(** The file of 3.14159...: start position -19 delivers the integer limb
    as "0000000000000000003", then the fraction. *)
Lemma integer_part_digits_witness :
  exists s0 w0 s' w',
    mpt_reader_open "m" 10 (- (spec_digits_per_limb 10 * 1)) mixed_world
    = Ok (Stream s0, w0) /\
    read_digits 25 s0 w0
    = Ok (digits_from mixed_file 10 (- (spec_digits_per_limb 10 * 1))
                      (delivered mixed_file 10 (- (spec_digits_per_limb 10 * 1)) 25),
          s', w').
Proof.
  apply (integer_part_digits mixed_world "m" mixed_file 10 1 25).
  - reflexivity.
  - exact mixed_file_valid.
  - reflexivity.
  - split; vm_compute; [reflexivity | discriminate].
  - vm_compute. reflexivity.
Defined.

(** ** Base 2 and base 16 *)

Lemma number_digit_bits (d : list byte) (P : Z) :
  digits_number 2 (digits_from d 2 (4 * P) 4) = number_digit d 16 P.
Proof.
  pose proof (Z.mod_pos_bound P 16 ltac:(lia)) as Hr.
  pose proof (Z.div_mod P 16 ltac:(lia)) as HP.
  set (a := file_limb d (frac_limbs d - 1 - P / 16)).
  assert (Hbits : digits_from d 2 (4 * P) 4
                  = map (fun t => (a / 2 ^ (64 - 4 * (P mod 16) - 1 - Z.of_nat t)) mod 2)
                        (seq 0 4)).
  { unfold digits_from. apply map_ext_in. intros t Ht. apply in_seq in Ht.
    unfold number_digit, spec_digits_per_limb, bits_per_digit. cbn [Z.eqb Pos.eqb].
    change (64 / 1) with 64. cbv zeta.
    assert (Hq : (4 * P + Z.of_nat t) / 64 = P / 16)
      by (symmetry; apply Z.div_unique_pos with (r := 4 * (P mod 16) + Z.of_nat t); lia).
    assert (Hm : (4 * P + Z.of_nat t) mod 64 = 4 * (P mod 16) + Z.of_nat t)
      by (symmetry; apply Z.mod_unique_pos with (q := P / 16); lia).
    rewrite Hq, Hm. fold a. do 3 f_equal. ring. }
  rewrite Hbits, horner_digits by lia.
  unfold number_digit, spec_digits_per_limb, bits_per_digit. cbn [Z.eqb Pos.eqb].
  change (64 / 4) with 16. cbv zeta. fold a.
  change (Z.of_nat 4) with 4. change (2 ^ 4) with 16.
  replace (64 - 4 * (P mod 16) - 4) with (4 * (16 - 1 - P mod 16)) by ring.
  rewrite Z.pow_mul_r by lia. reflexivity.
Qed.

(** X12.  The bases 2 and 16 agree.  For a valid file, the hexadecimal
    digit at position [P] is the number that the four binary digits at
    the positions [4 * P] to [4 * P + 3] denote, most significant bit
    first: a stream in base 16 and a stream in base 2 read the same
    bits of the same limbs. *)
Theorem hex_digit_of_bits (w : World) (name : string) (d : list byte) (P : Z) :
  w_fs w name = Some d -> valid_file d ->
  start_in_range 16 P -> P < avail_digits d 16 ->
  exists s2 w2 bits s2' w2' s16 w16 x s16' w16',
    mpt_reader_open name 2 (4 * P) w = Ok (Stream s2, w2) /\
    read_digits 4 s2 w2 = Ok (bits, s2', w2') /\
    mpt_reader_open name 16 P w = Ok (Stream s16, w16) /\
    read_digits 1 s16 w16 = Ok ([x], s16', w16') /\
    length bits = 4%nat /\
    digits_number 2 bits = x.
Proof.
  intros Hfs Hv Hr Hav.
  assert (Hr2 : start_in_range 2 (4 * P)).
  { unfold start_in_range, unit_step, bits_per_digit in *.
    cbn [Z.eqb Pos.eqb] in *. lia. }
  assert (Hav2 : 4 * P < avail_digits d 2).
  { unfold avail_digits, spec_digits_per_limb, bits_per_digit in *.
    cbn [Z.eqb Pos.eqb] in *. change (64 / 1) with 64. change (64 / 4) with 16 in Hav.
    lia. }
  destruct (open_read_at w name d 2 (4 * P) 4 Hfs Hv eq_refl Hr2 Hav2)
    as [Hopen2 [s2' [w2' [Hread2 _]]]].
  destruct (open_read_at w name d 16 P 1 Hfs Hv eq_refl Hr Hav)
    as [Hopen16 [s16' [w16' [Hread16 _]]]].
  assert (Hd2 : delivered d 2 (4 * P) 4 = 4%nat).
  { unfold delivered, avail_digits, spec_digits_per_limb, bits_per_digit in *.
    cbn [Z.eqb Pos.eqb] in *. change (64 / 1) with 64. change (64 / 4) with 16 in Hav.
    lia. }
  assert (Hd16 : delivered d 16 P 1 = 1%nat) by (unfold delivered; lia).
  rewrite Hd2 in Hread2. rewrite Hd16 in Hread16.
  rewrite digits_from_cons in Hread16. change (digits_from d 16 (P + 1) 0) with (@nil Z) in Hread16.
  do 10 eexists.
  split; [exact Hopen2 |]. split; [exact Hread2 |].
  split; [exact Hopen16 |]. split; [exact Hread16 |].
  split; [apply length_digits_from | apply number_digit_bits].
Qed.

(** Hexadecimal digit 17 of the two-limb file and its bits 68..71. *)
Lemma hex_digit_of_bits_witness :
  exists s2 w2 bits s2' w2' s16 w16 x s16' w16',
    mpt_reader_open "pi2" 2 (4 * 17) two_limb_world = Ok (Stream s2, w2) /\
    read_digits 4 s2 w2 = Ok (bits, s2', w2') /\
    mpt_reader_open "pi2" 16 17 two_limb_world = Ok (Stream s16, w16) /\
    read_digits 1 s16 w16 = Ok ([x], s16', w16') /\
    length bits = 4%nat /\
    digits_number 2 bits = x.
Proof.
  apply (hex_digit_of_bits two_limb_world "pi2" two_limb_file 17).
  - reflexivity.
  - exact two_limb_file_valid.
  - split; vm_compute; [discriminate | reflexivity].
  - vm_compute. reflexivity.
Defined.

(** ** Truncated files *)

(** The first digit call after an open, on a file that ends before the
    end of the start limb. *)
Lemma first_getc_aborts (w : World) (name : string) (d : list byte) (b sp : Z) :
  supported_base b = true -> w_fs w name = Some d -> header_parses d = true ->
  0 < open_pos d b sp ->
  MPT_DISK_HEADER_SIZE + 8 * open_pos d b sp < 2 ^ 63 ->
  seek_accepted w d (refill_offset (open_pos d b sp)) ->
  Z.of_nat (length d) < MPT_DISK_HEADER_SIZE + 8 * open_pos d b sp ->
  mpt_reader_getc (opened_reader w d b sp) (opened_world w) = Abort.
Proof.
  intros Hb Hfs Hh Hpos Hr [_ Hm] Hshort. unfold refill_offset in Hm.
  set (s := opened_reader w d b sp). set (F := mkFILE (S (w_next w)) d 56 (w_maxoff w)).
  assert (Hp : pos s = open_pos d b sp) by reflexivity.
  assert (Hpos' : 0 < pos s) by (rewrite Hp; exact Hpos).
  destruct (fill_length s Hpos') as [[Hlen1 Hlen2] [Hlen3 Hu]].
  pose proof (fill_seek_pos s F Hpos' ltac:(rewrite Hp; exact Hr)
                ltac:(rewrite Hp; exact Hm)) as Hseek.
  destruct (fill_seek_same s F) as [_ Hdata].
  rewrite min_int64_min in *.
  set (len := Z.min (pos s) MPT_MAX_BUF_LEN) in *.
  assert (Hlt : Z.of_nat (length (fill_bytes s F)) < 8 * len).
  { unfold fill_bytes. cbv zeta. rewrite min_int64_min. fold len.
    rewrite Hu, Hseek, Hdata. cbn [fdata F].
    pose proof (length_slice_short
                  (Z.to_nat (MPT_DISK_HEADER_SIZE + 8 * (pos s - len)))
                  (Z.to_nat (8 * len)) d) as Hsl.
    unfold MPT_DISK_HEADER_SIZE in *. rewrite Hp in *. lia. }
  assert (Hfill : mpt_reader_fill s (opened_world w) = Abort).
  { rewrite fill_eq. unfold s at 1, opened_reader, opened_world. cbn [self w_blocks].
    rewrite mem_nat_tail by apply mem_nat_head.
    rewrite min_int64_min. fold len.
    destruct (Z.eqb_spec len 0) as [H0 | _]; [lia |].
    change (f s) with (Some F). change (buf s) with (Some (mkBuf (S (S (w_next w))) [])).
    cbv iota beta. cbn [fd F w_files]. rewrite mem_nat_head. cbv zeta.
    rewrite Hu.
    destruct (Z.ltb_spec (MPT_MAX_BUF_LEN * sizeof_uint64)
                         (Z.of_nat (length (fill_bytes s F)))) as [Hbig | _];
      [unfold sizeof_uint64, MPT_MAX_BUF_LEN in *; lia |].
    destruct (Z.eqb_spec (Z.of_nat (length (fill_bytes s F))) (8 * len)) as [Heq | _];
      [lia | reflexivity]. }
  rewrite getc_eq, get_digit_eq.
  unfold s at 1, opened_reader, opened_world. cbn [self w_blocks].
  rewrite mem_nat_tail by apply mem_nat_head.
  change (cur_digit s) with 0. change (buf_pos s) with 0. change (0 =? 0) with true.
  cbv iota. fold (opened_world w). rewrite Hfill. reflexivity.
Qed.

(** X13.  A file that ends before the limb of the start position.  Let
    [pos >= 1] be a position whose scaling at line 129 stays within
    [int64_t], let the header parse and the limb offset [p] that line
    135 computes for [pos - 1] be positive, so that the open succeeds,
    and let [4096 + 8 * p], the offset at which the start limb ends, fit
    [off_t].  If the seek of the first refill is accepted (its offset
    lies within the file or within the largest offset of the file
    system) and the file is shorter than [4096 + 8 * p], a [dump_digits]
    for [n > 0] digits ends in [abort()] at its first digit, before
    anything is printed.  (When the seek is not accepted, its failure is
    ignored and the read goes on from where the header ended: this
    result says nothing then.) *)
Theorem dump_truncated_aborts (w : World) (name : string) (d : list byte)
        (b pos n : Z) (con : Console) :
  w_fs w name = Some d -> supported_base b = true -> header_parses d = true ->
  start_in_range b (pos - 1) ->
  0 < open_pos d b (pos - 1) ->
  MPT_DISK_HEADER_SIZE + 8 * open_pos d b (pos - 1) < 2 ^ 63 ->
  seek_accepted w d (refill_offset (open_pos d b (pos - 1))) ->
  Z.of_nat (length d) < MPT_DISK_HEADER_SIZE + 8 * open_pos d b (pos - 1) ->
  0 < n ->
  dump_digits name b pos n con w = Abort.
Proof.
  intros Hfs Hb Hh Hrange Hpos Hr Hseek Hshort Hn.
  destruct (spec_digits_facts b Hb) as [Hs _].
  assert (Hsmall : - 2 ^ 63 <= pos - 1 < 2 ^ 63) by (destruct Hrange; nia).
  unfold dump_digits. rewrite s64_id by exact Hsmall. unfold bind at 1.
  rewrite (open_stream w name d b _ Hb Hfs Hh Hpos).
  destruct (Z.to_nat n) as [|k] eqn:Hk; [lia |].
  cbn [dump_loop]. destruct (Z.ltb_spec 0 n) as [_ | H]; [| lia].
  unfold bind.
  rewrite (first_getc_aborts w name d b _ Hb Hfs Hh Hpos Hr Hseek Hshort). reflexivity.
Qed.

(** The file whose header declares two limbs and whose body holds one:
    [tpidump t 10 1 5]. *)
Lemma dump_truncated_aborts_witness :
  dump_digits "t" 10 1 5 (mkConsole [] "") truncated_world = Abort.
Proof.
  apply (dump_truncated_aborts truncated_world "t" truncated_file 10 1 5 (mkConsole [] "")).
  - reflexivity.
  - reflexivity.
  - vm_compute. reflexivity.
  - split; vm_compute; [discriminate | reflexivity].
  - vm_compute. reflexivity.
  - vm_compute. reflexivity.
  - split; vm_compute; discriminate.
  - vm_compute. reflexivity.
  - reflexivity.
Defined.
